(** * A backtester for a single-instrument trading strategy

    Shallow embedding of [src/backtester.py] (class [Backtester]) and of the
    price source of [src/tools.py] it calls.

    Numbers.  Python's [int] and [float] quantities, prices and cash amounts
    are embedded as exact rationals [Q]: rounding is not modelled.  The
    statistics of [analyze_performance] are pandas float computations whose
    results may be [nan] or infinite and which take square roots; they are
    embedded in the reals extended with the two infinities and NaN ([xreal]).

    Effects.  Code that can raise returns a [result]; the simulation loop
    mutates the portfolio in place and calls the decision source and the
    price source, so it is a state transformer that also records the calls
    it makes.  Printing and plotting are left out, except where formatting a
    value can raise. *)

From Stdlib Require Import QArith Qround Qreals Reals Lra Lqa Lia.
From Stdlib Require Import List String Ascii ZArith Bool.
Import ListNotations.

Set Implicit Arguments.

(** ** Python values and exceptions *)

Inductive exn : Type :=
| TypeError
| KeyError
| IndexError
| ValueError
| JSONDecodeError
| OtherError (msg : string).

Inductive result (A : Type) : Type :=
| Ok (a : A)
| Raise (e : exn).

Arguments Ok {A} a.
Arguments Raise {A} e.

Definition bind {A B : Type} (c : result A) (k : A -> result B) : result B :=
  match c with
  | Ok a => k a
  | Raise e => Raise e
  end.

Declare Scope result_scope.
Delimit Scope result_scope with result.
Notation "x <- c ;; k" := (bind c (fun x => k))
  (at level 61, c at next level, right associativity) : result_scope.

(** The values a decoded JSON text is made of.  A [dict] keeps its items
    in a list; a key is looked up from the front. *)
#[warnings="-register-all"] Inductive pyval : Type :=
| PyNone
| PyBool (b : bool)
| PyNum (q : Q)
| PyStr (s : string)
| PyList (l : list pyval)
| PyDict (d : list (string * pyval)).

Fixpoint dict_get (d : list (string * pyval)) (k : string) : option pyval :=
  match d with
  | [] => None
  | (k', v) :: d' => if String.eqb k' k then Some v else dict_get d' k
  end.

(** [obj[key]] with a string key: only a dict can be subscripted by one. *)
Definition getitem (obj : pyval) (key : string) : result pyval :=
  match obj with
  | PyDict d =>
      match dict_get d key with
      | Some v => Ok v
      | None => Raise KeyError
      end
  | _ => Raise TypeError
  end.

(** [v == "..."] for a string literal. *)
Definition py_eq_str (v : pyval) (lit : string) : bool :=
  match v with
  | PyStr s => String.eqb s lit
  | _ => false
  end.

(** The number a value stands for in a comparison or in arithmetic;
    [bool] is a subtype of [int] in Python. *)
Definition as_number (v : pyval) : result Q :=
  match v with
  | PyNum q => Ok q
  | PyBool b => Ok (if b then 1 else 0)%Q
  | _ => Raise TypeError
  end.

(** [v > 0]. *)
Definition py_gt0 (v : pyval) : result bool :=
  (q <- as_number v ;;
   Ok (if Qlt_le_dec 0 q then true else false))%result.

(** [a and b], where [b] is only evaluated when [a] is true. *)
Definition py_and (a : bool) (b : result bool) : result bool :=
  if a then b else Ok false.

(** [a <= b] as a decision, in the order the source tests it. *)
Definition Qle_lt_dec (a b : Q) : {a <= b} + {b < a} :=
  match Qlt_le_dec b a with
  | left H => right H
  | right H => left H
  end.

(** [min(a, b)]: the first argument unless the second is smaller. *)
Definition py_min (a b : Q) : Q :=
  if Qlt_le_dec b a then b else a.

(** [a // b]: the floor of the quotient.  The divisor is a price read
    from the price frame, a numpy float, so that a zero divisor does not
    raise: it gives nan or an infinity of the sign of [a].  The executor
    only divides when the cost exceeds the cash, which at a zero price
    means negative cash; the quotient is then not positive, as is the
    [0] that [a / 0] stands for in [Q]. *)
Definition floordiv (a b : Q) : Q := inject_Z (Qfloor (a / b)).

(** ** Decision parser: [Backtester.parse_action] *)

Section DecisionParser.

(** [json.loads], the decoder of the Python library. *)
Variable json_loads : pyval -> result pyval.

Definition hold0 : pyval * pyval := (PyStr "hold", PyNum 0).

(** The body of the [try] block. *)
Definition parse_action_try (agent_output : pyval)
  : result (pyval * pyval) :=
  (decision <- json_loads agent_output ;;
   action <- getitem decision "action" ;;
   quantity <- getitem decision "quantity" ;;
   Ok (action, quantity))%result.

(** The bare [except] catches whatever the [try] block raises. *)
Definition parse_action (agent_output : pyval) : pyval * pyval :=
  match parse_action_try agent_output with
  | Ok r => r
  | Raise _ => hold0
  end.

End DecisionParser.

(** ** A JSON decoder

    [json.loads] belongs to the Python library.  The properties of the
    parser and of the loop are proved for any decoder; this one makes the
    examples run.  It follows the library's grammar for texts without
    [\u] escapes and without the literals [NaN] and [Infinity], which have
    no counterpart here and are refused. *)

Definition dquote : ascii := "034"%char.

Definition is_ws (c : ascii) : bool :=
  (c =? " ")%char || (c =? "009")%char || (c =? "010")%char
  || (c =? "013")%char.

Fixpoint skip_ws (s : list ascii) : list ascii :=
  match s with
  | c :: s' => if is_ws c then skip_ws s' else s
  | [] => []
  end.

Definition digit_of (c : ascii) : option Z :=
  let n := Z.of_N (N_of_ascii c) in
  if ((48 <=? n) && (n <=? 57))%Z then Some (n - 48)%Z else None.

Fixpoint take_digits (s : list ascii) : list Z * list ascii :=
  match s with
  | c :: s' =>
      match digit_of c with
      | Some d => let (ds, r) := take_digits s' in (d :: ds, r)
      | None => ([], s)
      end
  | [] => ([], [])
  end.

Definition digits_value (ds : list Z) : Z :=
  fold_left (fun acc d => (acc * 10 + d)%Z) ds 0%Z.

Definition pow10 (n : Z) : Q :=
  if (0 <=? n)%Z then inject_Z (10 ^ n) else / inject_Z (10 ^ (- n)).

(** An optional minus sign, an integer part without a leading zero, an
    optional fraction and an optional exponent. *)
Definition parse_number (s : list ascii) : option (Q * list ascii) :=
  let (negative, s) :=
    match s with
    | "-"%char :: r => (true, r)
    | _ => (false, s)
    end in
  let (int_digits, s) := take_digits s in
  match int_digits with
  | [] => None
  | 0%Z :: _ :: _ => None
  | _ =>
      let fraction :=
        match s with
        | "."%char :: r =>
            let (ds, r') := take_digits r in
            match ds with
            | [] => None
            | _ => Some (ds, r')
            end
        | _ => Some ([], s)
        end in
      match fraction with
      | None => None
      | Some (frac_digits, s) =>
          let exponent :=
            match s with
            | ("e" | "E")%char :: r =>
                let (sign, r) :=
                  match r with
                  | "-"%char :: r' => ((-1)%Z, r')
                  | "+"%char :: r' => (1%Z, r')
                  | _ => (1%Z, r)
                  end in
                let (ds, r') := take_digits r in
                match ds with
                | [] => None
                | _ => Some ((sign * digits_value ds)%Z, r')
                end
            | _ => Some (0%Z, s)
            end in
          match exponent with
          | None => None
          | Some (e, s) =>
              let mantissa :=
                inject_Z (digits_value (int_digits ++ frac_digits)) in
              let scale := (e - Z.of_nat (List.length frac_digits))%Z in
              let magnitude := Qred (mantissa * pow10 scale) in
              Some (if negative then Qopp magnitude else magnitude, s)
          end
      end
  end.

Definition unescape (c : ascii) : option ascii :=
  if (c =? dquote)%char then Some dquote
  else if (c =? "\")%char then Some "\"%char
  else if (c =? "/")%char then Some "/"%char
  else if (c =? "b")%char then Some "008"%char
  else if (c =? "f")%char then Some "012"%char
  else if (c =? "n")%char then Some "010"%char
  else if (c =? "r")%char then Some "013"%char
  else if (c =? "t")%char then Some "009"%char
  else None.

(** The characters of a string up to its closing quote. *)
Fixpoint parse_string_body (s acc : list ascii) : option (string * list ascii) :=
  match s with
  | [] => None
  | c :: r =>
      if (c =? dquote)%char then
        Some (string_of_list_ascii (rev acc), r)
      else if (c =? "\")%char then
        match r with
        | e :: r' =>
            match unescape e with
            | Some c' => parse_string_body r' (c' :: acc)
            | None => None
            end
        | [] => None
        end
      else if (N_of_ascii c <? 32)%N then None
      else parse_string_body r (c :: acc)
  end.

Fixpoint starts_with (lit s : list ascii) : option (list ascii) :=
  match lit, s with
  | [], _ => Some s
  | c :: lit', c' :: s' => if (c =? c')%char then starts_with lit' s' else None
  | _ :: _, [] => None
  end.

(** [d[k] = v] on a dict under construction: a repeated key keeps its
    place and takes the new value. *)
Fixpoint dict_set (d : list (string * pyval)) (k : string) (v : pyval)
  : list (string * pyval) :=
  match d with
  | [] => [(k, v)]
  | (k', v') :: d' =>
      if String.eqb k' k then (k, v) :: d' else (k', v') :: dict_set d' k v
  end.

Fixpoint parse_value (fuel : nat) (s : list ascii)
  : option (pyval * list ascii) :=
  match fuel with
  | O => None
  | S fuel' =>
      match skip_ws s with
      | [] => None
      | c :: r =>
          if (c =? "[")%char then
            match skip_ws r with
            | "]"%char :: r' => Some (PyList [], r')
            | _ => parse_elements fuel' r []
            end
          else if (c =? "{")%char then
            match skip_ws r with
            | "}"%char :: r' => Some (PyDict [], r')
            | _ => parse_members fuel' r []
            end
          else if (c =? dquote)%char then
            match parse_string_body r [] with
            | Some (str, r') => Some (PyStr str, r')
            | None => None
            end
          else
            match starts_with (list_ascii_of_string "true") (c :: r),
                  starts_with (list_ascii_of_string "false") (c :: r),
                  starts_with (list_ascii_of_string "null") (c :: r) with
            | Some r', _, _ => Some (PyBool true, r')
            | _, Some r', _ => Some (PyBool false, r')
            | _, _, Some r' => Some (PyNone, r')
            | None, None, None =>
                match parse_number (c :: r) with
                | Some (q, r') => Some (PyNum q, r')
                | None => None
                end
            end
      end
  end

with parse_elements (fuel : nat) (s : list ascii) (acc : list pyval)
  : option (pyval * list ascii) :=
  match fuel with
  | O => None
  | S fuel' =>
      match parse_value fuel' s with
      | Some (v, r) =>
          match skip_ws r with
          | ","%char :: r' => parse_elements fuel' r' (v :: acc)
          | "]"%char :: r' => Some (PyList (rev (v :: acc)), r')
          | _ => None
          end
      | None => None
      end
  end

with parse_members (fuel : nat) (s : list ascii)
  (acc : list (string * pyval)) : option (pyval * list ascii) :=
  match fuel with
  | O => None
  | S fuel' =>
      match skip_ws s with
      | c :: r =>
          if (c =? dquote)%char then
            match parse_string_body r [] with
            | Some (key, r1) =>
                match skip_ws r1 with
                | ":"%char :: r2 =>
                    match parse_value fuel' r2 with
                    | Some (v, r3) =>
                        match skip_ws r3 with
                        | ","%char :: r4 =>
                            parse_members fuel' r4 (dict_set acc key v)
                        | "}"%char :: r4 =>
                            Some (PyDict (dict_set acc key v), r4)
                        | _ => None
                        end
                    | None => None
                    end
                | _ => None
                end
            | None => None
            end
          else None
      | [] => None
      end
  end.

(** Decoding a text of [n] characters takes fewer than [2 * n + 2] nested
    calls. *)
Definition json_decode (text : pyval) : result pyval :=
  match text with
  | PyStr s =>
      let cs := list_ascii_of_string s in
      match parse_value (2 * List.length cs + 2) cs with
      | Some (v, r) =>
          match skip_ws r with
          | [] => Ok v
          | _ => Raise JSONDecodeError
          end
      | None => Raise JSONDecodeError
      end
  | _ => Raise TypeError
  end.

(** A string literal of a JSON text, between double quotes. *)
Definition quoted (s : string) : string :=
  String dquote (s ++ String dquote EmptyString).

(** Decision texts used in the examples: [{"action": a, "quantity": q}]
    for a given action and quantity, written as they appear in the text. *)
Definition decision_text (action quantity : string) : string :=
  "{" ++ quoted "action" ++ ": " ++ action ++ ", "
      ++ quoted "quantity" ++ ": " ++ quantity ++ "}".

(** [{"action": "buy", "quantity": "ten"}] and what it decodes to. *)
Definition buy_ten_text : string :=
  decision_text (quoted "buy") (quoted "ten").

Definition buy_ten_decision : pyval :=
  PyDict [("action"%string, PyStr "buy"); ("quantity"%string, PyStr "ten")].

(** [{"quantity": 10}]. *)
Definition quantity_only_text : string :=
  "{" ++ quoted "quantity" ++ ": 10}".

(** ** Trade executor: [Backtester.execute_trade] *)

Record Portfolio : Type := mkPortfolio {
  cash : Q;
  stock : Q;
  portfolio_value : option Q   (* the key is only set by the loop *)
}.

Definition set_cash_stock (p : Portfolio) (c s : Q) : Portfolio :=
  {| cash := c; stock := s; portfolio_value := portfolio_value p |}.

Definition execute_buy (quantity current_price : Q) (p : Portfolio)
  : Q * Portfolio :=
  let cost := (quantity * current_price)%Q in
  if Qle_lt_dec cost (cash p) then
    (quantity, set_cash_stock p (cash p - cost)%Q (stock p + quantity)%Q)
  else
    (* the largest quantity that can be paid for *)
    let max_quantity := floordiv (cash p) current_price in
    if Qlt_le_dec 0 max_quantity then
      (max_quantity,
       set_cash_stock p (cash p - max_quantity * current_price)%Q
                        (stock p + max_quantity)%Q)
    else (0%Q, p).

Definition execute_sell (quantity current_price : Q) (p : Portfolio)
  : Q * Portfolio :=
  let quantity := py_min quantity (stock p) in
  if Qlt_le_dec 0 quantity then
    (quantity,
     set_cash_stock p (cash p + quantity * current_price)%Q
                      (stock p - quantity)%Q)
  else (0%Q, p).

(** The returned pair is the filled quantity and the portfolio after the
    call.  A quantity that is not a number makes [quantity > 0] raise, which
    happens before anything is written. *)
Definition execute_trade (action quantity : pyval) (current_price : Q)
  (p : Portfolio) : result (Q * Portfolio) :=
  (is_buy <- py_and (py_eq_str action "buy") (py_gt0 quantity) ;;
   if is_buy then
     q <- as_number quantity ;;
     Ok (execute_buy q current_price p)
   else
     is_sell <- py_and (py_eq_str action "sell") (py_gt0 quantity) ;;
     if is_sell then
       q <- as_number quantity ;;
       Ok (execute_sell q current_price p)
     else Ok (0%Q, p))%result.

(** ** Price source: [tools.get_price_data] *)

(** A row of a price frame; the index is the bar's date, a day number. *)
Record Bar : Type := mkBar {
  bar_date : Z;
  close : Q;
  volume : Q
}.

Fixpoint insert_by_date (b : Bar) (l : list Bar) : list Bar :=
  match l with
  | [] => [b]
  | b' :: l' =>
      if (bar_date b <? bar_date b')%Z then b :: l
      else b' :: insert_by_date b l'
  end.

(** [df.sort_index()]: rows in ascending date order. *)
Definition sort_index (df : list Bar) : list Bar :=
  fold_right insert_by_date [] df.

Section PriceSource.

(** [yf.download], the remote price service: the rows it returns for a
    ticker and a date range, or the error it raises. *)
Variable yf_download : string -> Z -> Z -> result (list Bar).

Definition get_prices (ticker : string) (start_date end_date : Z)
  : result (list Bar) :=
  (df <- yf_download ticker start_date end_date ;;
   match df with
   | [] => Raise ValueError      (* "No price data returned" *)
   | _ => Ok (sort_index df)
   end)%result.

(** Keeps the close and volume columns, row by row. *)
Definition prices_to_df (prices : list Bar) : list Bar :=
  map (fun b => mkBar (bar_date b) (close b) (volume b)) prices.

Definition get_price_data (ticker : string) (start_date end_date : Z)
  : result (list Bar) :=
  (prices <- get_prices ticker start_date end_date ;;
   Ok (prices_to_df prices))%result.

End PriceSource.

(** [df.iloc[-1]['close']]. *)
Definition iloc_last_close (df : list Bar) : result Q :=
  match rev df with
  | [] => Raise IndexError
  | b :: _ => Ok (close b)
  end.

(** ** Simulation loop: [Backtester.run_backtest] *)

Record Backtester : Type := mkBacktester {
  ticker : string;
  start_date : Z;
  end_date : Z;
  initial_capital : Q;
  portfolio : Portfolio;
  portfolio_values : list (Z * Q)   (* Date, Portfolio Value *)
}.

(** [Backtester.__init__]. *)
Definition new_backtester (ticker : string) (start_date end_date : Z)
  (initial_capital : Q) : Backtester :=
  {| ticker := ticker;
     start_date := start_date;
     end_date := end_date;
     initial_capital := initial_capital;
     portfolio := {| cash := initial_capital; stock := 0;
                     portfolio_value := None |};
     portfolio_values := [] |}.

Definition with_portfolio (bt : Backtester) (p : Portfolio) : Backtester :=
  {| ticker := ticker bt;
     start_date := start_date bt;
     end_date := end_date bt;
     initial_capital := initial_capital bt;
     portfolio := p;
     portfolio_values := portfolio_values bt |}.

Definition append_value (bt : Backtester) (r : Z * Q) : Backtester :=
  {| ticker := ticker bt;
     start_date := start_date bt;
     end_date := end_date bt;
     initial_capital := initial_capital bt;
     portfolio := portfolio bt;
     portfolio_values := portfolio_values bt ++ [r] |}.

(** Day number 1 is a Monday, as in the proleptic Gregorian ordinal. *)
Definition is_business_day (d : Z) : bool := ((d - 1) mod 7 <? 5)%Z.

(** [pd.date_range(start, end, freq="B")]. *)
Definition date_range (start_date end_date : Z) : list Z :=
  filter is_business_day
    (map (fun i => (start_date + Z.of_nat i)%Z)
         (seq 0 (Z.to_nat (end_date - start_date + 1)))).

(** The calls the loop makes to its two collaborators, with the window
    they are given. *)
Inductive call : Type :=
| CallAgent (lookback_start current_date : Z)
| CallPrices (lookback_start current_date : Z).

(** The state the loop works on: the backtester object, which it mutates,
    and the calls made so far, oldest first. *)
Record Sim : Type := mkSim {
  bt : Backtester;
  calls : list call
}.

(** State that survives an exception, and a result that may be one. *)
Definition sim (A : Type) : Type := Sim -> result A * Sim.

Definition sret {A : Type} (a : A) : sim A := fun s => (Ok a, s).

Definition sbind {A B : Type} (c : sim A) (k : A -> sim B) : sim B :=
  fun s =>
    match c s with
    | (Ok a, s') => k a s'
    | (Raise e, s') => (Raise e, s')
    end.

Declare Scope sim_scope.
Delimit Scope sim_scope with sim.
Notation "x <- c ;; k" := (sbind c (fun x => k))
  (at level 61, c at next level, right associativity) : sim_scope.
Notation "' pat <- c ;; k" :=
  (sbind c (fun x => match x with pat => k end))
  (at level 61, pat pattern, c at next level, right associativity)
  : sim_scope.
Notation "c ;; k" := (sbind c (fun _ => k))
  (at level 61, right associativity) : sim_scope.

Definition lift {A : Type} (r : result A) : sim A := fun s => (r, s).

Definition record_call (c : call) : sim unit :=
  fun s => (Ok tt, {| bt := bt s; calls := calls s ++ [c] |}).

Definition get_bt : sim Backtester := fun s => (Ok (bt s), s).

Definition put_bt (b : Backtester) : sim unit :=
  fun s => (Ok tt, {| bt := b; calls := calls s |}).

(** [f"{action:<6}"] in the progress line: [None], a list and a dict do
    not accept a format specification. *)
Definition format_action (action : pyval) : result unit :=
  match action with
  | PyStr _ | PyNum _ | PyBool _ => Ok tt
  | PyNone | PyList _ | PyDict _ => Raise TypeError
  end.

Section SimulationLoop.

Variable json_loads : pyval -> result pyval.
Variable yf_download : string -> Z -> Z -> result (list Bar).

(** The decision source.  It is handed the portfolio and is taken not
    to write to it. *)
Variable agent : string -> Z -> Z -> Portfolio -> result pyval.

(** One iteration of the [for] loop. *)
Definition simulate_day (current_date : Z) : sim unit :=
  (let lookback_start := (current_date - 30)%Z in
   b <- get_bt ;;
   record_call (CallAgent lookback_start current_date) ;;
   agent_output <-
     lift (agent (ticker b) lookback_start current_date (portfolio b)) ;;
   let '(action, quantity) := parse_action json_loads agent_output in
   record_call (CallPrices lookback_start current_date) ;;
   df <- lift (get_price_data yf_download (ticker b) lookback_start
                              current_date) ;;
   current_price <- lift (iloc_last_close df) ;;
   '(executed_quantity, p) <-
     lift (execute_trade action quantity current_price (portfolio b)) ;;
   let total_value := (cash p + stock p * current_price)%Q in
   let b' := with_portfolio b {| cash := cash p; stock := stock p;
                                 portfolio_value := Some total_value |} in
   put_bt b' ;;
   lift (format_action action) ;;
   put_bt (append_value b' (current_date, total_value)))%sim.

Fixpoint for_each (dates : list Z) : sim unit :=
  match dates with
  | [] => sret tt
  | d :: dates' => (simulate_day d ;; for_each dates')%sim
  end.

Definition run_backtest (b : Backtester) : result unit * Sim :=
  for_each (date_range (start_date b) (end_date b))
           {| bt := b; calls := [] |}.

End SimulationLoop.

(** ** Float results: the reals with infinities and NaN

    The arithmetic of numpy's float64 without rounding and with a single
    zero: dividing a nonzero number by zero gives an infinity, [0 / 0] and
    [inf - inf] give NaN, and NaN propagates. *)

Inductive xreal : Type :=
| Fin (r : R)
| PInf
| NInf
| NaN.

Definition xinf (positive : bool) : xreal :=
  if positive then PInf else NInf.

(** The infinity of the given sign scaled by [r]. *)
Definition xinf_times (positive : bool) (r : R) : xreal :=
  match total_order_T 0 r with
  | inleft (left _) => xinf positive
  | inleft (right _) => NaN
  | inright _ => xinf (negb positive)
  end.

Definition xopp (x : xreal) : xreal :=
  match x with
  | Fin r => Fin (- r)
  | PInf => NInf
  | NInf => PInf
  | NaN => NaN
  end.

Definition xadd (x y : xreal) : xreal :=
  match x, y with
  | NaN, _ | _, NaN => NaN
  | Fin a, Fin b => Fin (a + b)
  | PInf, NInf | NInf, PInf => NaN
  | PInf, _ | _, PInf => PInf
  | NInf, _ | _, NInf => NInf
  end.

Definition xsub (x y : xreal) : xreal := xadd x (xopp y).

Definition xmul (x y : xreal) : xreal :=
  match x, y with
  | NaN, _ | _, NaN => NaN
  | Fin a, Fin b => Fin (a * b)
  | PInf, Fin r | Fin r, PInf => xinf_times true r
  | NInf, Fin r | Fin r, NInf => xinf_times false r
  | PInf, PInf | NInf, NInf => PInf
  | PInf, NInf | NInf, PInf => NInf
  end.

Definition xdiv (x y : xreal) : xreal :=
  match x, y with
  | NaN, _ | _, NaN => NaN
  | Fin a, Fin b =>
      if Req_dec_T b 0 then xinf_times true a else Fin (a / b)
  | Fin _, (PInf | NInf) => Fin 0
  | PInf, Fin b => if Rlt_dec b 0 then NInf else PInf
  | NInf, Fin b => if Rlt_dec b 0 then PInf else NInf
  | (PInf | NInf), (PInf | NInf) => NaN
  end.

Definition xsqrt (x : xreal) : xreal :=
  match x with
  | Fin r => if Rlt_dec r 0 then NaN else Fin (sqrt r)
  | PInf => PInf
  | NInf | NaN => NaN
  end.

(** [x <= y]; false as soon as one side is NaN. *)
Definition xle (x y : xreal) : Prop :=
  match x, y with
  | NaN, _ | _, NaN => False
  | Fin a, Fin b => (a <= b)%R
  | NInf, _ | _, PInf => True
  | PInf, _ | _, NInf => False
  end.

Definition is_nan (x : xreal) : bool :=
  match x with
  | NaN => true
  | _ => false
  end.

(** The smaller of two numbers that are not NaN. *)
Definition xmin2 (x y : xreal) : xreal :=
  match x, y with
  | Fin a, Fin b => Fin (Rmin a b)
  | NInf, _ | _, NInf => NInf
  | PInf, z | z, PInf => z
  | NaN, z | z, NaN => z
  end.

(** ** pandas Series operations used by the analyzer

    [mean], [std] and [min] skip NaN entries, which is pandas' default. *)

Definition dropna (s : list xreal) : list xreal :=
  filter (fun x => negb (is_nan x)) s.

Definition xsum (s : list xreal) : xreal :=
  fold_right xadd (Fin 0) s.

Definition count (s : list xreal) : R := INR (List.length s).

(** [Series.mean()]. *)
Definition series_mean (s : list xreal) : xreal :=
  match dropna s with
  | [] => NaN
  | xs => xdiv (xsum xs) (Fin (count xs))
  end.

(** [Series.var()], with the default [ddof=1]. *)
Definition series_var (s : list xreal) : xreal :=
  let xs := dropna s in
  if (List.length xs <=? 1)%nat then NaN
  else
    let avg := xdiv (xsum xs) (Fin (count xs)) in
    let sqr := map (fun x => let d := xsub avg x in xmul d d) xs in
    xdiv (xsum sqr) (Fin (count xs - 1)).

(** [Series.std()]: the sample standard deviation. *)
Definition series_std (s : list xreal) : xreal :=
  xsqrt (series_var s).

(** [Series.min()]. *)
Definition series_min (s : list xreal) : xreal :=
  match dropna s with
  | [] => NaN
  | x :: xs => fold_left xmin2 xs x
  end.

(** [s / s.shift(1) - 1] after the first entry. *)
Fixpoint pct_change_from (prev : R) (s : list R) : list xreal :=
  match s with
  | [] => []
  | v :: s' =>
      xsub (xdiv (Fin v) (Fin prev)) (Fin 1) :: pct_change_from v s'
  end.

(** [Series.pct_change()]: the first entry has no predecessor. *)
Definition pct_change (s : list R) : list xreal :=
  match s with
  | [] => []
  | v :: s' => NaN :: pct_change_from v s'
  end.

Fixpoint cummax_from (m : R) (s : list R) : list R :=
  match s with
  | [] => []
  | v :: s' => let m' := Rmax m v in m' :: cummax_from m' s'
  end.

(** [Series.cummax()]. *)
Definition cummax (s : list R) : list R :=
  match s with
  | [] => []
  | v :: s' => v :: cummax_from v s'
  end.

(** [a / b - 1] entry by entry, on series of the same length. *)
Fixpoint div_minus_one (a b : list R) : list xreal :=
  match a, b with
  | x :: a', y :: b' =>
      xsub (xdiv (Fin x) (Fin y)) (Fin 1) :: div_minus_one a' b'
  | _, _ => []
  end.

(** ** Performance analyzer: [Backtester.analyze_performance] *)

(** [(mean_daily_return / std_daily_return) * (252 ** 0.5)]. *)
Definition sharpe_of (daily_return : list xreal) : xreal :=
  xmul (xdiv (series_mean daily_return) (series_std daily_return))
       (Fin (sqrt 252)).

Definition sharpe_ratio_of_values (values : list R) : xreal :=
  sharpe_of (pct_change values).

Definition drawdown (values : list R) : list xreal :=
  div_minus_one values (cummax values).

Definition max_drawdown_of_values (values : list R) : xreal :=
  series_min (drawdown values).

(** What the method computes: the three statistics it prints and the
    frame it returns, a row being a date, a portfolio value and a daily
    return. *)
Record Performance : Type := mkPerformance {
  total_return : xreal;
  sharpe_ratio : xreal;
  max_drawdown : xreal;
  performance_df : list (Z * R * xreal)
}.

Definition value_column (records : list (Z * Q)) : list R :=
  map (fun r => Q2R (snd r)) records.

Definition analyze_performance (b : Backtester) : result Performance :=
  match portfolio_values b with
  | [] => Raise KeyError          (* no "Date" column to index by *)
  | records =>
      match portfolio_value (portfolio b) with
      | None => Raise KeyError    (* portfolio["portfolio_value"] *)
      | Some final_value =>
          let values := value_column records in
          let daily_return := pct_change values in
          Ok {| total_return :=
                  xdiv (Fin (Q2R (final_value - initial_capital b)))
                       (Fin (Q2R (initial_capital b)));
                sharpe_ratio := sharpe_of daily_return;
                max_drawdown := max_drawdown_of_values values;
                performance_df :=
                  combine (combine (map fst records) values)
                          daily_return |}
      end
  end.

(** ** Notions the properties are stated with *)

(** No margin and no short position. *)
Definition portfolio_ok (p : Portfolio) : Prop :=
  0 <= cash p /\ 0 <= stock p.

(** The arguments of one call of [execute_trade]. *)
Record trade_call : Type := mkCall {
  call_action : pyval;
  call_quantity : pyval;
  call_price : Q
}.

(** The portfolio after a call: the method writes to it on the paths
    that fill, and a call that raises has not written yet. *)
Definition after_call (p : Portfolio) (c : trade_call) : Portfolio :=
  match execute_trade (call_action c) (call_quantity c) (call_price c) p with
  | Ok (_, p') => p'
  | Raise _ => p
  end.

(** The portfolios seen after each call of a sequence, in order. *)
Fixpoint portfolios_after (p : Portfolio) (cs : list trade_call)
  : list Portfolio :=
  match cs with
  | [] => []
  | c :: cs' => let p' := after_call p c in p' :: portfolios_after p' cs'
  end.

(** The decoder's outcome is an object with an [action] and a [quantity]
    entry, holding the given values. *)
Definition decision_fields (decoded : result pyval) (action quantity : pyval)
  : Prop :=
  exists d : list (string * pyval),
    decoded = Ok (PyDict d)
    /\ dict_get d "action" = Some action
    /\ dict_get d "quantity" = Some quantity.

(** The calls of a run, day by day: the decision source, then the price
    source for the same window; the last day may stop after the first
    call, when the decision source raises. *)
Inductive agent_then_prices : list call -> Prop :=
| atp_done : agent_then_prices []
| atp_agent_only (ls d : Z) : agent_then_prices [CallAgent ls d]
| atp_day (ls d : Z) (cs : list call) :
    agent_then_prices cs ->
    agent_then_prices (CallAgent ls d :: CallPrices ls d :: cs).

(** What one iteration of the loop does to the state, by the way it ends:
    the decision source raises; the price source, the last-row lookup or
    the executor raises; the progress line raises, after the portfolio was
    written; or the day completes and appends its record. *)
Inductive day_outcome (d : Z) (s : Sim) : result unit * Sim -> Prop :=
| day_agent_raises (e : exn) :
    day_outcome d s
      (Raise e, {| bt := bt s;
                   calls := calls s ++ [CallAgent (d - 30) d] |})
| day_raises_before_marking (e : exn) :
    day_outcome d s
      (Raise e, {| bt := bt s;
                   calls := (calls s ++ [CallAgent (d - 30) d])
                              ++ [CallPrices (d - 30) d] |})
| day_raises_after_marking (e : exn) (p : Portfolio) (total_value : Q) :
    day_outcome d s
      (Raise e,
       {| bt := with_portfolio (bt s)
                  {| cash := cash p; stock := stock p;
                     portfolio_value := Some total_value |};
          calls := (calls s ++ [CallAgent (d - 30) d])
                     ++ [CallPrices (d - 30) d] |})
| day_completes (p : Portfolio) (total_value : Q) :
    day_outcome d s
      (Ok tt,
       {| bt := append_value
                  (with_portfolio (bt s)
                     {| cash := cash p; stock := stock p;
                        portfolio_value := Some total_value |})
                  (d, total_value);
          calls := (calls s ++ [CallAgent (d - 30) d])
                     ++ [CallPrices (d - 30) d] |}).

(** The order the specification asks for: whenever the decision source is
    called for a window, the price source was called for it before. *)
Definition prices_then_agent (cs : list call) : Prop :=
  forall (pre post : list call) (ls d : Z),
    cs = pre ++ CallAgent ls d :: post -> In (CallPrices ls d) pre.

(** The value of the last record. *)
Definition last_value (records : list (Z * Q)) : option Q :=
  match rev records with
  | [] => None
  | r :: _ => Some (snd r)
  end.

(** The mark stored in the portfolio is the value of the last record,
    once there is a record. *)
Definition mark_is_last_value (b : Backtester) : Prop :=
  portfolio_values b <> [] ->
  portfolio_value (portfolio b) = last_value (portfolio_values b).

(** The analyzer as a function of the record sequence and the initial
    capital alone: the final value is read off the last record. *)
Definition analyze_sequence (capital : Q) (records : list (Z * Q))
  : result Performance :=
  match last_value records with
  | None => Raise KeyError
  | Some final_value =>
      let values := value_column records in
      Ok {| total_return :=
              xdiv (Fin (Q2R (final_value - capital))) (Fin (Q2R capital));
            sharpe_ratio := sharpe_ratio_of_values values;
            max_drawdown := max_drawdown_of_values values;
            performance_df :=
              combine (combine (map fst records) values)
                      (pct_change values) |}
  end.

(** *** Collaborators of the example runs *)

(** A decision source that always answers [{"action": "hold", "quantity": 0}]. *)
Definition hold_agent (_ : string) (_ _ : Z) (_ : Portfolio) : result pyval :=
  Ok (PyStr (decision_text (quoted "hold") "0")).

(** A price source without a single bar. *)
Definition no_bars (_ : string) (_ _ : Z) : result (list Bar) := Ok [].

(** One bar per window, dated at its end, closing at 100. *)
Definition flat_bars (_ : string) (_ end_date : Z) : result (list Bar) :=
  Ok [mkBar end_date 100 0].

(** A decision source that always answers [{"action": "buy", "quantity": 5}]. *)
Definition buy_5_agent (_ : string) (_ _ : Z) (_ : Portfolio) : result pyval :=
  Ok (PyStr (decision_text (quoted "buy") "5")).

(** One bar per window, dated at its end: the close is 100 on day 1 and 200
    afterwards. *)
Definition rising_bars (_ : string) (_ end_date : Z) : result (list Bar) :=
  Ok [mkBar end_date (if (end_date =? 1)%Z then 100 else 200) 0].

(** A decision source that buys one share on day 1 and then answers
    [{"action": null, "quantity": 0}]. *)
Definition buy_then_null_agent (_ : string) (_ current_date : Z)
  (_ : Portfolio) : result pyval :=
  Ok (PyStr (if (current_date =? 1)%Z
             then decision_text (quoted "buy") "1"
             else decision_text "null" "0")).

(** *** The statistics as the specification writes them *)

Local Open Scope R_scope.

Fixpoint returns_from (prev : R) (s : list R) : list R :=
  match s with
  | [] => []
  | v :: s' => (v / prev - 1) :: returns_from v s'
  end.

(** [r_i = V_i / V_(i-1) - 1] for [i = 1 .. n-1]. *)
Definition returns (values : list R) : list R :=
  match values with
  | [] => []
  | v :: s => returns_from v s
  end.

Definition Rsum (l : list R) : R := fold_right Rplus 0 l.

Definition mean (l : list R) : R := Rsum l / INR (List.length l).

(** The sample variance divides by [n - 1]. *)
Definition sample_var (l : list R) : R :=
  Rsum (map (fun x => (mean l - x) * (mean l - x)) l)
  / (INR (List.length l) - 1).

Definition sample_std (l : list R) : R := sqrt (sample_var l).

(** [M_i = max(V_0 .. V_i)]. *)
Definition running_max (values : list R) (i : nat) : R :=
  match values with
  | [] => 0
  | v :: s => fold_left Rmax (firstn i s) v
  end.

(** [D_i = V_i / M_i - 1]. *)
Definition drawdown_at (values : list R) (i : nat) : R :=
  nth i values 0 / running_max values i - 1.

(** The drawdown claim on one series: every entry is [V_i / M_i - 1] and
    is at most zero, and the maximum drawdown is the least entry. *)
Definition drawdown_claim (values : list R) : Prop :=
  (forall i : nat, (i < List.length values)%nat ->
     nth i (drawdown values) NaN = Fin (drawdown_at values i)
     /\ xle (nth i (drawdown values) NaN) (Fin 0))
  /\ exists m : R,
       max_drawdown_of_values values = Fin m
       /\ (forall i : nat, (i < List.length values)%nat ->
             m <= drawdown_at values i)
       /\ (exists i : nat, (i < List.length values)%nat
                           /\ m = drawdown_at values i).

Local Close Scope R_scope.

(** ** Further notions *)

From Stdlib Require Import Qabs Sorting.Sorted Sorting.Permutation.

Unset Implicit Arguments.

(** Rows in ascending order of their dates. *)
Definition by_date (a b : Bar) : Prop := (bar_date a <= bar_date b)%Z.

(** The portfolio a day leaves behind once the trade [p] is made at
    [price]: the trade, and the mark at that price. *)
Definition marked (p : Portfolio) (price : Q) : Portfolio :=
  {| cash := cash p; stock := stock p;
     portfolio_value := Some (cash p + stock p * price)%Q |}.

(** The steps of a day that reached the trade: the decision source
    answered, prices were found, and the executor returned. *)
Definition day_traded
  (json_loads : pyval -> result pyval)
  (yf_download : string -> Z -> Z -> result (list Bar))
  (agent : string -> Z -> Z -> Portfolio -> result pyval)
  (d : Z) (b : Backtester) (price : Q) (p : Portfolio) : Prop :=
  exists (agent_output action quantity : pyval) (df : list Bar) (f : Q),
    agent (ticker b) (d - 30)%Z d (portfolio b) = Ok agent_output
    /\ parse_action json_loads agent_output = (action, quantity)
    /\ get_price_data yf_download (ticker b) (d - 30)%Z d = Ok df
    /\ iloc_last_close df = Ok price
    /\ execute_trade action quantity price (portfolio b) = Ok (f, p).

(** ** Indicators of [tools.py] *)

(** *** [calculate_obv] *)

(** The entries after the first: [acc] is [obv[-1]] and [prev_close] the
    close of the row before. *)
Fixpoint obv_from (prev_close acc : Q) (rows : list Bar) : list Q :=
  match rows with
  | [] => []
  | b :: rows' =>
      let next :=
        if Qlt_le_dec prev_close (close b) then (acc + volume b)%Q
        else if Qlt_le_dec (close b) prev_close then (acc - volume b)%Q
        else acc in
      next :: obv_from (close b) next rows'
  end.

(** The list starts as [[0]] and gets one entry per further row; storing
    it as a column of a frame that has no row raises. *)
Definition calculate_obv (prices_df : list Bar) : result (list Q) :=
  match prices_df with
  | [] => Raise ValueError
  | b :: rows => Ok (0%Q :: obv_from (close b) 0 rows)
  end.


(** Closes that rise from each row to the next. *)
Fixpoint rising_from (prev_close : Q) (rows : list Bar) : Prop :=
  match rows with
  | [] => True
  | b :: rows' => (prev_close < close b)%Q /\ rising_from (close b) rows'
  end.

(** Closes that fall from each row to the next. *)
Fixpoint falling_from (prev_close : Q) (rows : list Bar) : Prop :=
  match rows with
  | [] => True
  | b :: rows' => (close b < prev_close)%Q /\ falling_from (close b) rows'
  end.

(** The running totals of a list, starting from [acc]. *)
Fixpoint running_totals (acc : Q) (l : list Q) : list Q :=
  match l with
  | [] => []
  | x :: l' => (acc + x)%Q :: running_totals (acc + x)%Q l'
  end.

(** *** [calculate_confidence_level] *)

(** [max(a, b)]: the first argument unless the second is greater. *)
Definition py_max (a b : Q) : Q :=
  if Qlt_le_dec a b then b else a.

(** [signals[key]] on a dict of numbers. *)
Fixpoint signal (signals : list (string * Q)) (key : string) : result Q :=
  match signals with
  | [] => Raise KeyError
  | (k, v) :: signals' =>
      if String.eqb k key then Ok v else signal signals' key
  end.

(** [a / b] on Python numbers.  (On numpy floats a zero divisor would
    give nan or an infinity instead of raising; the properties below are
    about non-zero prices.) *)
Definition py_div (a b : Q) : result Q :=
  if Qeq_dec b 0 then Raise (OtherError "ZeroDivisionError")
  else Ok (a / b)%Q.

Definition calculate_confidence_level (signals : list (string * Q))
  : result Q :=
  (sma_5_prev <- signal signals "sma_5_prev" ;;
   sma_20_prev <- signal signals "sma_20_prev" ;;
   let sma_diff_prev := Qabs (sma_5_prev - sma_20_prev) in
   sma_5_curr <- signal signals "sma_5_curr" ;;
   sma_20_curr <- signal signals "sma_20_curr" ;;
   let sma_diff_curr := Qabs (sma_5_curr - sma_20_curr) in
   let diff_change := (sma_diff_curr - sma_diff_prev)%Q in
   current_price <- signal signals "current_price" ;;
   ratio <- py_div diff_change current_price ;;
   Ok (py_min (py_max ratio 0) 1))%result.

(** The dict of the five signals. *)
Definition signals_of (sma_5_prev sma_20_prev sma_5_curr sma_20_curr
                       current_price : Q) : list (string * Q) :=
  [("sma_5_prev"%string, sma_5_prev); ("sma_20_prev"%string, sma_20_prev);
   ("sma_5_curr"%string, sma_5_curr); ("sma_20_curr"%string, sma_20_curr);
   ("current_price"%string, current_price)].

(** How much the gap between the two averages has widened. *)
Definition gap_change (sma_5_prev sma_20_prev sma_5_curr sma_20_curr : Q)
  : Q :=
  (Qabs (sma_5_curr - sma_20_curr) - Qabs (sma_5_prev - sma_20_prev))%Q.

(** *** [calculate_macd] *)

(** [Series.ewm(span=..., adjust=False).mean()] after the first entry:
    the new average is the old one, pulled toward the new value by the
    weight [alpha]. *)
Fixpoint ewm_from (alpha prev : Q) (xs : list Q) : list Q :=
  match xs with
  | [] => []
  | x :: xs' =>
      let y := ((1 - alpha) * prev + alpha * x)%Q in
      y :: ewm_from alpha y xs'
  end.

(** The first average is the first value; the weight of a span is
    [2 / (span + 1)]. *)
Definition ewm_mean (span : Q) (xs : list Q) : list Q :=
  match xs with
  | [] => []
  | x :: xs' => x :: ewm_from (2 / (span + 1))%Q x xs'
  end.

(** [a - b] on two series with the same index. *)
Definition sub_series (a b : list Q) : list Q :=
  map (fun p => (fst p - snd p)%Q) (combine a b).

(** The pair [(macd_line, signal_line)]. *)
Definition calculate_macd (prices_df : list Bar) : list Q * list Q :=
  let closes := map close prices_df in
  let ema_12 := ewm_mean 12 closes in
  let ema_26 := ewm_mean 26 closes in
  let macd_line := sub_series ema_12 ema_26 in
  let signal_line := ewm_mean 9 macd_line in
  (macd_line, signal_line).

(** The same bars with every close replaced by [f close]. *)
Definition map_close (f : Q -> Q) (prices_df : list Bar) : list Bar :=
  map (fun b => mkBar (bar_date b) (f (close b)) (volume b)) prices_df.

(** *** Rolling windows, [calculate_rsi] and [calculate_bollinger_bands] *)

(** The window that ends at row [i]: the last [w] entries up to it, or
    all the entries up to it when there are fewer. *)
Definition window_at {A : Type} (w i : nat) (s : list A) : list A :=
  firstn (Nat.min w (S i)) (skipn (S i - w) s).

(** [Series.rolling(window=w).f()]: an entry is NaN unless its window
    holds [w] observations that are not NaN. *)
Definition rolling (f : list xreal -> xreal) (w : nat) (s : list xreal)
  : list xreal :=
  map (fun i =>
         let win := window_at w i s in
         if (List.length (dropna win) <? w)%nat then NaN else f win)
      (seq 0 (List.length s)).

Fixpoint diff_from (prev : R) (s : list R) : list xreal :=
  match s with
  | [] => []
  | v :: s' => Fin (v - prev) :: diff_from v s'
  end.

(** [Series.diff()]: the first entry has no predecessor. *)
Definition diff (s : list R) : list xreal :=
  match s with
  | [] => []
  | v :: s' => NaN :: diff_from v s'
  end.

(** [delta.where(delta > 0, 0)]: an entry that is not positive, NaN
    included, is replaced by zero. *)
Definition where_positive (x : xreal) : xreal :=
  match x with
  | Fin r => if Rlt_dec 0 r then Fin r else Fin 0
  | PInf => PInf
  | NInf | NaN => Fin 0
  end.

(** [delta.where(delta < 0, 0)]. *)
Definition where_negative (x : xreal) : xreal :=
  match x with
  | Fin r => if Rlt_dec r 0 then Fin r else Fin 0
  | NInf => NInf
  | PInf | NaN => Fin 0
  end.

(** [fillna(0)]. *)
Definition fillna0 (x : xreal) : xreal :=
  match x with
  | NaN => Fin 0
  | _ => x
  end.

(** An operation entry by entry on two series with the same index. *)
Definition zip_with (op : xreal -> xreal -> xreal) (a b : list xreal)
  : list xreal :=
  map (fun p => op (fst p) (snd p)) (combine a b).

Definition close_column (prices_df : list Bar) : list R :=
  map (fun b => Q2R (close b)) prices_df.

Definition calculate_rsi (prices_df : list Bar) (period : nat) : list xreal :=
  let delta := diff (close_column prices_df) in
  let gain := map fillna0 (map where_positive delta) in
  let loss := map fillna0 (map (fun x => xopp (where_negative x)) delta) in
  let avg_gain := rolling series_mean period gain in
  let avg_loss := rolling series_mean period loss in
  let rs := zip_with xdiv avg_gain avg_loss in
  map (fun x => xsub (Fin 100) (xdiv (Fin 100) (xadd (Fin 1) x))) rs.

(** The pair [(upper_band, lower_band)]. *)
Definition calculate_bollinger_bands (prices_df : list Bar) (window : nat)
  : list xreal * list xreal :=
  let closes := map Fin (close_column prices_df) in
  let sma := rolling series_mean window closes in
  let std_dev := rolling series_std window closes in
  let upper_band := zip_with xadd sma (map (fun x => xmul x (Fin 2)) std_dev) in
  let lower_band := zip_with xsub sma (map (fun x => xmul x (Fin 2)) std_dev) in
  (upper_band, lower_band).

(** The rise and the fall of each row against the row before, as
    numbers; the first row has neither. *)
Fixpoint moves_from (prev : R) (s : list R) : list (R * R) :=
  match s with
  | [] => []
  | v :: s' =>
      (Rmax (v - prev) 0, Rmax (prev - v) 0) :: moves_from v s'
  end.

Definition moves (s : list R) : list (R * R) :=
  match s with
  | [] => []
  | v :: s' => (0%R, 0%R) :: moves_from v s'
  end.

(** ** Results store: the script under [__main__]

    The two tables have the same columns and the primary key
    [(ticker, date)].  A date is stored as text; the day number stands for
    the text of that day.  A REAL column holds a float or NULL, which is
    how pandas writes NaN, so that [NaN] stands for NULL here. *)

Record Row : Type := mkRow {
  row_ticker : string;
  row_date : Z;
  row_portfolio_value : xreal;
  row_daily_return : xreal
}.

Record Database : Type := mkDatabase {
  performance : list Row;
  backup_performance : list Row
}.

(** The primary key of a row. *)
Definition key (r : Row) : string * Z := (row_ticker r, row_date r).

Definition same_key (a b : Row) : bool :=
  String.eqb (row_ticker a) (row_ticker b)
  && Z.eqb (row_date a) (row_date b).

Definition has_ticker (t : string) (r : Row) : bool :=
  String.eqb (row_ticker r) t.

(** [SELECT * FROM table WHERE ticker = ?]. *)
Definition select_ticker (t : string) (table : list Row) : list Row :=
  filter (has_ticker t) table.

(** [DELETE FROM table WHERE ticker = ?]. *)
Definition delete_ticker (t : string) (table : list Row) : list Row :=
  filter (fun r => negb (has_ticker t r)) table.

(** [INSERT OR REPLACE] of one row: a row with the same key gives way. *)
Definition insert_or_replace (table : list Row) (r : Row) : list Row :=
  (filter (fun x => negb (same_key x r)) table ++ [r])%list.

(** [INSERT] of one row: a row with the same key is an IntegrityError. *)
Definition insert_row (table : list Row) (r : Row) : result (list Row) :=
  if existsb (same_key r) table then Raise (OtherError "IntegrityError")
  else Ok (table ++ [r])%list.

Fixpoint insert_rows (rows : list Row) (table : list Row)
  : result (list Row) :=
  match rows with
  | [] => Ok table
  | r :: rows' =>
      match insert_row table r with
      | Ok table' => insert_rows rows' table'
      | Raise e => Raise e
      end
  end.

(** [backup_and_delete_historical_values(ticker)]; the tables exist once
    [CREATE TABLE IF NOT EXISTS] has run, and the change is committed. *)
Definition backup_and_delete_historical_values (t : string) (db : Database)
  : Database :=
  {| performance := delete_ticker t (performance db);
     backup_performance :=
       fold_left insert_or_replace (select_ticker t (performance db))
                 (backup_performance db) |}.

(** A row of the returned frame once the index is a column again and the
    ticker column is added. *)
Definition row_of (t : string) (r : Z * R * xreal) : Row :=
  let '(date, value, daily_return) := r in
  {| row_ticker := t;
     row_date := date;
     row_portfolio_value := Fin value;
     row_daily_return := daily_return |}.

(** [performance_df.to_sql('performance', conn, if_exists='append',
    index=False)]: one transaction, rolled back when an insert fails. *)
Definition to_sql (t : string) (df : list (Z * R * xreal))
  (table : list Row) : result (list Row) :=
  insert_rows (map (row_of t) df) table.

Section MainScript.

Variable json_loads : pyval -> result pyval.
Variable yf_download : string -> Z -> Z -> result (list Bar).

(** [run_hedge_fund]. *)
Variable agent : string -> Z -> Z -> Portfolio -> result pyval.

(** [args.start_date], [args.end_date] and [args.initial_capital]. *)
Variables args_start_date args_end_date : Z.
Variable args_initial_capital : Q.

(** The body of [for ticker in tickers].  An exception ends the script;
    the store is then as the last commit left it. *)
Definition backtest_ticker (t : string) (db : Database)
  : result unit * Database :=
  let db1 := backup_and_delete_historical_values t db in
  let backtester :=
    new_backtester t args_start_date args_end_date args_initial_capital in
  match run_backtest json_loads yf_download agent backtester with
  | (Raise e, _) => (Raise e, db1)
  | (Ok _, s) =>
      match analyze_performance (bt s) with
      | Raise e => (Raise e, db1)
      | Ok perf =>
          match to_sql t (performance_df perf) (performance db1) with
          | Raise e => (Raise e, db1)
          | Ok table =>
              (Ok tt, {| performance := table;
                         backup_performance := backup_performance db1 |})
          end
      end
  end.

Fixpoint backtest_tickers (tickers : list string) (db : Database)
  : result unit * Database :=
  match tickers with
  | [] => (Ok tt, db)
  | t :: tickers' =>
      match backtest_ticker t db with
      | (Ok _, db') => backtest_tickers tickers' db'
      | (Raise e, db') => (Raise e, db')
      end
  end.

End MainScript.

(** No two rows of a table have the same primary key. *)
Definition keys_unique (table : list Row) : Prop :=
  NoDup (map key table).

(** * Properties *)

(** ** Trade executor *)

Unset Implicit Arguments.
Local Open Scope Q_scope.

Lemma floordiv_bounds (c pr : Q) :
  0 < pr ->
  floordiv c pr * pr <= c /\ c < (floordiv c pr + 1) * pr.
Proof.
  intros Hpr. unfold floordiv.
  assert (Hc : c == c / pr * pr) by (field; lra).
  split.
  - rewrite Hc at 2. apply Qmult_le_compat_r; [apply Qfloor_le | lra].
  - rewrite Hc at 1. apply Qmult_lt_compat_r; [exact Hpr |].
    rewrite <- (inject_Z_plus _ 1). apply Qlt_floor.
Qed.

Lemma py_min_spec (a b : Q) :
  py_min a b <= a /\ py_min a b <= b /\ (py_min a b = a \/ py_min a b = b).
Proof.
  unfold py_min. destruct (Qlt_le_dec b a); repeat split; auto; lra.
Qed.

Lemma py_gt0_number (v : pyval) (q : Q) :
  as_number v = Ok q ->
  py_gt0 v = Ok (if Qlt_le_dec 0 q then true else false).
Proof. intros H. unfold py_gt0. now rewrite H. Qed.

(** With a numeric quantity the call is one of the three branches. *)
Lemma execute_trade_number (action quantity : pyval) (q price : Q)
  (p : Portfolio) :
  as_number quantity = Ok q ->
  execute_trade action quantity price p =
    if Qlt_le_dec 0 q then
      if py_eq_str action "buy" then Ok (execute_buy q price p)
      else if py_eq_str action "sell" then Ok (execute_sell q price p)
      else Ok (0, p)
    else Ok (0, p).
Proof.
  intros H. unfold execute_trade.
  rewrite (py_gt0_number _ _ H), H.
  destruct (py_eq_str action "buy"), (py_eq_str action "sell"),
    (Qlt_le_dec 0 q); reflexivity.
Qed.

Lemma py_eq_str_true (v : pyval) (lit : string) :
  py_eq_str v lit = true <-> v = PyStr lit.
Proof.
  destruct v; simpl; try (split; [discriminate | discriminate]).
  rewrite String.eqb_eq. split; [now intros -> | now intros [= ->]].
Qed.


Lemma execute_buy_ok (q price : Q) (p : Portfolio) :
  0 < q -> 0 < price -> portfolio_ok p ->
  portfolio_ok (snd (execute_buy q price p)).
Proof.
  intros Hq Hpr [Hc Hs]. unfold execute_buy, portfolio_ok.
  destruct (Qle_lt_dec (q * price) (cash p)) as [Hle | Hgt]; simpl.
  - split; lra.
  - destruct (Qlt_le_dec 0 (floordiv (cash p) price)) as [Hm | Hm]; simpl.
    + destruct (floordiv_bounds (cash p) price Hpr) as [Hlo _]. split; lra.
    + now split.
Qed.

Lemma execute_sell_ok (q price : Q) (p : Portfolio) :
  0 < price -> portfolio_ok p ->
  portfolio_ok (snd (execute_sell q price p)).
Proof.
  intros Hpr [Hc Hs]. unfold execute_sell, portfolio_ok.
  destruct (py_min_spec q (stock p)) as (_ & Hms & _).
  destruct (Qlt_le_dec 0 (py_min q (stock p))) as [Hm | Hm]; simpl.
  - split; [| lra].
    assert (0 <= py_min q (stock p) * price) by (apply Qmult_le_0_compat; lra).
    lra.
  - now split.
Qed.

Lemma after_call_ok (p : Portfolio) (c : trade_call) :
  0 < call_price c -> portfolio_ok p -> portfolio_ok (after_call p c).
Proof.
  intros Hpr Hp. unfold after_call.
  destruct (as_number (call_quantity c)) as [q | e] eqn:Hn.
  - rewrite (execute_trade_number _ _ q _ _ Hn).
    destruct (Qlt_le_dec 0 q) as [Hq | Hq]; [| exact Hp].
    destruct (py_eq_str (call_action c) "buy").
    + pose proof (execute_buy_ok q _ p Hq Hpr Hp) as H.
      now destruct (execute_buy q (call_price c) p).
    + destruct (py_eq_str (call_action c) "sell"); [| exact Hp].
      pose proof (execute_sell_ok q _ p Hpr Hp) as H.
      now destruct (execute_sell q (call_price c) p).
  - destruct (execute_trade _ _ _ p) as [[f p'] | e'] eqn:He; [| exact Hp].
    unfold execute_trade, py_gt0 in He. rewrite Hn in He.
    destruct (py_eq_str (call_action c) "buy"); simpl in He;
      [discriminate |].
    destruct (py_eq_str (call_action c) "sell"); simpl in He;
      [discriminate |].
    injection He as _ <-. exact Hp.
Qed.

(** The stock is never negative, whatever the prices are: a fresh
    backtester holds none, and no call takes more than is held. *)
Lemma after_call_stock_nonneg (p : Portfolio) (c : trade_call) :
  0 <= stock p -> 0 <= stock (after_call p c).
Proof.
  intros Hs. unfold after_call.
  destruct (execute_trade _ _ _ p) as [[f p'] | e] eqn:He; [| exact Hs].
  destruct (as_number (call_quantity c)) as [q | e] eqn:Hn.
  - rewrite (execute_trade_number _ _ q _ _ Hn) in He.
    destruct (Qlt_le_dec 0 q) as [Hq | Hq];
      [| injection He as _ <-; exact Hs].
    destruct (py_eq_str (call_action c) "buy").
    + unfold execute_buy in He.
      destruct (Qle_lt_dec _ _); [injection He as _ <-; simpl; lra |].
      destruct (Qlt_le_dec 0 _); injection He as _ <-; simpl; lra.
    + destruct (py_eq_str (call_action c) "sell");
        [| injection He as _ <-; exact Hs].
      unfold execute_sell in He.
      destruct (py_min_spec q (stock p)) as (_ & Hms & _).
      destruct (Qlt_le_dec 0 _); injection He as _ <-; simpl; lra.
  - unfold execute_trade, py_gt0 in He. rewrite Hn in He.
    destruct (py_eq_str (call_action c) "buy"); simpl in He;
      [discriminate |].
    destruct (py_eq_str (call_action c) "sell"); simpl in He;
      [discriminate |].
    injection He as _ <-. exact Hs.
Qed.

Lemma stock_never_negative (cs : list trade_call) :
  forall p : Portfolio,
    0 <= stock p ->
    Forall (fun p' => 0 <= stock p') (portfolios_after p cs).
Proof.
  induction cs as [| c cs IH]; intros p Hp; simpl; constructor.
  - now apply after_call_stock_nonneg.
  - apply IH. now apply after_call_stock_nonneg.
Qed.

Lemma new_backtester_holds_no_stock (t : string) (s e : Z) (capital : Q) :
  stock (portfolio (new_backtester t s e capital)) = 0.
Proof. reflexivity. Qed.

(** C1.  Starting from a portfolio with [cash >= 0] and [stock >= 0], the
    portfolio has [cash >= 0] and [stock >= 0] after every call of a
    sequence of [execute_trade] calls whose prices are positive, whatever
    the actions and quantities are. *)
Theorem execute_trade_preserves_invariant (cs : list trade_call) :
  forall p : Portfolio,
    portfolio_ok p ->
    Forall (fun c => 0 < call_price c) cs ->
    Forall portfolio_ok (portfolios_after p cs).
Proof.
  induction cs as [| c cs IH]; intros p Hp Hcs; simpl.
  - constructor.
  - inversion Hcs as [| c' cs' Hc Hcs']; subst.
    constructor.
    + now apply after_call_ok.
    + apply IH; [now apply after_call_ok | assumption].
Qed.

Lemma execute_trade_preserves_invariant_witness :
  let p := mkPortfolio 100 0 None in
  let cs := [mkCall (PyStr "buy") (PyNum 10) 30;
             mkCall (PyStr "sell") (PyNum 5) 20;
             mkCall (PyStr "sell") (PyStr "all") 20;
             mkCall (PyStr "hold") (PyNum 0) 25] in
  portfolio_ok p /\
  Forall (fun c => 0 < call_price c) cs /\
  Forall portfolio_ok (portfolios_after p cs).
Proof.
  intros p cs.
  assert (Hp : portfolio_ok p) by (split; discriminate).
  assert (Hcs : Forall (fun c => 0 < call_price c) cs)
    by (repeat constructor).
  exact (conj Hp (conj Hcs (execute_trade_preserves_invariant cs p Hp Hcs))).
Defined.

(** C2.  A buy of a positive quantity at a positive price: when the cost
    [quantity * current_price] is at most the cash, the call returns the
    quantity, adds it to the stock and takes the cost from the cash;
    otherwise, with [m = floor(cash / current_price)], it returns [m],
    adds [m] to the stock and takes [m * current_price] from the cash
    (which stays non-negative) when [m] is positive, and returns 0 and
    leaves the portfolio as it is when [m] is zero (or less). *)
Theorem execute_trade_buy (quantity : pyval) (q price : Q) (p : Portfolio) :
  as_number quantity = Ok q -> 0 < q -> 0 < price ->
  let m := floordiv (cash p) price in
  (q * price <= cash p ->
     execute_trade (PyStr "buy") quantity price p =
       Ok (q, set_cash_stock p (cash p - q * price) (stock p + q)))
  /\ (cash p < q * price -> 0 < m ->
       execute_trade (PyStr "buy") quantity price p =
         Ok (m, set_cash_stock p (cash p - m * price) (stock p + m))
       /\ 0 <= cash p - m * price)
  /\ (cash p < q * price -> m <= 0 ->
       execute_trade (PyStr "buy") quantity price p = Ok (0, p))
  /\ (exists z : Z,
        m = inject_Z z /\ m * price <= cash p /\ cash p < (m + 1) * price).
Proof.
  intros Hn Hq Hpr m.
  rewrite (execute_trade_number _ _ q _ _ Hn).
  destruct (Qlt_le_dec 0 q) as [_ | Hq']; [| lra].
  change (py_eq_str (PyStr "buy") "buy") with true. cbv iota.
  destruct (floordiv_bounds (cash p) price Hpr) as [Hlo Hhi].
  fold m in Hlo, Hhi.
  unfold execute_buy. fold m.
  repeat split.
  - intros Hle. destruct (Qle_lt_dec (q * price) (cash p)); [reflexivity | lra].
  - destruct (Qle_lt_dec (q * price) (cash p)); [lra |].
    destruct (Qlt_le_dec 0 m); [reflexivity | lra].
  - lra.
  - intros Hgt Hm. destruct (Qle_lt_dec (q * price) (cash p)); [lra |].
    destruct (Qlt_le_dec 0 m); [lra | reflexivity].
  - exists (Qfloor (cash p / price)). repeat split; assumption.
Qed.

Lemma execute_trade_buy_witness :
  let p := mkPortfolio 100 0 None in
  as_number (PyNum 10) = Ok 10 /\ 0 < 10 /\ 0 < 30 /\
  cash p < 10 * 30 /\ 0 < floordiv (cash p) 30 /\
  execute_trade (PyStr "buy") (PyNum 10) 30 p =
    Ok (floordiv (cash p) 30,
        set_cash_stock p (cash p - floordiv (cash p) 30 * 30)
                         (stock p + floordiv (cash p) 30)).
Proof.
  intros p.
  assert (Hq : 0 < 10) by reflexivity.
  assert (Hpr : 0 < 30) by reflexivity.
  assert (Hgt : cash p < 10 * 30) by reflexivity.
  assert (Hm : 0 < floordiv (cash p) 30) by reflexivity.
  refine (conj eq_refl (conj Hq (conj Hpr (conj Hgt (conj Hm _))))).
  exact (proj1 (proj1 (proj2 (execute_trade_buy (PyNum 10) 10 30 p
                                eq_refl Hq Hpr)) Hgt Hm)).
Defined.


(** C3.  A sell of a positive quantity from a portfolio whose stock is not
    negative returns [min(quantity, stock)]; when that is positive the
    cash grows by the filled quantity times the price and the stock
    shrinks by the filled quantity, otherwise the call returns 0 and
    writes nothing; the result never exceeds the stock held before, and
    the stock afterwards is not negative. *)
Theorem execute_trade_sell (quantity : pyval) (q price : Q) (p : Portfolio) :
  as_number quantity = Ok q -> 0 < q -> 0 <= stock p ->
  exists (filled : Q) (p' : Portfolio),
    execute_trade (PyStr "sell") quantity price p = Ok (filled, p')
    /\ filled == py_min q (stock p)
    /\ (filled <= q /\ filled <= stock p
        /\ (filled == q \/ filled == stock p))
    /\ (0 < filled ->
        p' = set_cash_stock p (cash p + filled * price) (stock p - filled))
    /\ (~ 0 < filled -> filled = 0 /\ p' = p)
    /\ 0 <= stock p'.
Proof.
  intros Hn Hq Hs.
  rewrite (execute_trade_number _ _ q _ _ Hn).
  destruct (Qlt_le_dec 0 q) as [_ | Hq']; [| lra].
  change (py_eq_str (PyStr "sell") "buy") with false.
  change (py_eq_str (PyStr "sell") "sell") with true. cbv iota.
  unfold execute_sell.
  destruct (py_min_spec q (stock p)) as (Hmq & Hms & Hmeq).
  destruct (Qlt_le_dec 0 (py_min q (stock p))) as [Hm | Hm].
  - exists (py_min q (stock p)).
    exists (set_cash_stock p (cash p + py_min q (stock p) * price)
                             (stock p - py_min q (stock p))).
    split; [reflexivity |]. split; [reflexivity |].
    split; [| split; [| split]].
    + split; [assumption | split; [assumption |]].
      destruct Hmeq as [E | E]; rewrite E; [left | right]; reflexivity.
    + intros _. reflexivity.
    + intros Hn'. contradiction.
    + simpl. lra.
  - assert (Hz : py_min q (stock p) == 0).
    { destruct Hmeq as [E | E]; rewrite E in *; lra. }
    exists 0, p. split; [reflexivity |]. split; [now symmetry |].
    split; [| split; [| split]].
    + split; [lra | split; [lra |]].
      right. destruct Hmeq as [E | E]; rewrite E in *; lra.
    + intros Hpos. discriminate Hpos.
    + intros _. now split.
    + exact Hs.
Qed.

Lemma execute_trade_sell_witness :
  let p := mkPortfolio 10 3 None in
  as_number (PyNum 5) = Ok 5 /\ 0 < 5 /\ 0 <= stock p /\
  exists (filled : Q) (p' : Portfolio),
    execute_trade (PyStr "sell") (PyNum 5) 20 p = Ok (filled, p')
    /\ filled == py_min 5 (stock p)
    /\ (filled <= 5 /\ filled <= stock p
        /\ (filled == 5 \/ filled == stock p))
    /\ (0 < filled ->
        p' = set_cash_stock p (cash p + filled * 20) (stock p - filled))
    /\ (~ 0 < filled -> filled = 0 /\ p' = p)
    /\ 0 <= stock p'.
Proof.
  intros p.
  assert (Hq : 0 < 5) by reflexivity.
  assert (Hs : 0 <= stock p) by discriminate.
  exact (conj eq_refl (conj Hq (conj Hs
           (execute_trade_sell (PyNum 5) 5 20 p eq_refl Hq Hs)))).
Defined.

Lemma py_eq_str_false (v : pyval) (lit : string) :
  v <> PyStr lit -> py_eq_str v lit = false.
Proof.
  intros H. destruct (py_eq_str v lit) eqn:E; [| reflexivity].
  apply py_eq_str_true in E. contradiction.
Qed.

(** C9.  A call whose action is [hold], or is none of [buy], [sell] and
    [hold], or whose quantity is a number that is zero or negative,
    returns 0 and leaves every field of the portfolio as it was. *)
Theorem execute_trade_no_op (action quantity : pyval) (price : Q)
  (p : Portfolio) :
  action = PyStr "hold"
  \/ (action <> PyStr "buy" /\ action <> PyStr "sell"
      /\ action <> PyStr "hold")
  \/ (exists q : Q, as_number quantity = Ok q /\ q <= 0) ->
  execute_trade action quantity price p = Ok (0, p).
Proof.
  intros [-> | [(Hb & Hs & _) | (q & Hn & Hq)]].
  - reflexivity.
  - unfold execute_trade.
    now rewrite (py_eq_str_false _ _ Hb), (py_eq_str_false _ _ Hs).
  - rewrite (execute_trade_number _ _ q _ _ Hn).
    destruct (Qlt_le_dec 0 q); [lra | reflexivity].
Qed.

Lemma execute_trade_no_op_witness :
  let p := mkPortfolio 100 7 (Some 240) in
  (exists q : Q, as_number (PyNum (-2)) = Ok q /\ q <= 0) /\
  execute_trade (PyStr "sell") (PyNum (-2)) 20 p = Ok (0, p).
Proof.
  intros p.
  assert (H : exists q : Q, as_number (PyNum (-2)) = Ok q /\ q <= 0)
    by (exists (-2); split; [reflexivity | discriminate]).
  exact (conj H (execute_trade_no_op (PyStr "sell") (PyNum (-2)) 20 p
                   (or_intror (or_intror H)))).
Defined.

Lemma execute_trade_number_bounds (action quantity : pyval) (q price : Q)
  (p : Portfolio) :
  as_number quantity = Ok q -> 0 < price ->
  exists (f : Q) (p' : Portfolio),
    execute_trade action quantity price p = Ok (f, p')
    /\ 0 <= f
    /\ (0 < q -> f <= q)
    /\ (action = PyStr "buy" -> 0 < q -> cash p < q * price -> f < q).
Proof.
  intros Hn Hpr.
  rewrite (execute_trade_number _ _ q _ _ Hn).
  destruct (Qlt_le_dec 0 q) as [Hq | Hq].
  2: { exists 0, p. repeat split; try lra. }
  destruct (floordiv_bounds (cash p) price Hpr) as [Hlo Hhi].
  assert (Hclamp : cash p < q * price -> floordiv (cash p) price < q).
  { intros Hgt. apply Qnot_le_lt. intros Hle.
    assert (q * price <= floordiv (cash p) price * price)
      by (apply Qmult_le_compat_r; lra).
    lra. }
  destruct (py_eq_str action "buy") eqn:Eb.
  - unfold execute_buy.
    destruct (Qle_lt_dec (q * price) (cash p)) as [Hle | Hgt].
    + eexists; eexists; split; [reflexivity |]. repeat split; lra.
    + specialize (Hclamp Hgt).
      destruct (Qlt_le_dec 0 (floordiv (cash p) price)).
      * eexists; eexists; split; [reflexivity |]. repeat split; lra.
      * exists 0, p. repeat split; lra.
  - assert (Hnb : action = PyStr "buy" -> False).
    { intros ->. discriminate Eb. }
    destruct (py_eq_str action "sell").
    + unfold execute_sell.
      destruct (py_min_spec q (stock p)) as (Hmq & _ & _).
      destruct (Qlt_le_dec 0 (py_min q (stock p))).
      * eexists; eexists; split; [reflexivity |].
        repeat split; try lra; try (intros H; now destruct (Hnb H)).
      * exists 0, p. repeat split; try lra; try (intros H; now destruct (Hnb H)).
    + exists 0, p. repeat split; try lra; try (intros H; now destruct (Hnb H)).
Qed.

(** A call that returns although its quantity is not a number has taken
    neither the buy nor the sell branch. *)
Lemma execute_trade_not_a_number (action quantity : pyval) (price : Q)
  (p : Portfolio) (e : exn) (f : Q) (p' : Portfolio) :
  as_number quantity = Raise e ->
  execute_trade action quantity price p = Ok (f, p') ->
  f = 0 /\ p' = p.
Proof.
  intros Hn He. unfold execute_trade, py_gt0 in He. rewrite Hn in He.
  destruct (py_eq_str action "buy"); simpl in He; [discriminate |].
  destruct (py_eq_str action "sell"); simpl in He; [discriminate |].
  injection He as <- <-. now split.
Qed.

(** C10.  At a positive price, whatever a call returns is a filled
    quantity [f] with [0 <= f], and [f <= quantity] when the quantity is
    positive; on a buy whose cost exceeds the cash the fill is strictly
    below the quantity asked for.  A call with a numeric quantity does
    return. *)
Theorem execute_trade_fill_bounds (action quantity : pyval) (price : Q)
  (p : Portfolio) :
  0 < price ->
  (forall (f : Q) (p' : Portfolio),
      execute_trade action quantity price p = Ok (f, p') ->
      0 <= f
      /\ forall q : Q,
           as_number quantity = Ok q -> 0 < q ->
           f <= q
           /\ (action = PyStr "buy" -> cash p < q * price -> f < q))
  /\ (forall q : Q,
        as_number quantity = Ok q ->
        exists (f : Q) (p' : Portfolio),
          execute_trade action quantity price p = Ok (f, p')).
Proof.
  intros Hpr. split.
  - intros f p' He.
    destruct (as_number quantity) as [q0 | e] eqn:Hn.
    + destruct (execute_trade_number_bounds action quantity q0 price p
                  Hn Hpr) as (f0 & p0 & He0 & H0 & Hle & Hlt).
      rewrite He in He0. injection He0 as <- <-.
      split; [exact H0 |]. intros q [= <-] Hq. split; [now apply Hle |].
      intros Hb Hgt. now apply Hlt.
    + destruct (execute_trade_not_a_number _ _ _ _ _ _ _ Hn He) as [-> _].
      split; [lra | discriminate].
  - intros q Hn.
    destruct (execute_trade_number_bounds action quantity q price p
                Hn Hpr) as (f & p' & He & _).
    now exists f, p'.
Qed.

Lemma execute_trade_fill_bounds_witness :
  let p := mkPortfolio 100 0 None in
  0 < 30
  /\ execute_trade (PyStr "buy") (PyNum 10) 30 p
      = Ok (3, mkPortfolio 10 3 None)
  /\ 0 <= 3
  /\ forall q : Q,
       as_number (PyNum 10) = Ok q -> 0 < q ->
       3 <= q /\ (PyStr "buy" = PyStr "buy" -> cash p < q * 30 -> 3 < q).
Proof.
  intros p.
  assert (Hpr : 0 < 30) by reflexivity.
  assert (He : execute_trade (PyStr "buy") (PyNum 10) 30 p
               = Ok (3, mkPortfolio 10 3 None)) by reflexivity.
  exact (conj Hpr (conj He
           (proj1 (execute_trade_fill_bounds (PyStr "buy") (PyNum 10) 30 p
                     Hpr) 3 (mkPortfolio 10 3 None) He))).
Defined.

(** The executor scenarios of the specification. *)
Example buy_5_at_100 :
  execute_trade (PyStr "buy") (PyNum 5) 100 (mkPortfolio 1000 0 None) =
  Ok (5, mkPortfolio 500 5 None).
Proof. reflexivity. Qed.

Example buy_10_at_30_is_clamped :
  execute_trade (PyStr "buy") (PyNum 10) 30 (mkPortfolio 100 0 None) =
  Ok (3, mkPortfolio 10 3 None).
Proof. reflexivity. Qed.

Example sell_5_of_nothing :
  execute_trade (PyStr "sell") (PyNum 5) 30 (mkPortfolio 100 0 None) =
  Ok (0, mkPortfolio 100 0 None).
Proof. reflexivity. Qed.

Example buy_quantity_not_a_number :
  execute_trade (PyStr "buy") (PyStr "ten") 30 (mkPortfolio 100 0 None) =
  Raise TypeError.
Proof. reflexivity. Qed.

(** At a zero price the cost is zero: a buy fills in full unless the cash
    is negative, and then it fills nothing. *)
Lemma execute_buy_zero_price (q : Q) (p : Portfolio) :
  cash p < 0 -> execute_buy q 0 p = (0, p).
Proof.
  intros Hc. unfold execute_buy, floordiv.
  destruct (Qle_lt_dec (q * 0) (cash p)) as [H | _]; [lra |].
  assert (E : Qfloor (cash p / 0) = 0%Z).
  { rewrite (Qfloor_comp (cash p / 0) 0); [reflexivity |].
    unfold Qdiv. change (/ 0) with 0. apply Qmult_0_r. }
  rewrite E. reflexivity.
Qed.


(** ** Decision parser *)

Section ParserProperties.

Variable json_loads : pyval -> result pyval.

Lemma parse_action_try_ok (agent_output action quantity : pyval) :
  parse_action_try json_loads agent_output = Ok (action, quantity) <->
  decision_fields (json_loads agent_output) action quantity.
Proof.
  unfold parse_action_try, decision_fields, getitem.
  destruct (json_loads agent_output) as [decision | e]; simpl.
  - destruct decision as [| b | q | s | l | d]; simpl;
      try (split; [discriminate | intros (d' & [=] & _)]).
    split.
    + intros H. exists d.
      destruct (dict_get d "action") as [a |]; simpl in H;
        [| discriminate].
      destruct (dict_get d "quantity") as [q |]; simpl in H;
        [| discriminate].
      now injection H as -> ->.
    + intros (d' & [= <-] & Ha & Hq). now rewrite Ha, Hq.
  - split; [discriminate | intros (d & [=] & _)].
Qed.

End ParserProperties.

(** C4, as the code has it.  [parse_action] returns a pair on every input:
    the values of the [action] and [quantity] entries, whatever their
    types, when the text decodes to an object that has both, and exactly
    [("hold", 0)] in every other case (a text that does not decode, a
    decoded value that is not an object, a missing entry). *)
Theorem parse_action_binary (json_loads : pyval -> result pyval)
  (agent_output : pyval) :
  (forall action quantity : pyval,
      decision_fields (json_loads agent_output) action quantity ->
      parse_action json_loads agent_output = (action, quantity))
  /\ ((forall action quantity : pyval,
          ~ decision_fields (json_loads agent_output) action quantity) ->
      parse_action json_loads agent_output = (PyStr "hold", PyNum 0)).
Proof.
  split.
  - intros action quantity H.
    apply parse_action_try_ok in H. unfold parse_action. now rewrite H.
  - intros H. unfold parse_action.
    destruct (parse_action_try json_loads agent_output) as [[a q] | e] eqn:E;
      [| reflexivity].
    apply parse_action_try_ok in E. now destruct (H a q).
Qed.

Lemma decode_failure_has_no_fields (e : exn) (action quantity : pyval) :
  ~ decision_fields (Raise e) action quantity.
Proof. intros (d & [=] & _). Qed.

Lemma parse_action_binary_witness :
  let text := PyStr "buy 10 shares" in
  (forall action quantity : pyval,
      ~ decision_fields (json_decode text) action quantity)
  /\ parse_action json_decode text = (PyStr "hold", PyNum 0).
Proof.
  intros text.
  assert (H : forall action quantity : pyval,
             ~ decision_fields (json_decode text) action quantity)
    by (intros a q; exact (decode_failure_has_no_fields JSONDecodeError a q)).
  exact (conj H (proj2 (parse_action_binary json_decode text) H)).
Defined.

(** C4, as stated, fails: the quantity of this decision is a string, not a
    number, and the parser hands it on instead of answering
    [("hold", 0)]. *)
Lemma parse_action_keeps_wrong_type :
  json_decode (PyStr buy_ten_text)
    = Ok buy_ten_decision
  /\ (forall (action : pyval) (q : Q),
        ~ decision_fields (json_decode (PyStr buy_ten_text)) action (PyNum q))
  /\ parse_action json_decode (PyStr buy_ten_text)
       = (PyStr "buy", PyStr "ten")
  /\ parse_action json_decode (PyStr buy_ten_text)
       <> (PyStr "hold", PyNum 0).
Proof.
  assert (E : json_decode (PyStr buy_ten_text)
              = Ok buy_ten_decision)
    by (vm_compute; reflexivity).
  split; [exact E |]. split; [| split].
  - intros action q (d & Hd & _ & Hq). rewrite E in Hd.
    unfold buy_ten_decision in Hd. injection Hd as <-. discriminate Hq.
  - unfold parse_action, parse_action_try. now rewrite E.
  - unfold parse_action, parse_action_try. rewrite E. discriminate.
Qed.

(** Decisions the parser accepts or turns into the default. *)
Example parse_buy_10 :
  parse_action json_decode
    (PyStr (decision_text (quoted "buy") "10"))
  = (PyStr "buy", PyNum 10).
Proof. vm_compute. reflexivity. Qed.

Example parse_missing_action :
  parse_action json_decode (PyStr quantity_only_text)
  = (PyStr "hold", PyNum 0).
Proof. vm_compute. reflexivity. Qed.

Example parse_not_an_object :
  parse_action json_decode (PyStr "[1, 2]") = (PyStr "hold", PyNum 0).
Proof. vm_compute. reflexivity. Qed.

Example parse_not_a_text :
  parse_action json_decode PyNone = (PyStr "hold", PyNum 0).
Proof. vm_compute. reflexivity. Qed.


(** ** Simulation loop *)

Section LoopProperties.

Variable json_loads : pyval -> result pyval.
Variable yf_download : string -> Z -> Z -> result (list Bar).
Variable agent : string -> Z -> Z -> Portfolio -> result pyval.

Local Abbreviation day := (simulate_day json_loads yf_download agent).
Local Abbreviation loop := (for_each json_loads yf_download agent).

Lemma simulate_day_outcome (d : Z) (s : Sim) : day_outcome d s (day d s).
Proof.
  unfold simulate_day, sbind, get_bt, record_call, lift, put_bt.
  cbn [bt calls].
  destruct (agent _ _ _ _) as [agent_output | e]; [| apply day_agent_raises].
  destruct (parse_action json_loads agent_output) as [action quantity].
  cbn [bt calls].
  destruct (get_price_data _ _ _ _) as [df | e];
    [| apply day_raises_before_marking].
  destruct (iloc_last_close df) as [current_price | e];
    [| apply day_raises_before_marking].
  destruct (execute_trade _ _ _ _) as [[executed_quantity p] | e];
    [| apply day_raises_before_marking].
  cbn [bt calls].
  destruct (format_action action) as [[] | e].
  - apply day_completes.
  - apply day_raises_after_marking.
Qed.

Lemma simulate_day_calls (d : Z) (s : Sim) :
  (exists e, fst (day d s) = Raise e
             /\ calls (snd (day d s)) = calls s ++ [CallAgent (d - 30) d])
  \/ calls (snd (day d s))
     = calls s ++ [CallAgent (d - 30) d; CallPrices (d - 30) d].
Proof.
  destruct (simulate_day_outcome d s); cbn [fst snd calls];
    rewrite <- ?app_assoc; eauto.
Qed.

Lemma for_each_calls (dates : list Z) :
  forall s : Sim,
  exists cs : list call,
    calls (snd (loop dates s)) = (calls s ++ cs)%list
    /\ agent_then_prices cs.
Proof.
  induction dates as [| d dates IH]; intros s.
  - exists []. split; [simpl; now rewrite app_nil_r | constructor].
  - cbn [for_each]. unfold sbind.
    destruct (simulate_day_calls d s) as [(e & Hr & Hc) | Hc];
      destruct (day d s) as [[[] | e'] s1]; cbn [fst snd] in *.
    + discriminate Hr.
    + exists [CallAgent (d - 30) d]. split; [exact Hc | constructor].
    + destruct (IH s1) as (cs & Hcs & Hatp).
      exists (CallAgent (d - 30) d :: CallPrices (d - 30) d :: cs).
      split; [| now constructor].
      rewrite Hcs, Hc, <- app_assoc. reflexivity.
    + exists [CallAgent (d - 30) d; CallPrices (d - 30) d].
      split; [exact Hc | repeat constructor].
Qed.

Lemma simulate_day_marks (d : Z) (s s' : Sim) :
  day d s = (Ok tt, s') ->
  exists v : Q,
    portfolio_value (portfolio (bt s')) = Some v
    /\ portfolio_values (bt s') = (portfolio_values (bt s) ++ [(d, v)])%list
    /\ initial_capital (bt s') = initial_capital (bt s).
Proof.
  intros H. destruct (simulate_day_outcome d s); try discriminate H.
  injection H as <-. now exists total_value.
Qed.

Lemma last_value_app (records : list (Z * Q)) (d : Z) (v : Q) :
  last_value (records ++ [(d, v)]) = Some v.
Proof. unfold last_value. now rewrite rev_unit. Qed.

Lemma for_each_marks (dates : list Z) :
  forall s s' : Sim,
    mark_is_last_value (bt s) ->
    loop dates s = (Ok tt, s') ->
    mark_is_last_value (bt s')
    /\ initial_capital (bt s') = initial_capital (bt s).
Proof.
  induction dates as [| d dates IH]; intros s s' Hs H.
  - injection H as <-. now split.
  - cbn [for_each] in H. unfold sbind in H.
    destruct (day d s) as [[[] | e] s1] eqn:Hd; [| discriminate H].
    destruct (simulate_day_marks d s s1 Hd) as (v & Hv & Hvs & Hic).
    destruct (IH s1 s') as [Hm Hic']; [| exact H | split; [exact Hm | now rewrite Hic']].
    intros _. now rewrite Hv, Hvs, last_value_app.
Qed.

End LoopProperties.

Lemma agent_then_prices_order (cs : list call) :
  agent_then_prices cs ->
  forall (pre post : list call) (ls d : Z),
    cs = (pre ++ CallPrices ls d :: post)%list ->
    exists pre' : list call, pre = (pre' ++ [CallAgent ls d])%list.
Proof.
  induction 1 as [| ls0 d0 | ls0 d0 cs Hcs IH]; intros pre post ls d E.
  - now destruct pre.
  - destruct pre as [| x [| y pre]]; discriminate E.
  - destruct pre as [| x [| y pre]].
    + discriminate E.
    + injection E as <- <- <- _. now exists [].
    + injection E as <- <- E.
      destruct (IH pre post ls d E) as (pre' & ->).
      now exists (CallAgent ls0 d0 :: CallPrices ls0 d0 :: pre').
Qed.


(** C5, as the code has it.  On every simulated day the decision source is
    called first and the price bars are requested after it, for the same
    window: the calls of a run are such pairs, day after day.  On a day
    whose window has no bars the decision source has therefore been
    called, and the day ends with the price source's [ValueError] before
    any trade or record. *)
Theorem agent_called_before_prices
  (json_loads : pyval -> result pyval)
  (yf_download : string -> Z -> Z -> result (list Bar))
  (agent : string -> Z -> Z -> Portfolio -> result pyval)
  (b : Backtester) :
  let cs := calls (snd (run_backtest json_loads yf_download agent b)) in
  agent_then_prices cs
  /\ (forall (pre post : list call) (ls d : Z),
        cs = (pre ++ CallPrices ls d :: post)%list ->
        exists pre' : list call, pre = (pre' ++ [CallAgent ls d])%list)
  /\ (forall (d : Z) (s : Sim) (agent_output : pyval),
        agent (ticker (bt s)) (d - 30)%Z d (portfolio (bt s))
          = Ok agent_output ->
        yf_download (ticker (bt s)) (d - 30)%Z d = Ok [] ->
        simulate_day json_loads yf_download agent d s
          = (Raise ValueError,
             {| bt := bt s;
                calls := (calls s ++ [CallAgent (d - 30) d;
                                      CallPrices (d - 30) d])%list |})).
Proof.
  intros cs.
  assert (Hatp : agent_then_prices cs).
  { subst cs. unfold run_backtest.
    destruct (for_each_calls json_loads yf_download agent
                (date_range (start_date b) (end_date b))
                {| bt := b; calls := [] |}) as (cs & -> & Hcs).
    exact Hcs. }
  split; [exact Hatp |]. split; [exact (agent_then_prices_order cs Hatp) |].
  intros d s agent_output Hagent Hbars.
  unfold simulate_day, sbind, get_bt, record_call, lift, put_bt.
  cbn [bt calls]. rewrite Hagent.
  destruct (parse_action json_loads agent_output) as [action quantity].
  cbn [bt calls]. unfold get_price_data, get_prices. rewrite Hbars.
  cbn [bind]. now rewrite <- app_assoc.
Qed.

Lemma agent_called_before_prices_witness :
  let s := {| bt := new_backtester "AAPL" 1 1 1000; calls := [] |} in
  hold_agent (ticker (bt s)) (1 - 30)%Z 1%Z (portfolio (bt s))
    = Ok (PyStr (decision_text (quoted "hold") "0"))
  /\ no_bars (ticker (bt s)) (1 - 30)%Z 1%Z = Ok []
  /\ simulate_day json_decode no_bars hold_agent 1 s
       = (Raise ValueError,
          {| bt := bt s;
             calls := (calls s ++ [CallAgent (1 - 30) 1;
                                   CallPrices (1 - 30) 1])%list |}).
Proof.
  intros s.
  exact (conj eq_refl (conj eq_refl
    (proj2 (proj2 (agent_called_before_prices json_decode no_bars hold_agent
                     (bt s)))
       1%Z s _ eq_refl eq_refl))).
Defined.

(** C5, as stated, fails: on a day whose window has no bars the decision
    source is called, and no request for prices precedes that call. *)
Lemma decision_source_called_on_empty_window :
  let run :=
    run_backtest json_decode no_bars hold_agent
                 (new_backtester "AAPL" 1 1 1000) in
  fst run = Raise ValueError
  /\ calls (snd run) = [CallAgent (-29) 1; CallPrices (-29) 1]
  /\ ~ prices_then_agent (calls (snd run)).
Proof.
  assert (E : calls (snd (run_backtest json_decode no_bars hold_agent
                            (new_backtester "AAPL" 1 1 1000)))
              = [CallAgent (-29) 1; CallPrices (-29) 1])
    by (vm_compute; reflexivity).
  cbv zeta. split; [vm_compute; reflexivity |]. split; [exact E |].
  rewrite E. intros H.
  exact (H [] [CallPrices (-29) 1] (-29)%Z 1%Z eq_refl).
Qed.

(** The one-day scenario of the specification: capital 1000, price 100,
    decision [buy 5]. *)
Example single_day_buy_5 :
  run_backtest json_decode flat_bars buy_5_agent
               (new_backtester "AAPL" 1 1 1000)
  = (Ok tt,
     {| bt := mkBacktester "AAPL" 1 1 1000
                (mkPortfolio 500 5 (Some 1000)) [(1%Z, 1000)];
        calls := [CallAgent (-29) 1; CallPrices (-29) 1] |}).
Proof. vm_compute. reflexivity. Qed.

(** Five business days in a week. *)
Example one_week : date_range 1 7 = [1; 2; 3; 4; 5]%Z.
Proof. reflexivity. Qed.


(** ** Performance analyzer *)

Section AnalyzerProperties.

Local Open Scope R_scope.

Lemma xdiv_fin (a b : R) : b <> 0 -> xdiv (Fin a) (Fin b) = Fin (a / b).
Proof.
  intros Hb. unfold xdiv. now destruct (Req_dec_T b 0).
Qed.

Lemma xsub_fin (a b : R) : xsub (Fin a) (Fin b) = Fin (a - b).
Proof. reflexivity. Qed.

Lemma xdiv_nan_r (x : xreal) : xdiv x NaN = NaN.
Proof. now destruct x. Qed.

Lemma xinf_times_zero (positive : bool) : xinf_times positive 0 = NaN.
Proof.
  unfold xinf_times.
  destruct (total_order_T 0 0) as [[H | _] | H]; [| reflexivity |];
    exfalso; Lra.lra.
Qed.

(** [0 / 0] is NaN. *)
Lemma xdiv_zero_zero : xdiv (Fin 0) (Fin 0) = NaN.
Proof.
  unfold xdiv. destruct (Req_dec_T 0 0) as [_ | H]; [| now destruct H].
  apply xinf_times_zero.
Qed.

Lemma xdiv_by_zero (a : R) : xdiv (Fin a) (Fin 0) = xinf_times true a.
Proof.
  unfold xdiv. now destruct (Req_dec_T 0 0) as [_ | H]; [| destruct H].
Qed.

(** *** Running maximum *)

Lemma fold_left_Rmax_init (l : list R) (m : R) : m <= fold_left Rmax l m.
Proof.
  revert m. induction l as [| x l IH]; intros m; simpl.
  - Lra.lra.
  - eapply Rle_trans; [apply (Rmax_l m x) | apply IH].
Qed.

Lemma fold_left_Rmax_In (l : list R) (m x : R) :
  In x l -> x <= fold_left Rmax l m.
Proof.
  revert m. induction l as [| y l IH]; intros m; simpl; [easy |].
  intros [-> | H].
  - eapply Rle_trans; [apply (Rmax_r m x) | apply fold_left_Rmax_init].
  - now apply IH.
Qed.

Lemma cummax_from_length (s : list R) (m : R) :
  List.length (cummax_from m s) = List.length s.
Proof. revert m. induction s; intros m; simpl; auto. Qed.

Lemma cummax_length (s : list R) : List.length (cummax s) = List.length s.
Proof. destruct s; simpl; auto using cummax_from_length. Qed.

Lemma cummax_from_nth (s : list R) :
  forall (m : R) (j : nat),
    (j < List.length s)%nat ->
    nth j (cummax_from m s) 0 = fold_left Rmax (firstn (S j) s) m.
Proof.
  induction s as [| v s IH]; intros m j Hj; simpl in Hj; [lia |].
  destruct j as [| j]; [now destruct s |].
  cbn [cummax_from nth]. rewrite IH by lia. reflexivity.
Qed.

Lemma cummax_nth (s : list R) (i : nat) :
  (i < List.length s)%nat -> nth i (cummax s) 0 = running_max s i.
Proof.
  destruct s as [| v s]; simpl; [lia |]. intros Hi.
  destruct i as [| i]; [reflexivity |].
  now rewrite cummax_from_nth by lia.
Qed.

Lemma running_max_first (s : list R) (i : nat) :
  hd 0 s <= running_max s i.
Proof. destruct s as [| v s]; simpl; [Lra.lra | apply fold_left_Rmax_init]. Qed.

Lemma nth_In_firstn (s : list R) :
  forall i : nat,
    (i < List.length s)%nat -> In (nth i s 0) (firstn (S i) s).
Proof.
  induction s as [| v s IH]; intros [| i] H; simpl in *; try lia.
  - now left.
  - right. apply IH. lia.
Qed.

Lemma running_max_bound (s : list R) (i : nat) :
  (i < List.length s)%nat -> nth i s 0 <= running_max s i.
Proof.
  destruct s as [| v s]; simpl; [lia |]. intros Hi.
  destruct i as [| i]; [simpl; Lra.lra |].
  apply fold_left_Rmax_In, nth_In_firstn. lia.
Qed.

(** *** Drawdown *)

Lemma div_minus_one_length (a b : list R) :
  List.length a = List.length b ->
  List.length (div_minus_one a b) = List.length a.
Proof.
  revert b. induction a as [| x a IH]; intros [| y b] H; simpl in *;
    try discriminate; auto.
Qed.

Lemma div_minus_one_nth (a b : list R) :
  forall i : nat,
    List.length a = List.length b ->
    (i < List.length a)%nat ->
    nth i (div_minus_one a b) NaN
    = xsub (xdiv (Fin (nth i a 0)) (Fin (nth i b 0))) (Fin 1).
Proof.
  revert b. induction a as [| x a IH]; intros [| y b] i H Hi; simpl in *;
    try discriminate; try lia.
  destruct i as [| i]; [reflexivity |]. apply IH; lia.
Qed.

Lemma drawdown_length (s : list R) :
  List.length (drawdown s) = List.length s.
Proof.
  unfold drawdown. apply div_minus_one_length. now rewrite cummax_length.
Qed.

Lemma drawdown_nth (s : list R) (i : nat) :
  0 < hd 0 s -> (i < List.length s)%nat ->
  nth i (drawdown s) NaN = Fin (drawdown_at s i)
  /\ drawdown_at s i <= 0.
Proof.
  intros Hpos Hi.
  pose proof (running_max_first s i) as Hfirst.
  pose proof (running_max_bound s i Hi) as Hbound.
  split.
  - unfold drawdown.
    rewrite div_minus_one_nth by (now rewrite ?cummax_length).
    rewrite cummax_nth by exact Hi.
    rewrite xdiv_fin by Lra.lra. reflexivity.
  - unfold drawdown_at.
    assert (nth i s 0 / running_max s i <= 1); [| Lra.lra].
    apply Rmult_le_reg_r with (r := running_max s i); [Lra.lra |].
    unfold Rdiv. rewrite Rmult_assoc, Rinv_l by Lra.lra. Lra.lra.
Qed.


Lemma drawdown_as_map (s : list R) :
  0 < hd 0 s ->
  drawdown s = map Fin (map (drawdown_at s) (seq 0 (List.length s))).
Proof.
  intros Hpos.
  apply nth_ext with (d := NaN) (d' := Fin (drawdown_at s 0)).
  - now rewrite drawdown_length, !length_map, length_seq.
  - intros i Hi. rewrite drawdown_length in Hi.
    rewrite (map_nth Fin), (map_nth (drawdown_at s)), seq_nth by exact Hi.
    now apply drawdown_nth.
Qed.

(** *** Minimum of a series without NaN *)

Lemma dropna_map_Fin (l : list R) : dropna (map Fin l) = map Fin l.
Proof.
  unfold dropna. induction l as [| x l IH]; simpl; [| rewrite IH];
    reflexivity.
Qed.

Lemma fold_left_xmin2_Fin (l : list R) (x : R) :
  fold_left xmin2 (map Fin l) (Fin x) = Fin (fold_left Rmin l x).
Proof.
  revert x. induction l as [| y l IH]; intros x; simpl; [| rewrite IH];
    reflexivity.
Qed.

Lemma fold_left_Rmin_le (l : list R) (x y : R) :
  In y (x :: l) -> fold_left Rmin l x <= y.
Proof.
  revert x y. induction l as [| z l IH]; intros x y; simpl.
  - intros [-> | []]. Lra.lra.
  - intros [-> | [-> | H]].
    + eapply Rle_trans; [apply (IH _ (Rmin y z)); now left | apply Rmin_l].
    + eapply Rle_trans; [apply (IH _ (Rmin x y)); now left | apply Rmin_r].
    + apply IH. now right.
Qed.

Lemma fold_left_Rmin_In (l : list R) (x : R) :
  In (fold_left Rmin l x) (x :: l).
Proof.
  revert x. induction l as [| z l IH]; intros x; simpl; [now left |].
  destruct (IH (Rmin x z)) as [E | H].
  - rewrite <- E. unfold Rmin. destruct (Rle_dec x z); auto.
  - now right; right.
Qed.

Lemma series_min_Fin (x : R) (l : list R) :
  series_min (map Fin (x :: l)) = Fin (fold_left Rmin l x).
Proof.
  unfold series_min. rewrite dropna_map_Fin. simpl.
  apply fold_left_xmin2_Fin.
Qed.

Lemma drawdown_claim_holds (s : list R) :
  0 < hd 0 s -> drawdown_claim s.
Proof.
  intros Hpos. split.
  - intros i Hi. destruct (drawdown_nth s i Hpos Hi) as [E Hle].
    split; [exact E |]. rewrite E. exact Hle.
  - unfold max_drawdown_of_values. rewrite (drawdown_as_map s Hpos).
    set (ds := map (drawdown_at s) (seq 0 (List.length s))).
    assert (Hnth : forall i, (i < List.length s)%nat ->
                             nth i ds 0 = drawdown_at s i).
    { intros i Hi. unfold ds.
      rewrite (nth_indep _ 0 (drawdown_at s 0))
        by (now rewrite length_map, length_seq).
      now rewrite (map_nth (drawdown_at s)), seq_nth. }
    assert (Hlen : List.length ds = List.length s)
      by (unfold ds; now rewrite length_map, length_seq).
    destruct ds as [| d0 ds'] eqn:Eds.
    { destruct s; [simpl in Hpos; Lra.lra | discriminate Hlen]. }
    rewrite series_min_Fin. eexists; split; [reflexivity |]. split.
    + intros i Hi. rewrite <- (Hnth i Hi).
      apply fold_left_Rmin_le, nth_In. now rewrite Hlen.
    + destruct (In_nth _ _ 0 (fold_left_Rmin_In ds' d0)) as (i & Hi & E).
      exists i. rewrite Hlen in Hi. split; [exact Hi |].
      now rewrite <- (Hnth i Hi).
Qed.

End AnalyzerProperties.


Section DrawdownExample.

Local Open Scope R_scope.

Lemma drawdown_example :
  drawdown [100; 110; 99; 121] = [Fin 0; Fin 0; Fin (- (1 / 10)); Fin 0].
Proof.
  rewrite drawdown_as_map by (simpl; Lra.lra).
  cbn [List.length seq map]. unfold drawdown_at, running_max.
  cbn [nth firstn fold_left].
  rewrite (Rmax_right 100 110) by Lra.lra.
  rewrite (Rmax_left 110 99) by Lra.lra.
  rewrite (Rmax_right 110 121) by Lra.lra.
  repeat (f_equal; try Lra.lra).
Qed.

Lemma max_drawdown_example :
  max_drawdown_of_values [100; 110; 99; 121] = Fin (- (1 / 10)).
Proof.
  unfold max_drawdown_of_values. rewrite drawdown_example.
  change [Fin 0; Fin 0; Fin (- (1 / 10)); Fin 0]
    with (map Fin [0; 0; - (1 / 10); 0]).
  rewrite series_min_Fin. cbn [fold_left]. f_equal.
  rewrite (Rmin_left 0 0) by Lra.lra.
  rewrite (Rmin_right 0 (- (1 / 10))) by Lra.lra.
  rewrite Rmin_left by Lra.lra. reflexivity.
Qed.

Lemma drawdown_of_zero : drawdown [0] = [NaN].
Proof.
  unfold drawdown. cbn [cummax div_minus_one].
  now rewrite xdiv_zero_zero.
Qed.

Lemma drawdown_of_negative_values : drawdown [-1; -2] = [Fin 0; Fin 1].
Proof.
  unfold drawdown. cbn [cummax cummax_from div_minus_one].
  rewrite (Rmax_left (-1) (-2)) by Lra.lra.
  rewrite !xdiv_fin by Lra.lra. rewrite !xsub_fin.
  repeat (f_equal; try Lra.lra).
Qed.

End DrawdownExample.

(** C8, as the code has it.  For every value series whose first value is
    positive (so that every running maximum is), the drawdown at [i] is
    [V_i / max(V_0 .. V_i) - 1], it is at most zero, and the maximum
    drawdown is the least of these numbers; the series
    [100, 110, 99, 121] has drawdowns [0, 0, -0.1, 0] and maximum
    drawdown [-0.1]. *)
Theorem drawdown_correct :
  (forall values : list R, (0 < hd 0 values)%R -> drawdown_claim values)
  /\ drawdown [100; 110; 99; 121]%R
     = [Fin 0; Fin 0; Fin (- (1 / 10)); Fin 0]%R
  /\ max_drawdown_of_values [100; 110; 99; 121]%R = Fin (- (1 / 10))%R.
Proof.
  split; [exact drawdown_claim_holds |].
  split; [exact drawdown_example | exact max_drawdown_example].
Qed.

Lemma drawdown_correct_witness :
  (0 < hd 0 [100; 110; 99; 121])%R
  /\ drawdown_claim [100; 110; 99; 121]%R.
Proof.
  assert (H : (0 < hd 0 [100; 110; 99; 121])%R) by (simpl; Lra.lra).
  exact (conj H (proj1 drawdown_correct _ H)).
Defined.

(** C8, as stated for every non-empty series, fails: a series that starts
    at zero has an undefined drawdown, and one of negative values has a
    positive drawdown. *)
Lemma drawdown_claim_fails :
  drawdown [0%R] = [NaN]
  /\ ~ drawdown_claim [0%R]
  /\ drawdown [-1; -2]%R = [Fin 0; Fin 1]
  /\ ~ drawdown_claim [-1; -2]%R.
Proof.
  split; [exact drawdown_of_zero |]. split; [| split].
  - intros [H _]. destruct (H 0%nat) as [E _]; [simpl; lia |].
    rewrite drawdown_of_zero in E. discriminate E.
  - exact drawdown_of_negative_values.
  - intros [H _]. destruct (H 1%nat) as [_ Hle]; [simpl; lia |].
    rewrite drawdown_of_negative_values in Hle. simpl in Hle. Lra.lra.
Qed.


Section SharpeProperties.

Local Open Scope R_scope.

Lemma xsum_map_Fin (l : list R) : xsum (map Fin l) = Fin (Rsum l).
Proof.
  unfold xsum, Rsum. induction l as [| x l IH]; simpl; [| rewrite IH];
    reflexivity.
Qed.

Lemma dropna_first_nan (l : list R) :
  dropna (NaN :: map Fin l) = map Fin l.
Proof. exact (dropna_map_Fin l). Qed.

Lemma INR_length_pos (A : Type) (l : list A) :
  l <> [] -> 0 < INR (List.length l).
Proof.
  intros H. destruct l as [| x l]; [now destruct H |].
  apply lt_0_INR. simpl. lia.
Qed.

(** The returns the frame holds are the ones of the specification when
    no value is zero. *)
Lemma pct_change_from_returns (s : list R) :
  forall prev : R,
    prev <> 0 -> Forall (fun v => v <> 0) s ->
    pct_change_from prev s = map Fin (returns_from prev s).
Proof.
  induction s as [| v s IH]; intros prev Hprev Hs;
    cbn [pct_change_from returns_from map]; [reflexivity |].
  inversion Hs as [| v' s' Hv Hs']; subst.
  rewrite xdiv_fin, xsub_fin, IH by assumption. reflexivity.
Qed.

Lemma pct_change_returns (values : list R) :
  Forall (fun v => v <> 0) values ->
  values <> [] ->
  pct_change values = NaN :: map Fin (returns values).
Proof.
  intros H Hne. destruct values as [| v s]; [now destruct Hne |].
  inversion H; subst. cbn [pct_change returns].
  now rewrite pct_change_from_returns.
Qed.

Lemma returns_from_length (s : list R) (prev : R) :
  List.length (returns_from prev s) = List.length s.
Proof. revert prev. induction s; intros prev; simpl; auto. Qed.

Lemma returns_length (values : list R) :
  List.length (returns values) = pred (List.length values).
Proof. destruct values; simpl; auto using returns_from_length. Qed.

Lemma series_mean_Fin (l : list R) :
  l <> [] -> series_mean (NaN :: map Fin l) = Fin (mean l).
Proof.
  intros Hne. unfold series_mean. rewrite dropna_first_nan.
  pose proof (INR_length_pos _ l Hne) as Hpos.
  destruct l as [| x l]; [now destruct Hne |].
  change (map Fin (x :: l)) with (Fin x :: map Fin l) at 1.
  cbv iota. change (Fin x :: map Fin l) with (map Fin (x :: l)).
  unfold count. rewrite xsum_map_Fin, length_map, xdiv_fin by Lra.lra.
  reflexivity.
Qed.

Lemma series_var_Fin (l : list R) :
  (2 <= List.length l)%nat ->
  series_var (NaN :: map Fin l) = Fin (sample_var l).
Proof.
  intros Hlen. unfold series_var. rewrite dropna_first_nan, length_map.
  destruct (Nat.leb_spec (List.length l) 1) as [H | _]; [lia |].
  assert (Hn : 2 <= INR (List.length l)) by (now apply (le_INR 2)).
  unfold count. rewrite xsum_map_Fin, length_map, xdiv_fin by Lra.lra.
  rewrite map_map.
  rewrite (map_ext _ (fun x => Fin ((mean l - x) * (mean l - x))))
    by reflexivity.
  rewrite <- (map_map (fun x => (mean l - x) * (mean l - x)) Fin).
  rewrite xsum_map_Fin, xdiv_fin by Lra.lra. reflexivity.
Qed.

Lemma Rsum_squares_nonneg (l : list R) (c : R) :
  0 <= Rsum (map (fun x => (c - x) * (c - x)) l).
Proof.
  induction l as [| x l IH]; simpl; [Lra.lra |].
  pose proof (Rle_0_sqr (c - x)) as H. unfold Rsqr in H. Lra.lra.
Qed.

Lemma sample_var_nonneg (l : list R) :
  (2 <= List.length l)%nat -> 0 <= sample_var l.
Proof.
  intros Hlen. unfold sample_var.
  assert (Hn : 2 <= INR (List.length l)) by (now apply (le_INR 2)).
  apply Rmult_le_pos; [apply Rsum_squares_nonneg |].
  left. apply Rinv_0_lt_compat. Lra.lra.
Qed.

Lemma series_std_Fin (l : list R) :
  (2 <= List.length l)%nat ->
  series_std (NaN :: map Fin l) = Fin (sample_std l).
Proof.
  intros Hlen. unfold series_std. rewrite series_var_Fin by exact Hlen.
  pose proof (sample_var_nonneg l Hlen) as H. unfold xsqrt.
  destruct (Rlt_dec (sample_var l) 0); [Lra.lra | reflexivity].
Qed.

Lemma sqrt_252_pos : 0 < sqrt 252.
Proof. apply sqrt_lt_R0. Lra.lra. Qed.

Lemma xinf_times_pos (positive : bool) (r : R) :
  0 < r -> xinf_times positive r = xinf positive.
Proof.
  intros H. unfold xinf_times.
  destruct (total_order_T 0 r) as [[_ | E] | H']; [reflexivity | |];
    exfalso; Lra.lra.
Qed.

Lemma xinf_times_neg (positive : bool) (r : R) :
  r < 0 -> xinf_times positive r = xinf (negb positive).
Proof.
  intros H. unfold xinf_times.
  destruct (total_order_T 0 r) as [[H' | E] | _]; [| | reflexivity];
    exfalso; Lra.lra.
Qed.

(** The Sharpe ratio of at least two finite returns. *)
Lemma sharpe_of_returns (l : list R) :
  (2 <= List.length l)%nat ->
  (sample_std l <> 0 ->
     sharpe_of (NaN :: map Fin l)
     = Fin (mean l / sample_std l * sqrt 252))
  /\ (sample_std l = 0 -> mean l = 0 ->
        sharpe_of (NaN :: map Fin l) = NaN)
  /\ (sample_std l = 0 -> 0 < mean l ->
        sharpe_of (NaN :: map Fin l) = PInf)
  /\ (sample_std l = 0 -> mean l < 0 ->
        sharpe_of (NaN :: map Fin l) = NInf).
Proof.
  intros Hlen. unfold sharpe_of.
  assert (Hne : l <> []) by (intros ->; simpl in Hlen; lia).
  rewrite series_mean_Fin, series_std_Fin by assumption.
  pose proof sqrt_252_pos as Hs.
  repeat split.
  - intros Hstd. now rewrite xdiv_fin by exact Hstd.
  - intros -> ->. now rewrite xdiv_zero_zero.
  - intros -> Hm. rewrite xdiv_by_zero, xinf_times_pos by exact Hm.
    simpl. now rewrite xinf_times_pos by exact Hs.
  - intros -> Hm. rewrite xdiv_by_zero, xinf_times_neg by exact Hm.
    simpl. now rewrite xinf_times_pos by exact Hs.
Qed.

(** Fewer than two returns have no sample standard deviation. *)
Lemma sharpe_of_short_series (values : list R) :
  (List.length values <= 2)%nat -> sharpe_ratio_of_values values = NaN.
Proof.
  intros Hlen. unfold sharpe_ratio_of_values, sharpe_of.
  destruct values as [| v1 [| v2 [| v3 s]]]; simpl in Hlen; try lia.
  - reflexivity.
  - reflexivity.
  - assert (Hstd : series_std (pct_change [v1; v2]) = NaN).
    { cbn [pct_change pct_change_from].
      generalize (xsub (xdiv (Fin v2) (Fin v1)) (Fin 1)).
      intros [r | | |]; reflexivity. }
    now rewrite Hstd, xdiv_nan_r.
Qed.


(** *** Constant returns *)

Lemma Rsum_repeat (c : R) (k : nat) : Rsum (repeat c k) = INR k * c.
Proof.
  induction k as [| k IH]; [simpl; Lra.lra |].
  rewrite S_INR. cbn [repeat Rsum fold_right]. fold (Rsum (repeat c k)).
  rewrite IH. Lra.lra.
Qed.

Lemma mean_repeat (c : R) (k : nat) :
  (1 <= k)%nat -> mean (repeat c k) = c.
Proof.
  intros Hk. unfold mean. rewrite Rsum_repeat, repeat_length.
  assert (1 <= INR k) by (now apply (le_INR 1)).
  field. Lra.lra.
Qed.

Lemma sample_std_repeat (c : R) (k : nat) :
  (2 <= k)%nat -> sample_std (repeat c k) = 0.
Proof.
  intros Hk. unfold sample_std, sample_var.
  rewrite mean_repeat, map_repeat, Rsum_repeat, repeat_length by lia.
  replace (INR k * ((c - c) * (c - c)) / (INR k - 1)) with 0.
  - apply sqrt_0.
  - unfold Rdiv. rewrite Rminus_diag. now rewrite !Rmult_0_r, Rmult_0_l.
Qed.

Lemma returns_from_repeat (v : R) (k : nat) :
  v <> 0 -> returns_from v (repeat v k) = repeat 0 k.
Proof.
  intros Hv. induction k as [| k IH]; [reflexivity |].
  cbn [repeat returns_from]. rewrite IH. f_equal. now field.
Qed.

Lemma pct_change_from_zeros (k : nat) :
  pct_change_from 0 (repeat 0 k) = repeat NaN k.
Proof.
  induction k as [| k IH]; [reflexivity |].
  cbn [repeat pct_change_from]. rewrite IH. f_equal.
  now rewrite xdiv_zero_zero.
Qed.

Lemma dropna_repeat_nan (k : nat) : dropna (repeat NaN k) = [].
Proof. induction k as [| k IH]; [reflexivity | exact IH]. Qed.

(** A constant value series has an undefined Sharpe ratio. *)
Lemma sharpe_of_constant_values (v : R) (n : nat) :
  sharpe_ratio_of_values (repeat v n) = NaN.
Proof.
  destruct (le_lt_dec n 2) as [Hn | Hn].
  { apply sharpe_of_short_series. now rewrite repeat_length. }
  destruct n as [| k]; [lia |].
  unfold sharpe_ratio_of_values.
  destruct (Req_dec_T v 0) as [-> | Hv].
  - cbn [repeat pct_change]. rewrite pct_change_from_zeros.
    unfold sharpe_of, series_mean.
    change (NaN :: repeat NaN k) with (repeat NaN (S k)).
    now rewrite dropna_repeat_nan.
  - rewrite pct_change_returns.
    + cbn [repeat returns]. rewrite returns_from_repeat by exact Hv.
      apply (sharpe_of_returns (repeat 0 k)).
      * rewrite repeat_length. lia.
      * apply sample_std_repeat. lia.
      * apply mean_repeat. lia.
    + apply Forall_forall. intros x Hx.
      apply repeat_spec in Hx. now subst.
    + discriminate.
Qed.

(** The series [100, 200, 400] doubles every day: its two returns are
    equal, so their sample standard deviation is zero. *)
Lemma doubling_returns : returns [100; 200; 400] = repeat 1 2.
Proof. cbn [returns returns_from repeat]. repeat (f_equal; try Lra.lra). Qed.

Lemma doubling_pct_change :
  pct_change [100; 200; 400] = NaN :: map Fin (repeat 1 2).
Proof.
  rewrite pct_change_returns, doubling_returns.
  - reflexivity.
  - repeat constructor; Lra.lra.
  - discriminate.
Qed.

End SharpeProperties.

(** C6, as the code has it.  The Sharpe ratio is NaN, a value of its own
    that is neither a number nor an infinity, for every series of fewer
    than three values (fewer than two daily returns) and for every
    constant value series.  For a series of three or more non-zero
    values it is [mean(r) / stddev(r) * sqrt(252)], with the sample
    standard deviation, when that deviation is not zero; when the
    deviation is zero it is NaN if the mean return is zero, plus infinity
    if the mean is positive and minus infinity if it is negative. *)
Theorem sharpe_ratio_cases :
  (forall values : list R,
      (List.length values <= 2)%nat -> sharpe_ratio_of_values values = NaN)
  /\ (forall (v : R) (n : nat), sharpe_ratio_of_values (repeat v n) = NaN)
  /\ (forall values : list R,
        Forall (fun v => v <> 0%R) values ->
        (3 <= List.length values)%nat ->
        let r := returns values in
        (sample_std r <> 0%R ->
           sharpe_ratio_of_values values
           = Fin (mean r / sample_std r * sqrt 252)%R)
        /\ (sample_std r = 0%R -> mean r = 0%R ->
              sharpe_ratio_of_values values = NaN)
        /\ (sample_std r = 0%R -> (0 < mean r)%R ->
              sharpe_ratio_of_values values = PInf)
        /\ (sample_std r = 0%R -> (mean r < 0)%R ->
              sharpe_ratio_of_values values = NInf)).
Proof.
  split; [exact sharpe_of_short_series |].
  split; [exact sharpe_of_constant_values |].
  intros values Hnz Hlen r. unfold sharpe_ratio_of_values.
  rewrite pct_change_returns;
    [| exact Hnz | intros ->; simpl in Hlen; lia].
  apply sharpe_of_returns. rewrite returns_length. lia.
Qed.

Lemma sharpe_ratio_cases_witness :
  Forall (fun v => v <> 0%R) [100; 200; 400]%R
  /\ (3 <= List.length [100; 200; 400]%R)%nat
  /\ sample_std (returns [100; 200; 400]%R) = 0%R
  /\ (0 < mean (returns [100; 200; 400]%R))%R
  /\ sharpe_ratio_of_values [100; 200; 400]%R = PInf.
Proof.
  assert (Hnz : Forall (fun v => v <> 0%R) [100; 200; 400]%R)
    by (repeat constructor; Lra.lra).
  assert (Hlen : (3 <= List.length [100; 200; 400]%R)%nat) by (simpl; lia).
  assert (Hstd : sample_std (returns [100; 200; 400]%R) = 0%R)
    by (rewrite doubling_returns; apply sample_std_repeat; lia).
  assert (Hmean : (0 < mean (returns [100; 200; 400]%R))%R)
    by (rewrite doubling_returns, mean_repeat by lia; Lra.lra).
  exact (conj Hnz (conj Hlen (conj Hstd (conj Hmean
    (proj1 (proj2 (proj2 (proj2 (proj2 sharpe_ratio_cases) _ Hnz Hlen)))
       Hstd Hmean))))).
Defined.

(** C6, as stated, fails: the returns of [100, 200, 400] have a sample
    standard deviation of zero, and the Sharpe ratio is infinite. *)
Lemma sharpe_ratio_infinite :
  series_std (pct_change [100; 200; 400]%R) = Fin 0
  /\ sharpe_ratio_of_values [100; 200; 400]%R = PInf
  /\ sharpe_ratio_of_values [100; 200; 400]%R <> NaN.
Proof.
  assert (E : sharpe_ratio_of_values [100; 200; 400]%R = PInf).
  { unfold sharpe_ratio_of_values. rewrite doubling_pct_change.
    apply (sharpe_of_returns (repeat 1%R 2)).
    - simpl; lia.
    - apply sample_std_repeat; lia.
    - rewrite mean_repeat by lia. Lra.lra. }
  split; [| split; [exact E | rewrite E; discriminate]].
  rewrite doubling_pct_change, series_std_Fin by (simpl; lia).
  f_equal. apply sample_std_repeat. lia.
Qed.


(** ** The analyzer and the state it reads *)

Lemma analyze_performance_of_sequence (b : Backtester) :
  mark_is_last_value b ->
  analyze_performance b
  = analyze_sequence (initial_capital b) (portfolio_values b).
Proof.
  intros Hmark. unfold analyze_performance, analyze_sequence.
  destruct (portfolio_values b) as [| r records] eqn:E; [reflexivity |].
  assert (Hne : portfolio_values b <> []) by (rewrite E; discriminate).
  rewrite (Hmark Hne), E.
  destruct (last_value (r :: records)); reflexivity.
Qed.

Lemma analyze_performance_same_inputs (b b' : Backtester) :
  initial_capital b' = initial_capital b ->
  portfolio_values b' = portfolio_values b ->
  portfolio_value (portfolio b') = portfolio_value (portfolio b) ->
  analyze_performance b' = analyze_performance b.
Proof.
  intros Hc Hv Hm. unfold analyze_performance. now rewrite Hc, Hv, Hm.
Qed.

Lemma analyze_performance_statistics (b : Backtester) (perf : Performance) :
  analyze_performance b = Ok perf ->
  sharpe_ratio perf
    = sharpe_ratio_of_values (value_column (portfolio_values b))
  /\ max_drawdown perf
     = max_drawdown_of_values (value_column (portfolio_values b)).
Proof.
  unfold analyze_performance.
  destruct (portfolio_values b) as [| r records]; [discriminate |].
  destruct (portfolio_value (portfolio b)); [| discriminate].
  cbv zeta. intros [= <-]. now split.
Qed.

(** C7, as the code has it.  The analyzer is a function of the record
    sequence, the initial capital and the mark [portfolio_value] stored in
    the portfolio, from which it computes the total return: two
    backtesters that agree on these three get the same result.  The Sharpe
    ratio and the maximum drawdown depend on the record sequence alone.
    After a run of the simulation loop that completes, the mark is the
    value of the last record, and the result is then determined by the
    record sequence and the initial capital. *)
Theorem analyze_performance_inputs :
  (forall b b' : Backtester,
      initial_capital b' = initial_capital b ->
      portfolio_values b' = portfolio_values b ->
      portfolio_value (portfolio b') = portfolio_value (portfolio b) ->
      analyze_performance b' = analyze_performance b)
  /\ (forall (b b' : Backtester) (perf perf' : Performance),
        portfolio_values b' = portfolio_values b ->
        analyze_performance b = Ok perf ->
        analyze_performance b' = Ok perf' ->
        sharpe_ratio perf' = sharpe_ratio perf
        /\ max_drawdown perf' = max_drawdown perf)
  /\ (forall (json_loads : pyval -> result pyval)
             (yf_download : string -> Z -> Z -> result (list Bar))
             (agent : string -> Z -> Z -> Portfolio -> result pyval)
             (b : Backtester) (s' : Sim),
        mark_is_last_value b ->
        run_backtest json_loads yf_download agent b = (Ok tt, s') ->
        analyze_performance (bt s')
        = analyze_sequence (initial_capital b) (portfolio_values (bt s'))).
Proof.
  split; [exact analyze_performance_same_inputs |]. split.
  - intros b b' perf perf' Hv H H'.
    destruct (analyze_performance_statistics b perf H) as [-> ->].
    destruct (analyze_performance_statistics b' perf' H') as [-> ->].
    now rewrite Hv.
  - intros json_loads yf_download agent b s' Hmark Hrun.
    unfold run_backtest in Hrun.
    destruct (for_each_marks json_loads yf_download agent _
                {| bt := b; calls := [] |} s' Hmark Hrun) as [Hmark' Hcap].
    cbn [bt] in Hcap. rewrite <- Hcap.
    now apply analyze_performance_of_sequence.
Qed.

Lemma analyze_performance_inputs_witness :
  let b := new_backtester "AAPL" 1 2 1000 in
  let run := run_backtest json_decode rising_bars hold_agent b in
  mark_is_last_value b
  /\ fst run = Ok tt
  /\ analyze_performance (bt (snd run))
     = analyze_sequence (initial_capital b) (portfolio_values (bt (snd run))).
Proof.
  intros b run.
  assert (Hmark : mark_is_last_value b) by (intros H; now destruct H).
  assert (Hrun : run = (Ok tt, snd run)) by (vm_compute; reflexivity).
  refine (conj Hmark (conj _ _)).
  - now rewrite Hrun.
  - exact (proj2 (proj2 analyze_performance_inputs)
             json_decode rising_bars hold_agent b (snd run) Hmark Hrun).
Defined.

(** C7, as stated, fails: two backtesters with the same record sequence
    and the same initial capital, whose portfolios carry different marks,
    get different total returns. *)
Lemma total_return_reads_the_portfolio :
  let records := [(1%Z, 100)] in
  let b1 := mkBacktester "AAPL" 1 1 100 (mkPortfolio 100 0 (Some 100))
                         records in
  let b2 := mkBacktester "AAPL" 1 1 100 (mkPortfolio 100 0 (Some 150))
                         records in
  portfolio_values b1 = portfolio_values b2
  /\ initial_capital b1 = initial_capital b2
  /\ exists perf1 perf2 : Performance,
       analyze_performance b1 = Ok perf1
       /\ analyze_performance b2 = Ok perf2
       /\ total_return perf1 = Fin 0
       /\ total_return perf2 = Fin (1 / 2)
       /\ total_return perf1 <> total_return perf2.
Proof.
  cbv zeta. split; [reflexivity |]. split; [reflexivity |].
  assert (H100 : Q2R 100 = 100%R) by (unfold Q2R; simpl; Lra.lra).
  assert (H0 : Q2R (100 - 100) = 0%R) by (unfold Q2R; simpl; Lra.lra).
  assert (H50 : Q2R (150 - 100) = 50%R) by (unfold Q2R; simpl; Lra.lra).
  eexists; eexists.
  split; [reflexivity |]. split; [reflexivity |].
  cbn [total_return initial_capital].
  rewrite H100, H0, H50, !xdiv_fin by Lra.lra.
  assert (E1 : (0 / 100 = 0)%R) by Lra.lra.
  assert (E2 : (50 / 100 = 1 / 2)%R) by Lra.lra.
  rewrite E1, E2.
  split; [reflexivity |]. split; [reflexivity |].
  intros [= H]. Lra.lra.
Qed.

(** Such a state arises when the progress line of a day cannot be
    formatted: the portfolio has been marked at 1100, the record of the
    day is not appended, and the caller is left with records that end at
    1000. *)
Example interrupted_run_leaves_a_newer_mark :
  let run := run_backtest json_decode rising_bars buy_then_null_agent
                          (new_backtester "AAPL" 1 2 1000) in
  fst run = Raise TypeError
  /\ portfolio_values (bt (snd run)) = [(1%Z, 1000)]
  /\ portfolio (bt (snd run)) = mkPortfolio 900 1 (Some 1100).
Proof. vm_compute. repeat split. Qed.

(** A run that starts without capital records the value 0, and the
    drawdown of its records is undefined. *)
Example zero_capital_run_has_undefined_drawdown :
  let run := run_backtest json_decode rising_bars hold_agent
                          (new_backtester "AAPL" 1 1 0) in
  fst run = Ok tt
  /\ (exists perf : Performance,
        analyze_performance (bt (snd run)) = Ok perf
        /\ max_drawdown perf = NaN).
Proof.
  cbv zeta.
  assert (E : run_backtest json_decode rising_bars hold_agent
                (new_backtester "AAPL" 1 1 0)
              = (Ok tt,
                 {| bt := mkBacktester "AAPL" 1 1 0
                            (mkPortfolio 0 0 (Some 0)) [(1%Z, 0)];
                    calls := [CallAgent (-29) 1; CallPrices (-29) 1] |}))
    by (vm_compute; reflexivity).
  rewrite E. split; [reflexivity |].
  eexists. split; [reflexivity |].
  cbn [max_drawdown portfolio_values value_column map snd].
  replace (Q2R 0) with 0%R by (unfold Q2R; simpl; Lra.lra).
  unfold max_drawdown_of_values. now rewrite drawdown_of_zero.
Qed.


(** * Further properties *)

(** ** Trade executor: what a fill moves *)

Lemma execute_buy_accounts (q price : Q) (p : Portfolio) :
  let (f, p') := execute_buy q price p in
  stock p' == stock p + f /\ cash p' == cash p - f * price
  /\ portfolio_value p' = portfolio_value p.
Proof.
  unfold execute_buy.
  destruct (Qle_lt_dec (q * price) (cash p)); simpl.
  - repeat split; reflexivity.
  - destruct (Qlt_le_dec 0 (floordiv (cash p) price)); simpl;
      repeat split; try reflexivity; lra.
Qed.

Lemma execute_sell_accounts (q price : Q) (p : Portfolio) :
  let (f, p') := execute_sell q price p in
  stock p' == stock p - f /\ cash p' == cash p + f * price
  /\ portfolio_value p' = portfolio_value p.
Proof.
  unfold execute_sell.
  destruct (Qlt_le_dec 0 (py_min q (stock p))); simpl;
    repeat split; try reflexivity; lra.
Qed.

(** Every call that returns is the buy branch, the sell branch or the
    branch that does nothing. *)
Lemma execute_trade_returns (action quantity : pyval) (price : Q)
  (p : Portfolio) (f : Q) (p' : Portfolio) :
  execute_trade action quantity price p = Ok (f, p') ->
  (exists q : Q, action = PyStr "buy" /\ as_number quantity = Ok q
                 /\ 0 < q /\ execute_buy q price p = (f, p'))
  \/ (exists q : Q, action = PyStr "sell" /\ as_number quantity = Ok q
                    /\ 0 < q /\ execute_sell q price p = (f, p'))
  \/ (f = 0 /\ p' = p
      /\ (action = PyStr "buy" \/ action = PyStr "sell" ->
          exists q : Q, as_number quantity = Ok q /\ q <= 0)).
Proof.
  intros He.
  destruct (as_number quantity) as [q | e] eqn:Hn.
  - rewrite (execute_trade_number _ _ q _ _ Hn) in He.
    destruct (Qlt_le_dec 0 q) as [Hq | Hq].
    + destruct (py_eq_str action "buy") eqn:Eb.
      * apply py_eq_str_true in Eb. injection He as He.
        left. exists q. now repeat split.
      * destruct (py_eq_str action "sell") eqn:Es.
        -- apply py_eq_str_true in Es. injection He as He.
           right; left. exists q. now repeat split.
        -- injection He as <- <-. right; right. repeat split.
           intros [-> | ->]; discriminate.
    + injection He as <- <-. right; right. repeat split.
      intros _. now exists q.
  - destruct (execute_trade_not_a_number _ _ _ _ _ _ _ Hn He) as [-> ->].
    right; right. repeat split.
    intros [-> | ->]; unfold execute_trade, py_gt0 in He; rewrite Hn in He;
      discriminate He.
Qed.

Lemma execute_trade_moves (action quantity : pyval) (price : Q)
  (p : Portfolio) (f : Q) (p' : Portfolio) :
  execute_trade action quantity price p = Ok (f, p') ->
  (action = PyStr "buy" ->
     stock p' == stock p + f /\ cash p' == cash p - f * price)
  /\ (action = PyStr "sell" ->
        stock p' == stock p - f /\ cash p' == cash p + f * price)
  /\ (action <> PyStr "buy" -> action <> PyStr "sell" -> f = 0 /\ p' = p)
  /\ cash p' + stock p' * price == cash p + stock p * price
  /\ portfolio_value p' = portfolio_value p.
Proof.
  intros He.
  destruct (execute_trade_returns _ _ _ _ _ _ He)
    as [(q & -> & _ & _ & Hb) | [(q & -> & _ & _ & Hs) | (-> & -> & _)]].
  - pose proof (execute_buy_accounts q price p) as H. rewrite Hb in H.
    destruct H as (Hst & Hc & Hm).
    split; [intros _; now split |].
    split; [discriminate |].
    split; [intros H; now destruct H |].
    split; [rewrite Hst, Hc; ring | exact Hm].
  - pose proof (execute_sell_accounts q price p) as H. rewrite Hs in H.
    destruct H as (Hst & Hc & Hm).
    split; [discriminate |].
    split; [intros _; now split |].
    split; [intros _ H; now destruct H |].
    split; [rewrite Hst, Hc; ring | exact Hm].
  - split; [intros _; split; ring |].
    split; [intros _; split; ring |].
    split; [intros _ _; now split |].
    split; reflexivity.
Qed.


(** X1.  Whatever [execute_trade] returns is exactly what it moved: on a
    buy the stock grows by the returned quantity and the cash shrinks by
    that quantity times the price, on a sell it is the other way round,
    and any other call moves nothing.  The value of the portfolio at the
    price of the trade, [cash + stock * price], is therefore the same
    before and after (no fee, no slippage), and the stored mark
    [portfolio_value] is not touched. *)
Theorem execute_trade_accounts (action quantity : pyval) (price : Q)
  (p : Portfolio) (f : Q) (p' : Portfolio) :
  execute_trade action quantity price p = Ok (f, p') ->
  (action = PyStr "buy" ->
     stock p' == stock p + f /\ cash p' == cash p - f * price)
  /\ (action = PyStr "sell" ->
        stock p' == stock p - f /\ cash p' == cash p + f * price)
  /\ (action <> PyStr "buy" -> action <> PyStr "sell" -> f = 0 /\ p' = p)
  /\ cash p' + stock p' * price == cash p + stock p * price
  /\ portfolio_value p' = portfolio_value p.
Proof. exact (execute_trade_moves action quantity price p f p'). Qed.

Lemma execute_trade_accounts_witness :
  let p := mkPortfolio 100 2 (Some 160) in
  let p' := mkPortfolio 10 5 (Some 160) in
  execute_trade (PyStr "buy") (PyNum 10) 30 p = Ok (3, p')
  /\ cash p' + stock p' * 30 == cash p + stock p * 30
  /\ portfolio_value p' = portfolio_value p.
Proof.
  intros p p'.
  assert (He : execute_trade (PyStr "buy") (PyNum 10) 30 p = Ok (3, p'))
    by reflexivity.
  exact (conj He (proj2 (proj2 (proj2
           (execute_trade_accounts (PyStr "buy") (PyNum 10) 30 p 3 p' He))))).
Defined.

(** X2.  An order is filled as far as the portfolio allows.  After a buy of
    a positive quantity at a positive price, either the whole quantity was
    bought or the cash that is left does not pay for one more unit; after
    a sell of a positive quantity from a stock that is not negative,
    either the whole quantity was sold or no stock is left. *)
Theorem fills_are_maximal (quantity : pyval) (q price : Q) (p : Portfolio) :
  as_number quantity = Ok q -> 0 < q ->
  (0 < price ->
     exists (f : Q) (p' : Portfolio),
       execute_trade (PyStr "buy") quantity price p = Ok (f, p')
       /\ (f = q \/ cash p' < price))
  /\ (0 <= stock p ->
        exists (f : Q) (p' : Portfolio),
          execute_trade (PyStr "sell") quantity price p = Ok (f, p')
          /\ (f = q \/ stock p' == 0)).
Proof.
  intros Hn Hq. split.
  - intros Hpr. rewrite (execute_trade_number _ _ q _ _ Hn).
    destruct (Qlt_le_dec 0 q) as [_ | Hq']; [| lra].
    change (py_eq_str (PyStr "buy") "buy") with true. cbv iota.
    destruct (floordiv_bounds (cash p) price Hpr) as [Hlo Hhi].
    unfold execute_buy.
    destruct (Qle_lt_dec (q * price) (cash p)).
    + eexists; eexists; split; [reflexivity | now left].
    + destruct (Qlt_le_dec 0 (floordiv (cash p) price)).
      * eexists; eexists; split; [reflexivity | right; simpl; lra].
      * exists 0, p; split; [reflexivity | right].
        assert (floordiv (cash p) price * price <= 0 * price)
          by (apply Qmult_le_compat_r; lra).
        lra.
  - intros Hs. rewrite (execute_trade_number _ _ q _ _ Hn).
    destruct (Qlt_le_dec 0 q) as [_ | Hq']; [| lra].
    change (py_eq_str (PyStr "sell") "buy") with false.
    change (py_eq_str (PyStr "sell") "sell") with true. cbv iota.
    unfold execute_sell.
    destruct (py_min_spec q (stock p)) as (Hmq & Hms & [E | E]).
    + destruct (Qlt_le_dec 0 (py_min q (stock p))) as [_ | Hle];
        [| rewrite E in Hle; lra].
      eexists; eexists; split; [reflexivity | left; exact E].
    + destruct (Qlt_le_dec 0 (py_min q (stock p))).
      * eexists; eexists; split; [reflexivity |].
        right. simpl. rewrite E. ring.
      * exists 0, p; split; [reflexivity | right].
        rewrite E in *. lra.
Qed.

Lemma fills_are_maximal_witness :
  let p := mkPortfolio 100 0 None in
  as_number (PyNum 10) = Ok 10 /\ 0 < 10 /\ 0 < 30
  /\ exists (f : Q) (p' : Portfolio),
       execute_trade (PyStr "buy") (PyNum 10) 30 p = Ok (f, p')
       /\ (f = 10 \/ cash p' < 30).
Proof.
  intros p.
  assert (Hq : 0 < 10) by reflexivity.
  assert (Hpr : 0 < 30) by reflexivity.
  exact (conj eq_refl (conj Hq (conj Hpr
           (proj1 (fills_are_maximal (PyNum 10) 10 30 p eq_refl Hq) Hpr)))).
Defined.


(** ** Price source *)

Lemma insert_by_date_perm (b : Bar) (l : list Bar) :
  Permutation (b :: l) (insert_by_date b l).
Proof.
  induction l as [| b' l IH]; simpl; [reflexivity |].
  destruct (bar_date b <? bar_date b')%Z; [reflexivity |].
  rewrite perm_swap. now constructor.
Qed.

Lemma insert_by_date_HdRel (a b : Bar) (l : list Bar) :
  by_date a b -> HdRel by_date a l -> HdRel by_date a (insert_by_date b l).
Proof.
  intros Hab Hl. destruct l as [| b' l]; simpl; [now constructor |].
  destruct (bar_date b <? bar_date b')%Z; constructor; [assumption |].
  now inversion Hl.
Qed.

Lemma insert_by_date_sorted (b : Bar) (l : list Bar) :
  Sorted by_date l -> Sorted by_date (insert_by_date b l).
Proof.
  induction l as [| b' l IH]; intros Hl; simpl.
  - repeat constructor.
  - inversion Hl as [| ? ? Hl' Hhd]; subst.
    destruct (Z.ltb_spec (bar_date b) (bar_date b')) as [Hlt | Hge].
    + constructor; [assumption |]. constructor. unfold by_date. lia.
    + constructor; [now apply IH |].
      apply insert_by_date_HdRel; [exact Hge | exact Hhd].
Qed.

Lemma sort_index_perm (df : list Bar) : Permutation df (sort_index df).
Proof.
  unfold sort_index. induction df as [| b df IH]; simpl; [reflexivity |].
  rewrite <- insert_by_date_perm. now constructor.
Qed.

Lemma sort_index_sorted (df : list Bar) : Sorted by_date (sort_index df).
Proof.
  unfold sort_index. induction df as [| b df IH]; simpl.
  - constructor.
  - now apply insert_by_date_sorted.
Qed.

Lemma prices_to_df_rows (prices : list Bar) : prices_to_df prices = prices.
Proof.
  unfold prices_to_df. induction prices as [| [d c v] l IH];
    simpl; [| rewrite IH]; reflexivity.
Qed.

Lemma by_date_trans : Relations_1.Transitive by_date.
Proof. intros a b c. unfold by_date. lia. Qed.

(** The last row of a sorted frame has the latest date. *)
Lemma sorted_last_is_latest (l : list Bar) (b : Bar) :
  Sorted by_date (l ++ [b]) ->
  forall b' : Bar, In b' (l ++ [b]) -> by_date b' b.
Proof.
  intros Hs b' Hin.
  apply (Sorted_StronglySorted by_date_trans) in Hs.
  induction l as [| a l IH]; simpl in *.
  - destruct Hin as [<- | []]. unfold by_date. lia.
  - inversion Hs as [| ? ? Hs' Hall]; subst.
    destruct Hin as [<- | Hin]; [| now apply IH].
    rewrite Forall_forall in Hall. apply Hall, in_or_app. right. now left.
Qed.

Section PriceSourceProperties.

Variable yf_download : string -> Z -> Z -> result (list Bar).

Lemma get_price_data_ok (t : string) (s e : Z) (df : list Bar) :
  get_price_data yf_download t s e = Ok df ->
  exists raw : list Bar,
    yf_download t s e = Ok raw /\ raw <> [] /\ df = sort_index raw.
Proof.
  unfold get_price_data, get_prices.
  destruct (yf_download t s e) as [raw | err]; simpl; [| discriminate].
  destruct raw as [| b raw]; simpl; [discriminate |].
  rewrite prices_to_df_rows. intros [= <-].
  exists (b :: raw). repeat split. discriminate.
Qed.

End PriceSourceProperties.

(** X3.  [get_price_data] hands back the rows of the download, all of
    them and no other, in ascending order of their dates, and never an
    empty frame: an empty download raises [ValueError], and an error of the
    download is passed on. *)
Theorem get_price_data_rows
  (yf_download : string -> Z -> Z -> result (list Bar))
  (t : string) (s e : Z) :
  (forall df : list Bar,
      get_price_data yf_download t s e = Ok df ->
      exists raw : list Bar,
        yf_download t s e = Ok raw
        /\ Permutation raw df /\ Sorted by_date df /\ df <> [])
  /\ (yf_download t s e = Ok [] ->
      get_price_data yf_download t s e = Raise ValueError)
  /\ (forall err : exn,
        yf_download t s e = Raise err ->
        get_price_data yf_download t s e = Raise err).
Proof.
  split; [| split].
  - intros df H.
    destruct (get_price_data_ok yf_download t s e df H) as (raw & Hr & Hne & ->).
    exists raw. split; [exact Hr |].
    split; [apply sort_index_perm |]. split; [apply sort_index_sorted |].
    intros E. apply Hne, Permutation_nil.
    rewrite <- E. symmetry. apply sort_index_perm.
  - intros H. unfold get_price_data, get_prices. now rewrite H.
  - intros err H. unfold get_price_data, get_prices. now rewrite H.
Qed.

Lemma get_price_data_rows_witness :
  get_price_data rising_bars "AAPL" (-29) 1 = Ok [mkBar 1 100 0]
  /\ exists raw : list Bar,
       rising_bars "AAPL" (-29) 1 = Ok raw
       /\ Permutation raw [mkBar 1 100 0]
       /\ Sorted by_date [mkBar 1 100 0] /\ [mkBar 1 100 0] <> [].
Proof.
  assert (H : get_price_data rising_bars "AAPL" (-29) 1
              = Ok [mkBar 1 100 0]) by reflexivity.
  exact (conj H (proj1 (get_price_data_rows rising_bars "AAPL" (-29) 1)
                   _ H)).
Defined.

Lemma latest_close
  (yf_download : string -> Z -> Z -> result (list Bar))
  (t : string) (s e : Z) (df : list Bar) :
  get_price_data yf_download t s e = Ok df ->
  exists (raw : list Bar) (b : Bar),
    yf_download t s e = Ok raw
    /\ In b raw
    /\ iloc_last_close df = Ok (close b)
    /\ forall b' : Bar, In b' raw -> (bar_date b' <= bar_date b)%Z.
Proof.
  intros H.
  destruct (get_price_data_ok yf_download t s e df H) as (raw & Hr & Hne & ->).
  pose proof (sort_index_perm raw) as Hperm.
  pose proof (sort_index_sorted raw) as Hsorted.
  destruct (exists_last (l := sort_index raw)) as (l & b & E).
  { intros E. apply Hne, Permutation_nil. rewrite <- E. now symmetry. }
  exists raw, b. rewrite E in *.
  split; [exact Hr |]. split; [| split].
  - apply (Permutation_in _ (Permutation_sym Hperm)), in_or_app.
    right. now left.
  - unfold iloc_last_close. now rewrite rev_unit.
  - intros b' Hin.
    apply (sorted_last_is_latest l b Hsorted), (Permutation_in _ Hperm Hin).
Qed.

(** X4.  The price the loop trades at always exists and is the close of a
    downloaded bar that no other bar is dated after: on a frame returned
    by [get_price_data], [df.iloc[-1]['close']] does not raise. *)
Theorem current_price_is_latest_close
  (yf_download : string -> Z -> Z -> result (list Bar))
  (t : string) (s e : Z) (df : list Bar) :
  get_price_data yf_download t s e = Ok df ->
  exists (raw : list Bar) (b : Bar),
    yf_download t s e = Ok raw
    /\ In b raw
    /\ iloc_last_close df = Ok (close b)
    /\ forall b' : Bar, In b' raw -> (bar_date b' <= bar_date b)%Z.
Proof. exact (latest_close yf_download t s e df). Qed.

Lemma current_price_is_latest_close_witness :
  get_price_data rising_bars "AAPL" (-29) 1 = Ok [mkBar 1 100 0]
  /\ exists (raw : list Bar) (b : Bar),
       rising_bars "AAPL" (-29) 1 = Ok raw
       /\ In b raw
       /\ iloc_last_close [mkBar 1 100 0] = Ok (close b)
       /\ forall b' : Bar, In b' raw -> (bar_date b' <= bar_date b)%Z.
Proof.
  assert (H : get_price_data rising_bars "AAPL" (-29) 1
              = Ok [mkBar 1 100 0]) by reflexivity.
  exact (conj H (current_price_is_latest_close rising_bars "AAPL" (-29) 1
                   _ H)).
Defined.


(** ** Simulation loop: what a run records *)

Section RunProperties.

Variable json_loads : pyval -> result pyval.
Variable yf_download : string -> Z -> Z -> result (list Bar).
Variable agent : string -> Z -> Z -> Portfolio -> result pyval.

Local Abbreviation day := (simulate_day json_loads yf_download agent).
Local Abbreviation loop := (for_each json_loads yf_download agent).
Local Abbreviation traded := (day_traded json_loads yf_download agent).

(** A day either raises before it writes anything, or trades and marks
    the portfolio; after that it appends its record, unless the progress
    line raises. *)
Lemma simulate_day_steps (d : Z) (s : Sim) :
  (exists e : exn, fst (day d s) = Raise e /\ bt (snd (day d s)) = bt s)
  \/ exists (price : Q) (p : Portfolio),
       traded d (bt s) price p
       /\ ((exists e : exn,
              fst (day d s) = Raise e
              /\ bt (snd (day d s))
                 = with_portfolio (bt s) (marked p price))
           \/ (fst (day d s) = Ok tt
               /\ bt (snd (day d s))
                  = append_value (with_portfolio (bt s) (marked p price))
                      (d, (cash p + stock p * price)%Q))).
Proof.
  unfold simulate_day, sbind, get_bt, record_call, lift, put_bt, day_traded.
  cbn [bt calls].
  destruct (agent _ _ _ _) as [agent_output | e] eqn:Ha;
    [| left; now exists e].
  destruct (parse_action json_loads agent_output) as [action quantity] eqn:Hp.
  cbn [bt calls].
  destruct (get_price_data _ _ _ _) as [df | e] eqn:Hd;
    [| left; now exists e].
  destruct (iloc_last_close df) as [price | e] eqn:Hl;
    [| left; now exists e].
  destruct (execute_trade _ _ _ _) as [[f p] | e] eqn:He;
    [| left; now exists e].
  cbn [bt calls]. right. exists price, p. split.
  - exists agent_output, action, quantity, df, f. now repeat split.
  - destruct (format_action action) as [[] | e]; cbn [fst snd bt].
    + right. now split.
    + left. now exists e.
Qed.

(** A property of the backtester that every day keeps is kept by the
    loop, however it ends. *)
Lemma for_each_keeps (I : Backtester -> Prop) :
  (forall (d : Z) (s : Sim), I (bt s) -> I (bt (snd (day d s)))) ->
  forall (dates : list Z) (s : Sim),
    I (bt s) -> I (bt (snd (loop dates s))).
Proof.
  intros Hday. induction dates as [| d dates IH]; intros s Hs; [exact Hs |].
  cbn [for_each]. unfold sbind.
  pose proof (Hday d s Hs) as H1.
  destruct (simulate_day json_loads yf_download agent d s) as [[[] | e] s1];
    cbn [snd] in *; [now apply IH | exact H1].
Qed.

End RunProperties.


(** *** Business days *)

Lemma range_from_sorted (start : Z) (n a : nat) :
  StronglySorted Z.lt
    (map (fun i => (start + Z.of_nat i)%Z) (seq a n)).
Proof.
  revert a. induction n as [| n IH]; intros a; simpl; constructor.
  - apply IH.
  - apply Forall_forall. intros x Hx.
    apply in_map_iff in Hx. destruct Hx as (i & <- & Hi).
    apply in_seq in Hi. lia.
Qed.

Lemma StronglySorted_filter_lt (f : Z -> bool) (l : list Z) :
  StronglySorted Z.lt l -> StronglySorted Z.lt (filter f l).
Proof.
  induction 1 as [| x l Hs IH Hall]; simpl; [constructor |].
  destruct (f x); [| exact IH]. constructor; [exact IH |].
  apply Forall_forall. intros y Hy. apply filter_In in Hy.
  rewrite Forall_forall in Hall. now apply Hall.
Qed.

Lemma date_range_increasing (s e : Z) : StronglySorted Z.lt (date_range s e).
Proof. apply StronglySorted_filter_lt, range_from_sorted. Qed.

Lemma date_range_business (s e d : Z) :
  In d (date_range s e) <->
  (s <= d <= e)%Z /\ is_business_day d = true.
Proof.
  unfold date_range. rewrite filter_In, in_map_iff. split.
  - intros [(i & <- & Hi) Hb]. apply in_seq in Hi. split; [lia | exact Hb].
  - intros [Hd Hb]. split; [| exact Hb].
    exists (Z.to_nat (d - s)). split; [lia |]. apply in_seq. lia.
Qed.

Section RecordProperties.

Variable json_loads : pyval -> result pyval.
Variable yf_download : string -> Z -> Z -> result (list Bar).
Variable agent : string -> Z -> Z -> Portfolio -> result pyval.

Local Abbreviation day := (simulate_day json_loads yf_download agent).
Local Abbreviation loop := (for_each json_loads yf_download agent).

(** What a day does to the records and to the fields the loop only
    reads. *)
Lemma simulate_day_records (d : Z) (s : Sim) :
  ticker (bt (snd (day d s))) = ticker (bt s)
  /\ start_date (bt (snd (day d s))) = start_date (bt s)
  /\ end_date (bt (snd (day d s))) = end_date (bt s)
  /\ initial_capital (bt (snd (day d s))) = initial_capital (bt s)
  /\ ((exists e : exn, fst (day d s) = Raise e)
      /\ portfolio_values (bt (snd (day d s))) = portfolio_values (bt s)
      \/ fst (day d s) = Ok tt
         /\ exists v : Q,
              portfolio_values (bt (snd (day d s)))
              = (portfolio_values (bt s) ++ [(d, v)])%list).
Proof.
  destruct (simulate_day_steps json_loads yf_download agent d s)
    as [(e & Hr & ->) | (price & p & _ & [(e & Hr & ->) | (Hr & ->)])];
    repeat split; try reflexivity.
  - left. split; [now exists e | reflexivity].
  - left. split; [now exists e | reflexivity].
  - right. split; [exact Hr |]. now eexists.
Qed.

Lemma for_each_records (dates : list Z) :
  forall s : Sim,
  exists (new : list (Z * Q)) (rest : list Z),
    portfolio_values (bt (snd (loop dates s)))
    = (portfolio_values (bt s) ++ new)%list
    /\ dates = (map fst new ++ rest)%list
    /\ (fst (loop dates s) = Ok tt <-> rest = [])
    /\ ticker (bt (snd (loop dates s))) = ticker (bt s)
    /\ start_date (bt (snd (loop dates s))) = start_date (bt s)
    /\ end_date (bt (snd (loop dates s))) = end_date (bt s)
    /\ initial_capital (bt (snd (loop dates s))) = initial_capital (bt s).
Proof.
  induction dates as [| d dates IH]; intros s.
  - exists [], []. cbn. rewrite app_nil_r. now repeat split.
  - cbn [for_each]. unfold sbind.
    destruct (simulate_day_records d s)
      as (Ht & Hs & He & Hc & [[(e & Hr) Hv] | [Hr (v & Hv)]]);
      destruct (simulate_day json_loads yf_download agent d s)
        as [[[] | e'] s1]; cbn [fst snd] in *; try discriminate.
    + exists [], (d :: dates). rewrite app_nil_r.
      repeat split; try assumption; discriminate.
    + destruct (IH s1) as (new & rest & Hv' & Hd & Hok & Ht' & Hs' & He' & Hc').
      exists ((d, v) :: new), rest.
      rewrite Hv', Hv, <- app_assoc.
      split; [reflexivity |]. split; [cbn; now rewrite <- Hd |].
      split; [exact Hok |]. repeat split; congruence.
Qed.

End RecordProperties.


Lemma StronglySorted_app_l (l1 l2 : list Z) :
  StronglySorted Z.lt (l1 ++ l2) -> StronglySorted Z.lt l1.
Proof.
  induction l1 as [| x l1 IH]; simpl; intros H; [constructor |].
  inversion H as [| ? ? Hs Hall]; subst. constructor; [now apply IH |].
  apply Forall_app in Hall. tauto.
Qed.

(** X5.  A run appends to the records and never removes one: it appends
    one record for each business day of the range, in strictly increasing
    date order, up to the day (if any) on which it raises; it completes
    exactly when every business day of the range has its record.  The
    ticker, the two dates and the initial capital are left as they
    were. *)
Theorem run_backtest_records
  (json_loads : pyval -> result pyval)
  (yf_download : string -> Z -> Z -> result (list Bar))
  (agent : string -> Z -> Z -> Portfolio -> result pyval)
  (b : Backtester) :
  let run := run_backtest json_loads yf_download agent b in
  exists (new : list (Z * Q)) (rest : list Z),
    portfolio_values (bt (snd run)) = (portfolio_values b ++ new)%list
    /\ date_range (start_date b) (end_date b) = (map fst new ++ rest)%list
    /\ (fst run = Ok tt <-> rest = [])
    /\ StronglySorted Z.lt (map fst new)
    /\ Forall (fun d => (start_date b <= d <= end_date b)%Z
                        /\ is_business_day d = true) (map fst new)
    /\ ticker (bt (snd run)) = ticker b
    /\ start_date (bt (snd run)) = start_date b
    /\ end_date (bt (snd run)) = end_date b
    /\ initial_capital (bt (snd run)) = initial_capital b.
Proof.
  intros run. subst run. unfold run_backtest.
  destruct (for_each_records json_loads yf_download agent
              (date_range (start_date b) (end_date b))
              {| bt := b; calls := [] |})
    as (new & rest & Hv & Hd & Hok & Ht & Hs & He & Hc).
  exists new, rest. cbn [bt] in *.
  split; [exact Hv |]. split; [exact Hd |]. split; [exact Hok |].
  split; [| split; [| now repeat split]].
  - apply (StronglySorted_app_l _ rest). rewrite <- Hd.
    apply date_range_increasing.
  - apply Forall_forall. intros d Hin.
    apply date_range_business. rewrite Hd. apply in_or_app. now left.
Qed.

Section FreshRun.

Variable json_loads : pyval -> result pyval.
Variable yf_download : string -> Z -> Z -> result (list Bar).
Variable agent : string -> Z -> Z -> Portfolio -> result pyval.

Local Abbreviation day := (simulate_day json_loads yf_download agent).
Local Abbreviation loop := (for_each json_loads yf_download agent).

(** The record a first day appends is worth what the portfolio was worth
    before the day's trade. *)
Lemma first_record (dates : list Z) (s : Sim) (d : Z) (v : Q)
  (rest : list (Z * Q)) :
  portfolio_values (bt s) = [] ->
  portfolio_values (bt (snd (loop dates s))) = (d, v) :: rest ->
  exists price : Q,
    v == cash (portfolio (bt s)) + stock (portfolio (bt s)) * price.
Proof.
  intros Hempty Hv.
  destruct dates as [| d1 dates].
  { cbn in Hv. rewrite Hempty in Hv. discriminate Hv. }
  cbn [for_each] in Hv. unfold sbind in Hv.
  destruct (simulate_day_steps json_loads yf_download agent d1 s)
    as [(e & Hr & Hb) | (price & p & Ht & [(e & Hr & Hb) | (Hr & Hb)])];
    destruct (simulate_day json_loads yf_download agent d1 s)
      as [[[] | e'] s1]; cbn [fst snd] in *; try discriminate.
  - rewrite Hb, Hempty in Hv. discriminate Hv.
  - rewrite Hb in Hv. cbn in Hv. rewrite Hempty in Hv. discriminate Hv.
  - destruct (for_each_records json_loads yf_download agent dates s1)
      as (new & _ & Hnew & _).
    rewrite Hnew, Hb in Hv. cbn [append_value portfolio_values with_portfolio]
      in Hv.
    rewrite Hempty in Hv. injection Hv as _ <- _.
    destruct Ht as (out & action & quantity & df & f & _ & _ & _ & _ & He).
    exists price.
    exact (proj1 (proj2 (proj2 (proj2
             (execute_trade_moves _ _ _ _ _ _ He))))).
Qed.

End FreshRun.

(** X6.  Whatever the first decision and the first price are, the first
    record of a fresh backtester is dated at the first business day of the
    range and is worth the initial capital. *)
Theorem first_record_is_capital
  (json_loads : pyval -> result pyval)
  (yf_download : string -> Z -> Z -> result (list Bar))
  (agent : string -> Z -> Z -> Portfolio -> result pyval)
  (t : string) (s e : Z) (capital : Q) (d : Z) (v : Q)
  (rest : list (Z * Q)) :
  portfolio_values
    (bt (snd (run_backtest json_loads yf_download agent
                (new_backtester t s e capital))))
  = (d, v) :: rest ->
  v == capital /\ exists days : list Z, date_range s e = d :: days.
Proof.
  intros Hv. split.
  - unfold run_backtest in Hv.
    destruct (first_record json_loads yf_download agent _
                {| bt := new_backtester t s e capital; calls := [] |}
                d v rest eq_refl Hv) as (price & E).
    rewrite E. cbn. ring.
  - destruct (run_backtest_records json_loads yf_download agent
                (new_backtester t s e capital))
      as (new & days & Hnew & Hd & _).
    rewrite Hv in Hnew. cbn in Hnew, Hd. subst new. cbn in Hd.
    now exists (map fst rest ++ days)%list.
Qed.

Lemma first_record_is_capital_witness :
  portfolio_values
    (bt (snd (run_backtest json_decode flat_bars buy_5_agent
                (new_backtester "AAPL" 1 1 1000))))
  = [(1%Z, 1000)]
  /\ 1000 == 1000 /\ exists days : list Z, date_range 1 1 = 1%Z :: days.
Proof.
  assert (H : portfolio_values
                (bt (snd (run_backtest json_decode flat_bars buy_5_agent
                            (new_backtester "AAPL" 1 1 1000))))
              = [(1%Z, 1000)]) by (vm_compute; reflexivity).
  exact (conj H (first_record_is_capital json_decode flat_bars buy_5_agent
                   "AAPL" 1 1 1000 1 1000 [] H)).
Defined.


(** ** Simulation loop: what a run keeps *)

Section PositiveCloses.

Variable json_loads : pyval -> result pyval.
Variable yf_download : string -> Z -> Z -> result (list Bar).
Variable agent : string -> Z -> Z -> Portfolio -> result pyval.

Hypothesis closes_positive :
  forall (t : string) (s e : Z) (raw : list Bar),
    yf_download t s e = Ok raw -> Forall (fun b => 0 < close b) raw.

Lemma traded_price_positive (d : Z) (b : Backtester) (price : Q)
  (p : Portfolio) :
  day_traded json_loads yf_download agent d b price p ->
  0 < price
  /\ (portfolio_ok (portfolio b) -> portfolio_ok p).
Proof.
  intros (out & action & quantity & df & f & _ & _ & Hd & Hl & He).
  destruct (latest_close yf_download _ _ _ df Hd)
    as (raw & bar & Hraw & Hin & Hl' & _).
  rewrite Hl in Hl'. injection Hl' as ->.
  pose proof (closes_positive _ _ _ _ Hraw) as Hall.
  rewrite Forall_forall in Hall. specialize (Hall bar Hin).
  split; [exact Hall |]. intros Hok.
  pose proof (after_call_ok (portfolio b)
                (mkCall action quantity (close bar)) Hall Hok) as H.
  unfold after_call in H. cbn [call_action call_quantity call_price] in H.
  now rewrite He in H.
Qed.

Lemma simulate_day_keeps_ok (d : Z) (s : Sim) :
  portfolio_ok (portfolio (bt s))
  /\ Forall (fun r => 0 <= snd r) (portfolio_values (bt s)) ->
  portfolio_ok
    (portfolio (bt (snd (simulate_day json_loads yf_download agent d s))))
  /\ Forall (fun r => 0 <= snd r)
       (portfolio_values
          (bt (snd (simulate_day json_loads yf_download agent d s)))).
Proof.
  intros [Hok Hvals].
  destruct (simulate_day_steps json_loads yf_download agent d s)
    as [(e & _ & ->) | (price & p & Ht & [(e & _ & ->) | (_ & ->)])];
    [now split | |];
    destruct (traded_price_positive d (bt s) price p Ht) as [Hpr Hp];
    specialize (Hp Hok); destruct Hp as [Hc Hs].
  - split; [now split | exact Hvals].
  - split; [now split |].
    cbn [append_value portfolio_values with_portfolio].
    apply Forall_app. split; [exact Hvals |]. constructor; [| constructor].
    cbn [snd].
    assert (0 <= stock p * price) by (apply Qmult_le_0_compat; lra).
    lra.
Qed.

End PositiveCloses.


(** X7.  When every downloaded bar closes at a positive price, a run keeps
    the portfolio free of debt and of short positions, however it ends:
    [cash >= 0] and [stock >= 0] afterwards if they held before, and no
    recorded value is negative. *)
Theorem run_backtest_keeps_portfolio_ok
  (json_loads : pyval -> result pyval)
  (yf_download : string -> Z -> Z -> result (list Bar))
  (agent : string -> Z -> Z -> Portfolio -> result pyval)
  (b : Backtester) :
  (forall (t : string) (s e : Z) (raw : list Bar),
      yf_download t s e = Ok raw -> Forall (fun bar => 0 < close bar) raw) ->
  portfolio_ok (portfolio b) ->
  Forall (fun r => 0 <= snd r) (portfolio_values b) ->
  let after := bt (snd (run_backtest json_loads yf_download agent b)) in
  portfolio_ok (portfolio after)
  /\ Forall (fun r => 0 <= snd r) (portfolio_values after).
Proof.
  intros Hpos Hok Hvals after. subst after. unfold run_backtest.
  apply (for_each_keeps json_loads yf_download agent
           (fun b' => portfolio_ok (portfolio b')
                      /\ Forall (fun r => 0 <= snd r) (portfolio_values b'))).
  - intros d s. now apply simulate_day_keeps_ok.
  - now split.
Qed.

Lemma rising_bars_positive (t : string) (s e : Z) (raw : list Bar) :
  rising_bars t s e = Ok raw -> Forall (fun bar => 0 < close bar) raw.
Proof.
  intros [= <-]. constructor; [| constructor].
  cbn. now destruct (e =? 1)%Z.
Qed.

Lemma run_backtest_keeps_portfolio_ok_witness :
  let b := new_backtester "AAPL" 1 5 1000 in
  let after := bt (snd (run_backtest json_decode rising_bars buy_5_agent b)) in
  portfolio_ok (portfolio b)
  /\ portfolio_ok (portfolio after)
  /\ Forall (fun r => 0 <= snd r) (portfolio_values after).
Proof.
  intros b after.
  assert (Hok : portfolio_ok (portfolio b)) by (split; discriminate).
  exact (conj Hok (run_backtest_keeps_portfolio_ok json_decode rising_bars
                     buy_5_agent b rising_bars_positive Hok
                     (Forall_nil _))).
Defined.

Section NoTrade.

Variable json_loads : pyval -> result pyval.
Variable yf_download : string -> Z -> Z -> result (list Bar).
Variable agent : string -> Z -> Z -> Portfolio -> result pyval.

Hypothesis never_buy_or_sell :
  forall (t : string) (ls d : Z) (p : Portfolio) (out : pyval),
    agent t ls d p = Ok out ->
    fst (parse_action json_loads out) <> PyStr "buy"
    /\ fst (parse_action json_loads out) <> PyStr "sell".

Lemma traded_nothing (d : Z) (b : Backtester) (price : Q) (p : Portfolio) :
  day_traded json_loads yf_download agent d b price p -> p = portfolio b.
Proof.
  intros (out & action & quantity & df & f & Ha & Hp & _ & _ & He).
  destruct (never_buy_or_sell _ _ _ _ _ Ha) as [Hb Hs].
  rewrite Hp in Hb, Hs. cbn [fst] in Hb, Hs.
  unfold execute_trade in He.
  rewrite (py_eq_str_false _ _ Hb), (py_eq_str_false _ _ Hs) in He.
  now injection He as _ <-.
Qed.

Lemma simulate_day_no_trade (c st : Q) (d : Z) (s : Sim) :
  (cash (portfolio (bt s)) = c /\ stock (portfolio (bt s)) = st) ->
  cash (portfolio (bt (snd (simulate_day json_loads yf_download agent d s))))
  = c
  /\ stock
       (portfolio (bt (snd (simulate_day json_loads yf_download agent d s))))
     = st.
Proof.
  intros H.
  destruct (simulate_day_steps json_loads yf_download agent d s)
    as [(e & _ & ->) | (price & p & Ht & [(e & _ & ->) | (_ & ->)])];
    [exact H | |]; rewrite (traded_nothing d (bt s) price p Ht); exact H.
Qed.

End NoTrade.

(** X8.  Decisions that are not a buy or a sell never move the portfolio:
    if no output of the decision source parses to the action [buy] or
    [sell] (which includes every output that does not parse at all), then
    after a run, however it ends, the cash and the stock are what they
    were before. *)
Theorem run_without_orders_moves_nothing
  (json_loads : pyval -> result pyval)
  (yf_download : string -> Z -> Z -> result (list Bar))
  (agent : string -> Z -> Z -> Portfolio -> result pyval)
  (b : Backtester) :
  (forall (t : string) (ls d : Z) (p : Portfolio) (out : pyval),
      agent t ls d p = Ok out ->
      fst (parse_action json_loads out) <> PyStr "buy"
      /\ fst (parse_action json_loads out) <> PyStr "sell") ->
  let after := bt (snd (run_backtest json_loads yf_download agent b)) in
  cash (portfolio after) = cash (portfolio b)
  /\ stock (portfolio after) = stock (portfolio b).
Proof.
  intros Hnever after. subst after. unfold run_backtest.
  apply (for_each_keeps json_loads yf_download agent
           (fun b' => cash (portfolio b') = cash (portfolio b)
                      /\ stock (portfolio b') = stock (portfolio b))).
  - intros d s. now apply simulate_day_no_trade.
  - now split.
Qed.

Lemma hold_agent_never_orders (t : string) (ls d : Z) (p : Portfolio)
  (out : pyval) :
  hold_agent t ls d p = Ok out ->
  fst (parse_action json_decode out) <> PyStr "buy"
  /\ fst (parse_action json_decode out) <> PyStr "sell".
Proof.
  intros [= <-].
  assert (E : parse_action json_decode
                (PyStr (decision_text (quoted "hold") "0"))
              = (PyStr "hold", PyNum 0)) by (vm_compute; reflexivity).
  rewrite E. split; discriminate.
Qed.

Lemma run_without_orders_moves_nothing_witness :
  let b := new_backtester "AAPL" 1 5 1000 in
  let after := bt (snd (run_backtest json_decode rising_bars hold_agent b)) in
  cash (portfolio after) = cash (portfolio b)
  /\ stock (portfolio after) = stock (portfolio b).
Proof.
  exact (run_without_orders_moves_nothing json_decode rising_bars hold_agent
           (new_backtester "AAPL" 1 5 1000) hold_agent_never_orders).
Defined.


Section FlatRun.

Variable json_loads : pyval -> result pyval.
Variable yf_download : string -> Z -> Z -> result (list Bar).
Variable agent : string -> Z -> Z -> Portfolio -> result pyval.

Hypothesis never_buy_or_sell :
  forall (t : string) (ls d : Z) (p : Portfolio) (out : pyval),
    agent t ls d p = Ok out ->
    fst (parse_action json_loads out) <> PyStr "buy"
    /\ fst (parse_action json_loads out) <> PyStr "sell".

Lemma simulate_day_flat (c : Q) (d : Z) (s : Sim) :
  cash (portfolio (bt s)) = c /\ stock (portfolio (bt s)) = 0
  /\ Forall (fun r => snd r == c) (portfolio_values (bt s)) ->
  let b' := bt (snd (simulate_day json_loads yf_download agent d s)) in
  cash (portfolio b') = c /\ stock (portfolio b') = 0
  /\ Forall (fun r => snd r == c) (portfolio_values b').
Proof.
  intros (Hc & Hs & Hv). cbv zeta.
  destruct (simulate_day_steps json_loads yf_download agent d s)
    as [(e & _ & ->) | (price & p & Ht & [(e & _ & ->) | (_ & ->)])];
    [now repeat split | |];
    rewrite (traded_nothing json_loads yf_download agent never_buy_or_sell
               d (bt s) price p Ht).
  - now repeat split.
  - cbn [append_value with_portfolio portfolio portfolio_values marked
         cash stock].
    split; [exact Hc |]. split; [exact Hs |].
    apply Forall_app. split; [exact Hv |]. constructor; [| constructor].
    cbn [snd]. rewrite Hc, Hs. ring.
Qed.

End FlatRun.

(** X9.  A fresh backtester whose decision source never orders a buy or a
    sell records the initial capital on every day, whatever the prices
    are. *)
Theorem run_without_orders_is_flat
  (json_loads : pyval -> result pyval)
  (yf_download : string -> Z -> Z -> result (list Bar))
  (agent : string -> Z -> Z -> Portfolio -> result pyval)
  (t : string) (s e : Z) (capital : Q) :
  (forall (t' : string) (ls d : Z) (p : Portfolio) (out : pyval),
      agent t' ls d p = Ok out ->
      fst (parse_action json_loads out) <> PyStr "buy"
      /\ fst (parse_action json_loads out) <> PyStr "sell") ->
  Forall (fun r => snd r == capital)
    (portfolio_values
       (bt (snd (run_backtest json_loads yf_download agent
                   (new_backtester t s e capital))))).
Proof.
  intros Hnever. unfold run_backtest.
  apply (for_each_keeps json_loads yf_download agent
           (fun b' => cash (portfolio b') = capital
                      /\ stock (portfolio b') = 0
                      /\ Forall (fun r => snd r == capital)
                           (portfolio_values b'))).
  - intros d st. now apply simulate_day_flat.
  - now repeat split.
Qed.

Lemma run_without_orders_is_flat_witness :
  Forall (fun r => snd r == 1000)
    (portfolio_values
       (bt (snd (run_backtest json_decode rising_bars hold_agent
                   (new_backtester "AAPL" 1 5 1000))))).
Proof.
  exact (run_without_orders_is_flat json_decode rising_bars hold_agent
           "AAPL" 1 5 1000 hold_agent_never_orders).
Defined.

(** ** The analyzer after a run *)

Lemma Q2R_pos (q : Q) : 0 < q -> (0 < Q2R q)%R.
Proof. intros H. apply Qlt_Rlt in H. rewrite RMicromega.Q2R_0 in H. exact H. Qed.

Lemma Q2R_nonneg (q : Q) : 0 <= q -> (0 <= Q2R q)%R.
Proof. intros H. apply Qle_Rle in H. rewrite RMicromega.Q2R_0 in H. exact H. Qed.

Lemma last_value_In (records : list (Z * Q)) (v : Q) :
  last_value records = Some v -> exists d : Z, In (d, v) records.
Proof.
  unfold last_value. destruct (rev records) as [| [d v'] l] eqn:E;
    [discriminate |].
  intros [= <-]. exists d. apply in_rev. rewrite E. now left.
Qed.

Section AnalysisAfterRun.

Variable json_loads : pyval -> result pyval.
Variable yf_download : string -> Z -> Z -> result (list Bar).
Variable agent : string -> Z -> Z -> Portfolio -> result pyval.

Variable t : string.
Variables s e : Z.
Variable capital : Q.

Local Abbreviation fresh := (new_backtester t s e capital).
Local Abbreviation run := (run_backtest json_loads yf_download agent fresh).

(** After a run that completes over at least one business day, the
    analyzer has records to work on and they start at the capital. *)
Lemma completed_run_analysis (s' : Sim) :
  date_range s e <> [] ->
  run = (Ok tt, s') ->
  exists (d : Z) (v final : Q) (rest : list (Z * Q)),
    portfolio_values (bt s') = (d, v) :: rest
    /\ v == capital
    /\ last_value (portfolio_values (bt s')) = Some final
    /\ analyze_performance (bt s')
       = analyze_sequence capital (portfolio_values (bt s')).
Proof.
  intros Hdays Hrun.
  destruct (for_each_records json_loads yf_download agent
              (date_range s e) {| bt := fresh; calls := [] |})
    as (new & rest & Hv & Hd & Hok & _).
  destruct (for_each_marks json_loads yf_download agent (date_range s e)
              {| bt := fresh; calls := [] |} s')
    as [Hmark Hcap]; [intros H; now destruct H | exact Hrun |].
  unfold run_backtest in Hrun. cbn [start_date end_date new_backtester] in Hrun.
  rewrite Hrun in Hv, Hok. cbn [fst snd bt portfolio_values new_backtester
                                  app] in Hv, Hok.
  assert (rest = []) as -> by now apply Hok.
  rewrite app_nil_r in Hd.
  destruct new as [| [d v] new]; [now destruct Hdays |].
  exists d, v.
  assert (Hfirst : v == capital).
  { destruct (first_record json_loads yf_download agent (date_range s e)
                {| bt := fresh; calls := [] |} d v new eq_refl)
      as (price & E).
    - unfold run_backtest in Hrun. rewrite Hrun. exact Hv.
    - rewrite E. cbn. ring. }
  destruct (last_value (portfolio_values (bt s'))) as [final |] eqn:El.
  - exists final, new. repeat split; try assumption.
    cbn [bt initial_capital new_backtester] in Hcap. rewrite <- Hcap.
    now apply analyze_performance_of_sequence.
  - unfold last_value in El. rewrite Hv in El.
    destruct (rev ((d, v) :: new)) eqn:Er; [| discriminate El].
    apply (f_equal (@List.length _)) in Er. rewrite length_rev in Er.
    discriminate Er.
Qed.

End AnalysisAfterRun.


(** X10.  After a run of a fresh backtester with a positive initial
    capital that completes over at least one business day, the analyzer
    returns, the total return is a number (not NaN, not infinite) and the
    maximum drawdown is a number that is at most zero, whatever the
    decisions and the prices were. *)
Theorem completed_run_statistics
  (json_loads : pyval -> result pyval)
  (yf_download : string -> Z -> Z -> result (list Bar))
  (agent : string -> Z -> Z -> Portfolio -> result pyval)
  (t : string) (s e : Z) (capital : Q) (s' : Sim) :
  0 < capital ->
  date_range s e <> [] ->
  run_backtest json_loads yf_download agent (new_backtester t s e capital)
  = (Ok tt, s') ->
  exists (perf : Performance) (tr m : R),
    analyze_performance (bt s') = Ok perf
    /\ total_return perf = Fin tr
    /\ max_drawdown perf = Fin m
    /\ (m <= 0)%R.
Proof.
  intros Hcap Hdays Hrun.
  destruct (completed_run_analysis json_loads yf_download agent t s e capital
              s' Hdays Hrun) as (d & v & final & rest & Hv & Hfirst & Hl & Ha).
  rewrite Ha. unfold analyze_sequence. rewrite Hl.
  pose proof (Q2R_pos capital Hcap) as Hc.
  assert (Hhd : (0 < hd 0 (value_column (portfolio_values (bt s'))))%R).
  { rewrite Hv. cbn. rewrite (Qeq_eqR _ _ Hfirst). exact Hc. }
  destruct (drawdown_claim_holds _ Hhd) as [_ (m & Hm & _ & i & Hi & Hmi)].
  destruct (drawdown_nth _ i Hhd Hi) as [_ Hle].
  eexists; exists (Q2R (final - capital) / Q2R capital)%R, m.
  split; [reflexivity |]. cbn [total_return max_drawdown].
  split; [apply xdiv_fin; Lra.lra |]. split; [exact Hm |].
  rewrite Hmi. exact Hle.
Qed.

Lemma completed_run_statistics_witness :
  exists s' : Sim,
    0 < 1000 /\ date_range 1 5 <> []
    /\ run_backtest json_decode rising_bars buy_5_agent
         (new_backtester "AAPL" 1 5 1000) = (Ok tt, s')
    /\ exists (perf : Performance) (tr m : R),
         analyze_performance (bt s') = Ok perf
         /\ total_return perf = Fin tr
         /\ max_drawdown perf = Fin m
         /\ (m <= 0)%R.
Proof.
  exists (snd (run_backtest json_decode rising_bars buy_5_agent
                 (new_backtester "AAPL" 1 5 1000))).
  assert (Hc : 0 < 1000) by reflexivity.
  assert (Hd : date_range 1 5 <> []) by discriminate.
  assert (Hr : run_backtest json_decode rising_bars buy_5_agent
                 (new_backtester "AAPL" 1 5 1000)
               = (Ok tt,
                  snd (run_backtest json_decode rising_bars buy_5_agent
                         (new_backtester "AAPL" 1 5 1000))))
    by (vm_compute; reflexivity).
  exact (conj Hc (conj Hd (conj Hr
           (completed_run_statistics json_decode rising_bars buy_5_agent
              "AAPL" 1 5 1000 _ Hc Hd Hr)))).
Defined.

(** X11.  With bars that all close at a positive price, a completed run
    of a fresh backtester with a positive capital cannot lose more than
    everything: the total return is a number that is at least [-1]. *)
Theorem total_return_at_least_minus_one
  (json_loads : pyval -> result pyval)
  (yf_download : string -> Z -> Z -> result (list Bar))
  (agent : string -> Z -> Z -> Portfolio -> result pyval)
  (t : string) (s e : Z) (capital : Q) (s' : Sim) :
  (forall (t' : string) (s0 e0 : Z) (raw : list Bar),
      yf_download t' s0 e0 = Ok raw ->
      Forall (fun bar => 0 < close bar) raw) ->
  0 < capital ->
  date_range s e <> [] ->
  run_backtest json_loads yf_download agent (new_backtester t s e capital)
  = (Ok tt, s') ->
  exists (perf : Performance) (tr : R),
    analyze_performance (bt s') = Ok perf
    /\ total_return perf = Fin tr
    /\ (-1 <= tr)%R.
Proof.
  intros Hpos Hcap Hdays Hrun.
  destruct (completed_run_analysis json_loads yf_download agent t s e capital
              s' Hdays Hrun) as (d & v & final & rest & Hv & Hfirst & Hl & Ha).
  rewrite Ha. unfold analyze_sequence. rewrite Hl.
  pose proof (Q2R_pos capital Hcap) as Hc.
  assert (Hfinal : 0 <= final).
  { destruct (last_value_In _ _ Hl) as (d' & Hin).
    assert (Hall : Forall (fun r => 0 <= snd r) (portfolio_values (bt s'))).
    { replace s' with (snd (run_backtest json_loads yf_download agent
                              (new_backtester t s e capital)))
        by now rewrite Hrun.
      unfold run_backtest.
      apply (for_each_keeps json_loads yf_download agent
               (fun b' => portfolio_ok (portfolio b')
                          /\ Forall (fun r => 0 <= snd r)
                               (portfolio_values b'))).
      - intros d0 s0. now apply simulate_day_keeps_ok.
      - split; [split; cbn; lra | constructor]. }
    rewrite Forall_forall in Hall. exact (Hall _ Hin). }
  apply Q2R_nonneg in Hfinal.
  eexists; exists (Q2R (final - capital) / Q2R capital)%R.
  split; [reflexivity |]. cbn [total_return].
  split; [apply xdiv_fin; Lra.lra |].
  rewrite Q2R_minus.
  apply Rmult_le_reg_r with (r := Q2R capital); [exact Hc |].
  unfold Rdiv. rewrite Rmult_assoc, Rinv_l by Lra.lra. Lra.lra.
Qed.

Lemma total_return_at_least_minus_one_witness :
  exists s' : Sim,
    0 < 1000 /\ date_range 1 5 <> []
    /\ run_backtest json_decode rising_bars buy_5_agent
         (new_backtester "AAPL" 1 5 1000) = (Ok tt, s')
    /\ exists (perf : Performance) (tr : R),
         analyze_performance (bt s') = Ok perf
         /\ total_return perf = Fin tr
         /\ (-1 <= tr)%R.
Proof.
  exists (snd (run_backtest json_decode rising_bars buy_5_agent
                 (new_backtester "AAPL" 1 5 1000))).
  assert (Hc : 0 < 1000) by reflexivity.
  assert (Hd : date_range 1 5 <> []) by discriminate.
  assert (Hr : run_backtest json_decode rising_bars buy_5_agent
                 (new_backtester "AAPL" 1 5 1000)
               = (Ok tt,
                  snd (run_backtest json_decode rising_bars buy_5_agent
                         (new_backtester "AAPL" 1 5 1000))))
    by (vm_compute; reflexivity).
  exact (conj Hc (conj Hd (conj Hr
           (total_return_at_least_minus_one json_decode rising_bars
              buy_5_agent "AAPL" 1 5 1000 _ rising_bars_positive
              Hc Hd Hr)))).
Defined.

Section AnalysisNeedsRecords.

Variable json_loads : pyval -> result pyval.
Variable yf_download : string -> Z -> Z -> result (list Bar).
Variable agent : string -> Z -> Z -> Portfolio -> result pyval.

Lemma simulate_day_marks_before_recording (d : Z) (s : Sim) :
  (portfolio_values (bt s) <> [] ->
   portfolio_value (portfolio (bt s)) <> None) ->
  portfolio_values
    (bt (snd (simulate_day json_loads yf_download agent d s))) <> [] ->
  portfolio_value
    (portfolio (bt (snd (simulate_day json_loads yf_download agent d s))))
  <> None.
Proof.
  intros H.
  destruct (simulate_day_steps json_loads yf_download agent d s)
    as [(e & _ & ->) | (price & p & _ & [(e & _ & ->) | (_ & ->)])];
    [exact H | |]; intros _; discriminate.
Qed.

End AnalysisNeedsRecords.

(** X12.  After a run of a fresh backtester, however it ended, the
    analyzer returns exactly when at least one day was recorded, and
    raises [KeyError] otherwise; it raises in particular when the range
    holds no business day. *)
Theorem analysis_needs_a_record
  (json_loads : pyval -> result pyval)
  (yf_download : string -> Z -> Z -> result (list Bar))
  (agent : string -> Z -> Z -> Portfolio -> result pyval)
  (t : string) (s e : Z) (capital : Q) :
  let after :=
    bt (snd (run_backtest json_loads yf_download agent
               (new_backtester t s e capital))) in
  (portfolio_values after <> [] ->
   exists perf : Performance, analyze_performance after = Ok perf)
  /\ (portfolio_values after = [] ->
      analyze_performance after = Raise KeyError)
  /\ (date_range s e = [] -> analyze_performance after = Raise KeyError).
Proof.
  intros after.
  assert (Hmark : portfolio_values after <> [] ->
                  portfolio_value (portfolio after) <> None).
  { subst after. unfold run_backtest.
    apply (for_each_keeps json_loads yf_download agent
             (fun b' => portfolio_values b' <> [] ->
                        portfolio_value (portfolio b') <> None)).
    - intros d st. apply simulate_day_marks_before_recording.
    - intros H. now destruct H. }
  assert (Hnone : portfolio_values after = [] ->
                  analyze_performance after = Raise KeyError).
  { intros E. unfold analyze_performance. now rewrite E. }
  split; [| split; [exact Hnone |]].
  - intros Hne. specialize (Hmark Hne). unfold analyze_performance.
    destruct (portfolio_values after) as [| r l]; [now destruct Hne |].
    destruct (portfolio_value (portfolio after)); [| now destruct Hmark].
    now eexists.
  - intros Hd. apply Hnone. subst after. unfold run_backtest.
    cbn [start_date end_date new_backtester]. now rewrite Hd.
Qed.

Lemma analysis_needs_a_record_witness :
  date_range 6 7 = []
  /\ analyze_performance
       (bt (snd (run_backtest json_decode rising_bars buy_5_agent
                   (new_backtester "AAPL" 6 7 1000))))
     = Raise KeyError.
Proof.
  assert (H : date_range 6 7 = []) by reflexivity.
  exact (conj H (proj2 (proj2 (analysis_needs_a_record json_decode
                                 rising_bars buy_5_agent "AAPL" 6 7 1000))
                   H)).
Defined.


(** ** On-balance volume: [calculate_obv] *)



Lemma obv_from_rising (rows : list Bar) :
  forall c acc : Q,
    rising_from c rows ->
    obv_from c acc rows = running_totals acc (map volume rows).
Proof.
  induction rows as [| b rows IH]; intros c acc H; [reflexivity |].
  destruct H as [Hlt Hrest]. cbn [obv_from map running_totals].
  destruct (Qlt_le_dec c (close b)) as [_ | Hle]; [| lra].
  now rewrite IH.
Qed.

Lemma obv_from_falling (rows : list Bar) :
  forall c acc : Q,
    falling_from c rows ->
    obv_from c acc rows
    = running_totals acc (map (fun b => - volume b) rows).
Proof.
  induction rows as [| b rows IH]; intros c acc H; [reflexivity |].
  destruct H as [Hlt Hrest]. cbn [obv_from map running_totals].
  destruct (Qlt_le_dec c (close b)) as [Hgt | _]; [lra |].
  destruct (Qlt_le_dec (close b) c) as [_ | Hle]; [| lra].
  unfold Qminus. now rewrite IH.
Qed.



(** X14.  While the close rises from every row to the next, on-balance
    volume is the running total of the volumes after the first row; while
    it falls, it is the running total of their negatives. *)
Theorem calculate_obv_monotone (b : Bar) (rows : list Bar) :
  (rising_from (close b) rows ->
   calculate_obv (b :: rows)
   = Ok (0 :: running_totals 0 (map volume rows)))
  /\ (falling_from (close b) rows ->
      calculate_obv (b :: rows)
      = Ok (0 :: running_totals 0 (map (fun r => - volume r) rows))).
Proof.
  split; intros H; unfold calculate_obv.
  - now rewrite obv_from_rising.
  - now rewrite obv_from_falling.
Qed.

Lemma calculate_obv_monotone_witness :
  rising_from 100 [mkBar 2 101 30; mkBar 3 102 20]
  /\ calculate_obv [mkBar 1 100 50; mkBar 2 101 30; mkBar 3 102 20]
     = Ok (0 :: running_totals 0 [30; 20]).
Proof.
  assert (H : rising_from (close (mkBar 1 100 50))
                [mkBar 2 101 30; mkBar 3 102 20])
    by (cbn; repeat split).
  exact (conj H (proj1 (calculate_obv_monotone (mkBar 1 100 50)
                          [mkBar 2 101 30; mkBar 3 102 20]) H)).
Defined.

Example obv_example :
  calculate_obv [mkBar 1 100 50; mkBar 2 101 30; mkBar 3 99 20;
                 mkBar 4 99 70]
  = Ok [0; 30; 10; 10].
Proof. reflexivity. Qed.


(** ** Confidence level: [calculate_confidence_level] *)

Lemma clamp_range (x : Q) : 0 <= py_min (py_max x 0) 1 <= 1.
Proof.
  unfold py_min, py_max.
  destruct (Qlt_le_dec x 0); destruct (Qlt_le_dec 1 _); split; lra.
Qed.

Lemma confidence_of_signals (a b c d price : Q) :
  ~ price == 0 ->
  calculate_confidence_level (signals_of a b c d price)
  = Ok (py_min (py_max (gap_change a b c d / price) 0) 1).
Proof.
  intros Hp. unfold calculate_confidence_level, signals_of. cbn.
  unfold py_div. destruct (Qeq_dec price 0); [contradiction | reflexivity].
Qed.

Lemma signal_missing (signals : list (string * Q)) (key : string) :
  ~ In key (map fst signals) -> signal signals key = Raise KeyError.
Proof.
  induction signals as [| [k v] l IH]; intros H; [reflexivity |].
  cbn in *. destruct (String.eqb_spec k key) as [-> | _]; [tauto |].
  apply IH. tauto.
Qed.

Lemma signal_result (signals : list (string * Q)) (key : string) :
  (exists v : Q, signal signals key = Ok v)
  \/ signal signals key = Raise KeyError.
Proof.
  induction signals as [| [k v] l IH]; [now right |].
  cbn. destruct (String.eqb k key); [left; now exists v | exact IH].
Qed.

(** X15.  A confidence level that is returned lies between 0 and 1.  With
    the five signals present and a price that is not zero it is returned,
    and it is the widening of the gap between the two moving averages
    relative to the price, cut off at 0 and 1: it is 0 when the gap has
    not widened and 1 when it has widened by the price or more (for a
    positive price), and it is the same when the two averages are
    exchanged. *)
Theorem confidence_level_range (a b c d price : Q) :
  ~ price == 0 ->
  exists conf : Q,
    calculate_confidence_level (signals_of a b c d price) = Ok conf
    /\ 0 <= conf <= 1
    /\ (0 < price -> gap_change a b c d <= 0 -> conf == 0)
    /\ (0 < price -> price <= gap_change a b c d -> conf == 1)
    /\ (0 < price -> 0 <= gap_change a b c d <= price ->
        conf == gap_change a b c d / price)
    /\ calculate_confidence_level (signals_of b a d c price) = Ok conf.
Proof.
  intros Hp. eexists. split; [now apply confidence_of_signals |].
  split; [apply clamp_range |].
  set (g := gap_change a b c d).
  split; [| split; [| split]].
  - intros Hpos Hle.
    assert (g / price <= 0) by (apply Qle_shift_div_r; [exact Hpos | lra]).
    unfold py_min, py_max.
    destruct (Qlt_le_dec (g / price) 0); destruct (Qlt_le_dec 1 _); lra.
  - intros Hpos Hge.
    assert (1 <= g / price) by (apply Qle_shift_div_l; [exact Hpos | lra]).
    unfold py_min, py_max.
    destruct (Qlt_le_dec (g / price) 0); destruct (Qlt_le_dec 1 _); lra.
  - intros Hpos [Hlo Hhi].
    assert (0 <= g / price) by (apply Qle_shift_div_l; [exact Hpos | lra]).
    assert (g / price <= 1) by (apply Qle_shift_div_r; [exact Hpos | lra]).
    unfold py_min, py_max.
    destruct (Qlt_le_dec (g / price) 0); destruct (Qlt_le_dec 1 _); lra.
  - rewrite (confidence_of_signals b a d c price Hp).
    subst g. unfold gap_change.
    now rewrite (Qabs_Qminus d c), (Qabs_Qminus b a).
Qed.

Lemma confidence_level_range_witness :
  ~ 100 == 0
  /\ exists conf : Q,
       calculate_confidence_level (signals_of 101 100 104 100 100) = Ok conf
       /\ 0 <= conf <= 1
       /\ (0 < 100 -> gap_change 101 100 104 100 <= 0 -> conf == 0)
       /\ (0 < 100 -> 100 <= gap_change 101 100 104 100 -> conf == 1)
       /\ (0 < 100 -> 0 <= gap_change 101 100 104 100 <= 100 ->
           conf == gap_change 101 100 104 100 / 100)
       /\ calculate_confidence_level (signals_of 100 101 100 104 100)
          = Ok conf.
Proof.
  assert (H : ~ 100 == 0) by discriminate.
  exact (conj H (confidence_level_range 101 100 104 100 100 H)).
Defined.

(** X16.  A signal that is missing makes [calculate_confidence_level]
    raise [KeyError]; it never makes up a value for it. *)
Theorem confidence_level_needs_all_signals (signals : list (string * Q))
  (key : string) :
  In key ["sma_5_prev"; "sma_20_prev"; "sma_5_curr"; "sma_20_curr";
          "current_price"]%string ->
  ~ In key (map fst signals) ->
  calculate_confidence_level signals = Raise KeyError.
Proof.
  intros Hkey Hmissing. pose proof (signal_missing signals key Hmissing) as E.
  unfold calculate_confidence_level.
  destruct (signal_result signals "sma_5_prev") as [(v1 & E1) | E1];
    rewrite E1; [cbn [bind] | reflexivity].
  destruct (signal_result signals "sma_20_prev") as [(v2 & E2) | E2];
    rewrite E2; [cbn [bind] | reflexivity].
  destruct (signal_result signals "sma_5_curr") as [(v3 & E3) | E3];
    rewrite E3; [cbn [bind] | reflexivity].
  destruct (signal_result signals "sma_20_curr") as [(v4 & E4) | E4];
    rewrite E4; [cbn [bind] | reflexivity].
  destruct (signal_result signals "current_price") as [(v5 & E5) | E5];
    rewrite E5; [cbn [bind] | reflexivity].
  exfalso. cbn in Hkey.
  destruct Hkey as [<- | [<- | [<- | [<- | [<- | []]]]]]; congruence.
Qed.

Lemma confidence_level_needs_all_signals_witness :
  let signals := [("sma_5_prev"%string, 101); ("sma_20_prev"%string, 100);
                  ("sma_5_curr"%string, 104); ("sma_20_curr"%string, 100)] in
  In "current_price"%string
     ["sma_5_prev"; "sma_20_prev"; "sma_5_curr"; "sma_20_curr";
      "current_price"]%string
  /\ ~ In "current_price"%string (map fst signals)
  /\ calculate_confidence_level signals = Raise KeyError.
Proof.
  intros signals.
  assert (Hk : In "current_price"%string
                 ["sma_5_prev"; "sma_20_prev"; "sma_5_curr"; "sma_20_curr";
                  "current_price"]%string) by (cbn; tauto).
  assert (Hm : ~ In "current_price"%string (map fst signals)).
  { cbn. intros [H | [H | [H | [H | []]]]]; discriminate H. }
  exact (conj Hk (conj Hm
           (confidence_level_needs_all_signals signals _ Hk Hm))).
Defined.


(** ** MACD: [calculate_macd] *)

Lemma ewm_from_length (alpha prev : Q) (xs : list Q) :
  List.length (ewm_from alpha prev xs) = List.length xs.
Proof.
  revert prev. induction xs as [| x xs IH]; intros prev; simpl;
    [| rewrite IH]; reflexivity.
Qed.

Lemma ewm_mean_length (span : Q) (xs : list Q) :
  List.length (ewm_mean span xs) = List.length xs.
Proof. destruct xs; simpl; [| rewrite ewm_from_length]; reflexivity. Qed.

Lemma sub_series_length (a b : list Q) :
  List.length a = List.length b ->
  List.length (sub_series a b) = List.length a.
Proof.
  intros H. unfold sub_series.
  rewrite length_map, length_combine, <- H. apply Nat.min_id.
Qed.

(** Averages that start related and are fed related values stay
    related, for any relation that the averaging step respects. *)
Lemma ewm_from_related (R : Q -> Q -> Prop) (alpha alpha' : Q) :
  (forall p p' x x' : Q,
      R p p' -> R x x' ->
      R ((1 - alpha) * p + alpha * x) ((1 - alpha') * p' + alpha' * x')) ->
  forall (xs xs' : list Q) (p p' : Q),
    Forall2 R xs xs' -> R p p' ->
    Forall2 R (ewm_from alpha p xs) (ewm_from alpha' p' xs').
Proof.
  intros Hstep xs xs' p p' Hxs. revert p p'.
  induction Hxs as [| x x' xs xs' Hx Hxs IH]; intros p p' Hp;
    cbn [ewm_from]; constructor.
  - now apply Hstep.
  - apply IH. now apply Hstep.
Qed.

Lemma ewm_mean_related (R : Q -> Q -> Prop) (span span' : Q) :
  (forall p p' x x' : Q,
      R p p' -> R x x' ->
      R ((1 - 2 / (span + 1)) * p + 2 / (span + 1) * x)
        ((1 - 2 / (span' + 1)) * p' + 2 / (span' + 1) * x')) ->
  forall xs xs' : list Q,
    Forall2 R xs xs' -> Forall2 R (ewm_mean span xs) (ewm_mean span' xs').
Proof.
  intros Hstep xs xs' [| x x' l l' Hx Hl]; cbn [ewm_mean]; constructor;
    [exact Hx |].
  now apply ewm_from_related.
Qed.

Lemma sub_series_related (R1 R2 R : Q -> Q -> Prop) :
  (forall a a' b b' : Q, R1 a a' -> R2 b b' -> R (a - b) (a' - b')) ->
  forall a a' b b' : list Q,
    Forall2 R1 a a' -> Forall2 R2 b b' ->
    Forall2 R (sub_series a b) (sub_series a' b').
Proof.
  intros Hsub a a' b b' Ha. revert b b'.
  induction Ha as [| x x' a a' Hx Ha IH]; intros b b' Hb;
    [constructor |].
  destruct Hb as [| y y' b b' Hy Hb]; [constructor |].
  unfold sub_series. cbn [combine map fst snd]. constructor.
  - now apply Hsub.
  - now apply IH.
Qed.

Lemma Forall2_map_r (A B : Type) (R : A -> B -> Prop) (f : A -> B)
  (l : list A) :
  (forall x : A, R x (f x)) -> Forall2 R l (map f l).
Proof. intros H. induction l; simpl; constructor; auto. Qed.

(** The two lines for closes related by [R], when the averaging step and
    the difference respect it. *)
Lemma calculate_macd_related (R D : Q -> Q -> Prop) :
  (forall (alpha p p' x x' : Q),
      R p p' -> R x x' ->
      R ((1 - alpha) * p + alpha * x) ((1 - alpha) * p' + alpha * x')) ->
  (forall (alpha p p' x x' : Q),
      D p p' -> D x x' ->
      D ((1 - alpha) * p + alpha * x) ((1 - alpha) * p' + alpha * x')) ->
  (forall a a' b b' : Q, R a a' -> R b b' -> D (a - b) (a' - b')) ->
  forall df df' : list Bar,
    Forall2 R (map close df) (map close df') ->
    Forall2 D (fst (calculate_macd df)) (fst (calculate_macd df'))
    /\ Forall2 D (snd (calculate_macd df)) (snd (calculate_macd df')).
Proof.
  intros HR HD Hsub df df' Hc.
  assert (Hm : Forall2 D (fst (calculate_macd df)) (fst (calculate_macd df'))).
  { unfold calculate_macd. cbn [fst].
    apply (sub_series_related R R D Hsub);
      apply ewm_mean_related; auto. }
  split; [exact Hm |].
  unfold calculate_macd in *. cbn [fst snd] in *.
  apply ewm_mean_related; auto.
Qed.

Lemma map_close_closes (f : Q -> Q) (df : list Bar) :
  map close (map_close f df) = map f (map close df).
Proof.
  unfold map_close. rewrite !map_map. reflexivity.
Qed.

(** X17.  MACD only sees price differences, and in proportion: adding one
    amount to every close changes neither the MACD line nor the signal
    line, and multiplying every close by a factor multiplies both lines by
    it. *)
Theorem calculate_macd_shift_and_scale (df : list Bar) (c k : Q) :
  (Forall2 Qeq (fst (calculate_macd df))
               (fst (calculate_macd (map_close (fun x => x + c) df)))
   /\ Forall2 Qeq (snd (calculate_macd df))
                  (snd (calculate_macd (map_close (fun x => x + c) df))))
  /\ (Forall2 (fun y y' => y' == k * y)
        (fst (calculate_macd df))
        (fst (calculate_macd (map_close (fun x => k * x) df)))
      /\ Forall2 (fun y y' => y' == k * y)
           (snd (calculate_macd df))
           (snd (calculate_macd (map_close (fun x => k * x) df)))).
Proof.
  split.
  - apply (calculate_macd_related (fun y y' => y' == y + c) Qeq).
    + intros alpha p p' x x' Hp Hx. rewrite Hp, Hx. ring.
    + intros alpha p p' x x' Hp Hx. now rewrite Hp, Hx.
    + intros a a' b b' Ha Hb. rewrite Ha, Hb. ring.
    + rewrite map_close_closes. apply Forall2_map_r. reflexivity.
  - apply (calculate_macd_related (fun y y' => y' == k * y)
             (fun y y' => y' == k * y)).
    + intros alpha p p' x x' Hp Hx. rewrite Hp, Hx. ring.
    + intros alpha p p' x x' Hp Hx. rewrite Hp, Hx. ring.
    + intros a a' b b' Ha Hb. rewrite Ha, Hb. ring.
    + rewrite map_close_closes. apply Forall2_map_r. reflexivity.
Qed.

Lemma weighted_between (alpha lo hi p x : Q) :
  0 <= alpha <= 1 -> lo <= p <= hi -> lo <= x <= hi ->
  lo <= (1 - alpha) * p + alpha * x <= hi.
Proof.
  intros [Ha0 Ha1] [Hp0 Hp1] [Hx0 Hx1].
  assert (0 <= (1 - alpha) * (p - lo)) by (apply Qmult_le_0_compat; lra).
  assert (0 <= alpha * (x - lo)) by (apply Qmult_le_0_compat; lra).
  assert (0 <= (1 - alpha) * (hi - p)) by (apply Qmult_le_0_compat; lra).
  assert (0 <= alpha * (hi - x)) by (apply Qmult_le_0_compat; lra).
  split; lra.
Qed.

Lemma ewm_from_between (alpha lo hi : Q) :
  0 <= alpha <= 1 ->
  forall (xs : list Q) (p : Q),
    lo <= p <= hi ->
    Forall (fun x => lo <= x <= hi) xs ->
    Forall (fun y => lo <= y <= hi) (ewm_from alpha p xs).
Proof.
  intros Ha xs. induction xs as [| x xs IH]; intros p Hp Hxs;
    [constructor |].
  inversion Hxs as [| ? ? Hx Hxs']; subst. cbn [ewm_from].
  pose proof (weighted_between alpha lo hi p x Ha Hp Hx) as Hy.
  constructor; [exact Hy | now apply IH].
Qed.

Lemma ewm_mean_between (span lo hi : Q) (xs : list Q) :
  0 <= 2 / (span + 1) <= 1 ->
  Forall (fun x => lo <= x <= hi) xs ->
  Forall (fun y => lo <= y <= hi) (ewm_mean span xs).
Proof.
  intros Ha Hxs. destruct xs as [| x xs]; [constructor |].
  inversion Hxs as [| ? ? Hx Hxs']; subst. cbn [ewm_mean].
  constructor; [exact Hx | now apply ewm_from_between].
Qed.

Lemma sub_series_between (lo hi : Q) (a : list Q) :
  forall b : list Q,
    Forall (fun x => lo <= x <= hi) a ->
    Forall (fun x => lo <= x <= hi) b ->
    Forall (fun y => - (hi - lo) <= y <= hi - lo) (sub_series a b).
Proof.
  induction a as [| x a IH]; intros b Ha Hb; [constructor |].
  destruct b as [| y b]; [constructor |].
  inversion Ha; inversion Hb; subst.
  unfold sub_series. cbn [combine map fst snd].
  constructor; [lra | now apply IH].
Qed.

Lemma weight_12 : 0 <= 2 / (12 + 1) <= 1.
Proof. split; discriminate. Qed.

Lemma weight_26 : 0 <= 2 / (26 + 1) <= 1.
Proof. split; discriminate. Qed.

Lemma weight_9 : 0 <= 2 / (9 + 1) <= 1.
Proof. split; discriminate. Qed.

(** X18.  Both lines of [calculate_macd] have one entry per row and start
    at zero.  While every close lies between [lo] and [hi], no entry of
    the MACD line or of the signal line exceeds [hi - lo] in absolute
    value; closes that do not move give two lines of zeros. *)
Theorem calculate_macd_bounded (df : list Bar) (lo hi : Q) :
  Forall (fun b => lo <= close b <= hi) df ->
  List.length (fst (calculate_macd df)) = List.length df
  /\ List.length (snd (calculate_macd df)) = List.length df
  /\ (forall b rows, df = b :: rows ->
        hd 1 (fst (calculate_macd df)) == 0
        /\ hd 1 (snd (calculate_macd df)) == 0)
  /\ Forall (fun y => Qabs y <= hi - lo) (fst (calculate_macd df))
  /\ Forall (fun y => Qabs y <= hi - lo) (snd (calculate_macd df)).
Proof.
  intros Hdf.
  assert (Hc : Forall (fun x => lo <= x <= hi) (map close df)).
  { apply Forall_map. exact Hdf. }
  unfold calculate_macd. cbn [fst snd].
  assert (Hlen : List.length (sub_series (ewm_mean 12 (map close df))
                                         (ewm_mean 26 (map close df)))
                 = List.length df).
  { rewrite sub_series_length; rewrite !ewm_mean_length;
      [apply length_map | reflexivity]. }
  assert (Hm : Forall (fun y => - (hi - lo) <= y <= hi - lo)
                 (sub_series (ewm_mean 12 (map close df))
                             (ewm_mean 26 (map close df)))).
  { apply sub_series_between; apply ewm_mean_between;
      auto using weight_12, weight_26. }
  pose proof (ewm_mean_between 9 _ _ _ weight_9 Hm) as Hs.
  split; [exact Hlen |]. split; [now rewrite ewm_mean_length |].
  split; [| split].
  - intros b rows ->. cbn. split; ring.
  - eapply Forall_impl; [| exact Hm].
    intros y Hy. now apply Qabs_Qle_condition.
  - eapply Forall_impl; [| exact Hs].
    intros y Hy. now apply Qabs_Qle_condition.
Qed.

Lemma calculate_macd_bounded_witness :
  let df := [mkBar 1 100 50; mkBar 2 104 30; mkBar 3 98 20] in
  Forall (fun b => 98 <= close b <= 104) df
  /\ Forall (fun y => Qabs y <= 104 - 98) (fst (calculate_macd df))
  /\ Forall (fun y => Qabs y <= 104 - 98) (snd (calculate_macd df)).
Proof.
  intros df.
  assert (H : Forall (fun b => 98 <= close b <= 104) df)
    by (repeat constructor; discriminate).
  exact (conj H (proj2 (proj2 (proj2 (calculate_macd_bounded df 98 104 H))))).
Defined.

Example macd_example :
  nth 1 (fst (calculate_macd [mkBar 1 100 0; mkBar 2 113 0])) 0 == 28 / 27.
Proof. reflexivity. Qed.


(** ** Rolling windows *)

Section RollingProperties.

Local Open Scope R_scope.

Lemma window_at_length (A : Type) (w i : nat) (s : list A) :
  (i < List.length s)%nat ->
  List.length (window_at w i s) = Nat.min w (S i).
Proof.
  intros Hi. unfold window_at. rewrite length_firstn, length_skipn. lia.
Qed.

Lemma window_at_map (A B : Type) (f : A -> B) (w i : nat) (s : list A) :
  window_at w i (map f s) = map f (window_at w i s).
Proof. unfold window_at. now rewrite skipn_map, firstn_map. Qed.

Lemma rolling_length (f : list xreal -> xreal) (w : nat) (s : list xreal) :
  List.length (rolling f w s) = List.length s.
Proof. unfold rolling. now rewrite length_map, length_seq. Qed.

(** A rolling statistic as a function of the row number. *)
Lemma rolling_map_Fin (f : list xreal -> xreal) (w : nat) (g : list R) :
  rolling f w (map Fin g)
  = map (fun i => if (S i <? w)%nat then NaN
                  else f (map Fin (window_at w i g)))
        (seq 0 (List.length g)).
Proof.
  unfold rolling. rewrite length_map. apply map_ext_in.
  intros i Hi. apply in_seq in Hi. cbv zeta.
  rewrite window_at_map, dropna_map_Fin, length_map, window_at_length by lia.
  destruct (Nat.ltb_spec (S i) w); destruct (Nat.ltb_spec (Nat.min w (S i)) w);
    try reflexivity; lia.
Qed.

Lemma series_mean_of_numbers (l : list R) :
  l <> [] -> series_mean (map Fin l) = Fin (mean l).
Proof. exact (series_mean_Fin l). Qed.

Lemma series_std_of_numbers (l : list R) :
  (2 <= List.length l)%nat -> series_std (map Fin l) = Fin (sample_std l).
Proof. exact (series_std_Fin l). Qed.

Lemma series_std_of_one (l : list R) :
  (List.length l <= 1)%nat -> series_std (map Fin l) = NaN.
Proof.
  intros H. unfold series_std, series_var.
  rewrite dropna_map_Fin, length_map.
  destruct (Nat.leb_spec (List.length l) 1); [reflexivity | lia].
Qed.

Lemma zip_with_maps (A : Type) (op : xreal -> xreal -> xreal)
  (F G : A -> xreal) (l : list A) :
  zip_with op (map F l) (map G l) = map (fun i => op (F i) (G i)) l.
Proof.
  unfold zip_with. induction l as [| x l IH]; simpl; [| rewrite IH];
    reflexivity.
Qed.

Lemma Rsum_nonneg (l : list R) : Forall (fun x => 0 <= x) l -> 0 <= Rsum l.
Proof. induction 1; simpl; Lra.lra. Qed.

Lemma mean_nonneg (l : list R) : Forall (fun x => 0 <= x) l -> 0 <= mean l.
Proof.
  intros H. unfold mean. destruct l as [| x l].
  - simpl. unfold Rdiv. rewrite Rmult_0_l. Lra.lra.
  - apply Rmult_le_pos; [now apply Rsum_nonneg |].
    left. apply Rinv_0_lt_compat, (INR_length_pos _ (x :: l)). discriminate.
Qed.

Lemma in_firstn (A : Type) (n : nat) (l : list A) (x : A) :
  In x (firstn n l) -> In x l.
Proof.
  intros H. rewrite <- (firstn_skipn n l). apply in_or_app. now left.
Qed.

Lemma in_skipn (A : Type) (n : nat) (l : list A) (x : A) :
  In x (skipn n l) -> In x l.
Proof.
  intros H. rewrite <- (firstn_skipn n l). apply in_or_app. now right.
Qed.

Lemma Forall_window (A : Type) (P : A -> Prop) (w i : nat) (s : list A) :
  Forall P s -> Forall P (window_at w i s).
Proof.
  intros H. unfold window_at. apply Forall_forall. intros x Hx.
  apply in_firstn, in_skipn in Hx.
  rewrite Forall_forall in H. now apply H.
Qed.

(** The entry of row [i] of a series given row by row. *)
Lemma map_nth_seq_entry (F : nat -> xreal) (i n : nat) :
  (i < n)%nat -> nth i (map F (seq 0 n)) NaN = F i.
Proof.
  intros Hi. rewrite (nth_indep _ NaN (F 0%nat))
    by (now rewrite length_map, length_seq).
  now rewrite map_nth, seq_nth.
Qed.

End RollingProperties.


(** ** Relative strength: [calculate_rsi] *)

Section RsiProperties.

Local Open Scope R_scope.

Local Abbreviation rsi_entry :=
  (fun ga la : xreal =>
     xsub (Fin 100) (xdiv (Fin 100) (xadd (Fin 1) (xdiv ga la)))).

Lemma Rmax_0_cases (d : R) :
  (0 < d /\ Rmax d 0 = d) \/ (d <= 0 /\ Rmax d 0 = 0).
Proof.
  destruct (Rlt_dec 0 d) as [H | H].
  - left. split; [exact H | apply Rmax_left; Lra.lra].
  - right. split; [Lra.lra | apply Rmax_right; Lra.lra].
Qed.

Lemma gains_from (s : list R) (prev : R) :
  map fillna0 (map where_positive (diff_from prev s))
  = map Fin (map fst (moves_from prev s)).
Proof.
  revert prev. induction s as [| v s IH]; intros prev; [reflexivity |].
  cbn [diff_from moves_from map fst]. rewrite IH. f_equal.
  unfold where_positive.
  destruct (Rmax_0_cases (v - prev)) as [[H ->] | [H ->]];
    destruct (Rlt_dec 0 (v - prev)); try reflexivity; Lra.lra.
Qed.

Lemma losses_from (s : list R) (prev : R) :
  map fillna0 (map (fun x => xopp (where_negative x)) (diff_from prev s))
  = map Fin (map snd (moves_from prev s)).
Proof.
  revert prev. induction s as [| v s IH]; intros prev; [reflexivity |].
  cbn [diff_from moves_from map snd]. rewrite IH. f_equal.
  unfold where_negative.
  destruct (Rmax_0_cases (prev - v)) as [[H ->] | [H ->]];
    destruct (Rlt_dec (v - prev) 0); cbn [xopp fillna0]; f_equal;
    Lra.lra.
Qed.

Lemma gains_of_closes (s : list R) :
  map fillna0 (map where_positive (diff s)) = map Fin (map fst (moves s)).
Proof.
  destruct s as [| v s]; [reflexivity |].
  cbn [diff moves map fst]. now rewrite gains_from.
Qed.

Lemma losses_of_closes (s : list R) :
  map fillna0 (map (fun x => xopp (where_negative x)) (diff s))
  = map Fin (map snd (moves s)).
Proof.
  destruct s as [| v s]; [reflexivity |].
  cbn [diff moves map snd]. rewrite losses_from.
  cbn [where_negative xopp fillna0]. f_equal. f_equal. Lra.lra.
Qed.

Lemma moves_from_length (s : list R) (prev : R) :
  List.length (moves_from prev s) = List.length s.
Proof. revert prev. induction s; intros prev; simpl; auto. Qed.

Lemma moves_length (s : list R) : List.length (moves s) = List.length s.
Proof. destruct s; simpl; auto using moves_from_length. Qed.

Lemma moves_from_nonneg (s : list R) (prev : R) :
  Forall (fun m => 0 <= fst m /\ 0 <= snd m) (moves_from prev s).
Proof.
  revert prev. induction s as [| v s IH]; intros prev; constructor;
    [| apply IH].
  cbn. split; apply Rmax_r.
Qed.

Lemma moves_nonneg (s : list R) :
  Forall (fun m => 0 <= fst m /\ 0 <= snd m) (moves s).
Proof.
  destruct s as [| v s]; constructor; [cbn; Lra.lra |].
  apply moves_from_nonneg.
Qed.

(** The entry of row [i], from the rises and the falls in its window. *)
Lemma calculate_rsi_rows (prices_df : list Bar) (period : nat) :
  calculate_rsi prices_df period
  = map (fun i =>
           if (S i <? period)%nat then NaN
           else
             let win := window_at period i (moves (close_column prices_df)) in
             rsi_entry (series_mean (map Fin (map fst win)))
                       (series_mean (map Fin (map snd win))))
        (seq 0 (List.length prices_df)).
Proof.
  unfold calculate_rsi. cbv zeta.
  rewrite gains_of_closes, losses_of_closes, !rolling_map_Fin.
  rewrite !length_map, moves_length.
  replace (List.length (close_column prices_df)) with (List.length prices_df)
    by (unfold close_column; now rewrite length_map).
  rewrite zip_with_maps, map_map.
  apply map_ext. intros i. rewrite !window_at_map.
  destruct (S i <? period)%nat; reflexivity.
Qed.

(** The three cases of an entry. *)
Lemma rsi_entry_cases (ga la : R) :
  0 <= ga -> 0 <= la ->
  (la = 0 -> ga = 0 -> rsi_entry (Fin ga) (Fin la) = NaN)
  /\ (la = 0 -> 0 < ga -> rsi_entry (Fin ga) (Fin la) = Fin 100)
  /\ (0 < la ->
      rsi_entry (Fin ga) (Fin la) = Fin (100 * ga / (ga + la))
      /\ 0 <= 100 * ga / (ga + la) < 100).
Proof.
  intros Hga Hla. split; [| split].
  - intros -> ->. now rewrite xdiv_zero_zero.
  - intros -> Hpos. rewrite xdiv_by_zero, xinf_times_pos by exact Hpos.
    cbn. f_equal. Lra.lra.
  - intros Hpos. rewrite (xdiv_fin ga la) by Lra.lra.
    assert (Hq : 0 <= ga / la).
    { apply Rmult_le_pos; [exact Hga |]. left. now apply Rinv_0_lt_compat. }
    cbn [xadd]. rewrite xdiv_fin by Lra.lra. rewrite xsub_fin.
    assert (Hsum : 0 < ga + la) by Lra.lra.
    split.
    + f_equal. field. split; Lra.lra.
    + assert (Hr : 0 <= ga / (ga + la) < 1).
      { split.
        - apply Rmult_le_pos; [exact Hga |].
          left. now apply Rinv_0_lt_compat.
        - apply Rmult_lt_reg_r with (r := ga + la); [exact Hsum |].
          unfold Rdiv. rewrite Rmult_assoc, Rinv_l by Lra.lra. Lra.lra. }
      replace (100 * ga / (ga + la)) with (100 * (ga / (ga + la)))
        by (unfold Rdiv; ring).
      Lra.lra.
Qed.

Lemma window_means (period i : nat) (s : list R) :
  (1 <= period)%nat -> (i < List.length s)%nat ->
  let win := window_at period i (moves s) in
  series_mean (map Fin (map fst win)) = Fin (mean (map fst win))
  /\ series_mean (map Fin (map snd win)) = Fin (mean (map snd win))
  /\ 0 <= mean (map fst win) /\ 0 <= mean (map snd win).
Proof.
  intros Hp Hi win.
  assert (Hlen : List.length win = Nat.min period (S i)).
  { apply window_at_length. now rewrite moves_length. }
  assert (Hne : win <> []).
  { intros E. rewrite E in Hlen. simpl in Hlen. lia. }
  pose proof (Forall_window _ _ period i _ (moves_nonneg s)) as Hnn.
  fold win in Hnn.
  repeat split.
  - apply series_mean_of_numbers. destruct win; [easy | discriminate].
  - apply series_mean_of_numbers. destruct win; [easy | discriminate].
  - apply mean_nonneg, Forall_map.
    eapply Forall_impl; [| exact Hnn]. now intros m [H _].
  - apply mean_nonneg, Forall_map.
    eapply Forall_impl; [| exact Hnn]. now intros m [_ H].
Qed.

End RsiProperties.

(** X19.  [calculate_rsi] returns one entry per row; the entries of the
    rows before the first full window are NaN; and every entry is either
    NaN or a number between 0 and 100. *)
Theorem calculate_rsi_range (prices_df : list Bar) (period : nat) :
  List.length (calculate_rsi prices_df period) = List.length prices_df
  /\ (forall i : nat,
        (S i < period)%nat -> (i < List.length prices_df)%nat ->
        nth i (calculate_rsi prices_df period) (Fin 0) = NaN)
  /\ Forall (fun x => x = NaN
                      \/ exists r : R, x = Fin r /\ (0 <= r <= 100)%R)
            (calculate_rsi prices_df period).
Proof.
  rewrite calculate_rsi_rows. split; [| split].
  - now rewrite length_map, length_seq.
  - intros i Hi Hlen.
    rewrite (nth_indep _ (Fin 0) NaN) by (now rewrite length_map, length_seq).
    rewrite map_nth_seq_entry by exact Hlen.
    destruct (Nat.ltb_spec (S i) period); [reflexivity | lia].
  - apply Forall_map, Forall_forall. intros i Hi. apply in_seq in Hi.
    destruct (Nat.ltb_spec (S i) period) as [_ | Hfull]; [now left |].
    cbv zeta.
    destruct period as [| p].
    { left. reflexivity. }
    destruct (window_means (S p) i (close_column prices_df))
      as (-> & -> & Hg & Hl);
      [lia | unfold close_column; rewrite length_map; lia |].
    destruct (rsi_entry_cases _ _ Hg Hl) as (Hnan & Hfull' & Hnum).
    set (ga := mean (map fst _)) in *. set (la := mean (map snd _)) in *.
    destruct (Rle_lt_or_eq_dec 0 la Hl) as [Hpos | <-].
    + destruct (Hnum Hpos) as [-> Hr]. right. eexists. split; [reflexivity |].
      Lra.lra.
    + destruct (Rle_lt_or_eq_dec 0 ga Hg) as [Hgpos | <-].
      * rewrite (Hfull' eq_refl Hgpos). right. exists 100%R.
        split; [reflexivity | Lra.lra].
      * left. now apply Hnan.
Qed.

(** X20.  Once a window of [period] rows is full, the entry of
    [calculate_rsi] is decided by the average rise [g] and the average
    fall [l] of the closes over the window: it is [100 * g / (g + l)] when
    some close fell, 100 when none fell and some rose, and NaN when the
    closes did not move. *)
Theorem calculate_rsi_entry (prices_df : list Bar) (period i : nat) :
  (1 <= period)%nat -> (period <= S i)%nat ->
  (i < List.length prices_df)%nat ->
  let win := window_at period i (moves (close_column prices_df)) in
  let g := mean (map fst win) in
  let l := mean (map snd win) in
  let entry := nth i (calculate_rsi prices_df period) (Fin 0) in
  (0 <= g)%R /\ (0 <= l)%R
  /\ ((0 < l)%R -> entry = Fin (100 * g / (g + l))%R)
  /\ (l = 0%R -> (0 < g)%R -> entry = Fin 100)
  /\ (l = 0%R -> g = 0%R -> entry = NaN).
Proof.
  intros Hp Hfull Hi win g l entry.
  destruct (window_means period i (close_column prices_df))
    as (Eg & El & Hg & Hl);
    [exact Hp | unfold close_column; now rewrite length_map |].
  fold win in Eg, El, Hg, Hl. fold g in Eg, Hg. fold l in El, Hl.
  assert (E : entry
              = xsub (Fin 100)
                  (xdiv (Fin 100) (xadd (Fin 1) (xdiv (Fin g) (Fin l))))).
  { subst entry. rewrite calculate_rsi_rows.
    rewrite (nth_indep _ (Fin 0) NaN) by (now rewrite length_map, length_seq).
    rewrite map_nth_seq_entry by exact Hi.
    destruct (Nat.ltb_spec (S i) period); [lia |].
    cbv zeta. fold win. now rewrite Eg, El. }
  destruct (rsi_entry_cases g l Hg Hl) as (Hnan & Hhundred & Hnum).
  rewrite E. split; [exact Hg |]. split; [exact Hl |].
  split; [intros H; now apply Hnum |].
  split; [exact Hhundred | exact Hnan].
Qed.

Lemma calculate_rsi_entry_witness :
  let df := [mkBar 1 100 0; mkBar 2 102 0; mkBar 3 101 0] in
  (1 <= 2)%nat /\ (2 <= 3)%nat /\ (2 < List.length df)%nat
  /\ let win := window_at 2 2 (moves (close_column df)) in
     let g := mean (map fst win) in
     let l := mean (map snd win) in
     let entry := nth 2 (calculate_rsi df 2) (Fin 0) in
     (0 <= g)%R /\ (0 <= l)%R
     /\ ((0 < l)%R -> entry = Fin (100 * g / (g + l))%R)
     /\ (l = 0%R -> (0 < g)%R -> entry = Fin 100)
     /\ (l = 0%R -> g = 0%R -> entry = NaN).
Proof.
  intros df.
  assert (H1 : (1 <= 2)%nat) by lia.
  assert (H2 : (2 <= 3)%nat) by lia.
  assert (H3 : (2 < List.length df)%nat) by (simpl; lia).
  exact (conj H1 (conj H2 (conj H3 (calculate_rsi_entry df 2 2 H1 H2 H3)))).
Defined.


(** ** Bollinger bands: [calculate_bollinger_bands] *)

Section BollingerProperties.

Local Open Scope R_scope.

Lemma calculate_bollinger_rows (prices_df : list Bar) (window : nat) :
  let closes := close_column prices_df in
  let band (op : xreal -> xreal -> xreal) :=
    map (fun i =>
           op (if (S i <? window)%nat then NaN
               else series_mean (map Fin (window_at window i closes)))
              (xmul (if (S i <? window)%nat then NaN
                     else series_std (map Fin (window_at window i closes)))
                    (Fin 2)))
        (seq 0 (List.length prices_df)) in
  calculate_bollinger_bands prices_df window = (band xadd, band xsub).
Proof.
  cbv zeta. unfold calculate_bollinger_bands.
  rewrite !rolling_map_Fin.
  replace (List.length (close_column prices_df)) with (List.length prices_df)
    by (unfold close_column; now rewrite length_map).
  rewrite map_map, !zip_with_maps. reflexivity.
Qed.

Lemma sample_std_nonneg (l : list R) : 0 <= sample_std l.
Proof. apply sqrt_pos. Qed.

Lemma all_equal_repeat (c : R) (l : list R) :
  Forall (fun x => x = c) l -> l = repeat c (List.length l).
Proof.
  induction 1 as [| x l Hx Hl IH]; [reflexivity |].
  cbn. now rewrite Hx, <- IH.
Qed.

End BollingerProperties.

(** X21.  [calculate_bollinger_bands] returns two bands with one entry
    per row.  Both entries of a row are NaN before the first full window,
    and on every row when the window is of one row or none (a single
    close has no sample deviation).  On a full window of two rows or more
    the bands are the mean [m] of the closes in the window plus and minus
    twice their sample standard deviation [sd], so that the lower band is
    never above the upper one; closes that are all equal in the window
    put both bands on that close. *)
Theorem calculate_bollinger_bands_rows (prices_df : list Bar)
  (window i : nat) :
  (i < List.length prices_df)%nat ->
  let upper := fst (calculate_bollinger_bands prices_df window) in
  let lower := snd (calculate_bollinger_bands prices_df window) in
  let win := window_at window i (close_column prices_df) in
  let m := mean win in
  let sd := sample_std win in
  List.length upper = List.length prices_df
  /\ List.length lower = List.length prices_df
  /\ ((S i < window)%nat \/ (window <= 1)%nat ->
      nth i upper (Fin 0) = NaN /\ nth i lower (Fin 0) = NaN)
  /\ ((2 <= window)%nat -> (window <= S i)%nat ->
      nth i upper (Fin 0) = Fin (m + sd * 2)%R
      /\ nth i lower (Fin 0) = Fin (m - sd * 2)%R
      /\ (m - sd * 2 <= m <= m + sd * 2)%R
      /\ forall c : R,
           Forall (fun x => x = c) win ->
           nth i upper (Fin 0) = Fin c /\ nth i lower (Fin 0) = Fin c).
Proof.
  intros Hi upper lower win m sd.
  pose proof (calculate_bollinger_rows prices_df window) as Hrows.
  cbv zeta in Hrows.
  subst upper lower. rewrite Hrows. cbn [fst snd].
  split; [now rewrite length_map, length_seq |].
  split; [now rewrite length_map, length_seq |].
  rewrite !(nth_indep _ (Fin 0) NaN) by (now rewrite length_map, length_seq).
  rewrite !map_nth_seq_entry by exact Hi.
  fold win.
  assert (Hwin : List.length win = Nat.min window (S i)).
  { apply window_at_length. unfold close_column. now rewrite length_map. }
  split.
  - intros [Hearly | Hsmall].
    + destruct (Nat.ltb_spec (S i) window); [now split | lia].
    + destruct (Nat.ltb_spec (S i) window); [now split |].
      rewrite series_std_of_one by lia.
      split; now destruct (series_mean (map Fin win)).
  - intros Hw Hfull.
    destruct (Nat.ltb_spec (S i) window); [lia |].
    rewrite series_mean_of_numbers, series_std_of_numbers
      by (try lia; intros E; rewrite E in Hwin; simpl in Hwin; lia).
    fold m sd. pose proof (sample_std_nonneg win) as Hsd. fold sd in Hsd.
    split; [reflexivity |]. split; [reflexivity |].
    split; [Lra.lra |].
    intros c Hc. apply all_equal_repeat in Hc.
    assert (Hm : m = c).
    { subst m. rewrite Hc. apply mean_repeat. lia. }
    assert (Hs : sd = 0%R).
    { subst sd. rewrite Hc. apply sample_std_repeat. lia. }
    cbn [xmul xadd xsub xopp]. rewrite Hm, Hs.
    split; f_equal; Lra.lra.
Qed.

Lemma calculate_bollinger_bands_rows_witness :
  let df := [mkBar 1 100 0; mkBar 2 100 0; mkBar 3 100 0] in
  (2 < List.length df)%nat /\ (2 <= 2)%nat /\ (2 <= 3)%nat
  /\ Forall (fun x => x = Q2R 100) (window_at 2 2 (close_column df))
  /\ nth 2 (fst (calculate_bollinger_bands df 2)) (Fin 0) = Fin (Q2R 100)
  /\ nth 2 (snd (calculate_bollinger_bands df 2)) (Fin 0) = Fin (Q2R 100).
Proof.
  intros df.
  assert (Hi : (2 < List.length df)%nat) by (simpl; lia).
  assert (Hw : (2 <= 2)%nat) by lia.
  assert (Hf : (2 <= 3)%nat) by lia.
  assert (Hc : Forall (fun x => x = Q2R 100)
                 (window_at 2 2 (close_column df)))
    by (repeat constructor).
  destruct (calculate_bollinger_bands_rows df 2 2 Hi)
    as (_ & _ & _ & Hbands).
  destruct (Hbands Hw Hf) as (_ & _ & _ & Hflat).
  exact (conj Hi (conj Hw (conj Hf (conj Hc (Hflat _ Hc))))).
Defined.


(** ** Results store: [backup_and_delete_historical_values] *)

Lemma same_key_true (a b : Row) : same_key a b = true <-> key a = key b.
Proof.
  unfold same_key, key. rewrite andb_true_iff, String.eqb_eq, Z.eqb_eq.
  split; [intros [-> ->]; reflexivity | intros E; now inversion E].
Qed.

Lemma same_key_false (a b : Row) : same_key a b = false <-> key a <> key b.
Proof.
  rewrite <- same_key_true. destruct (same_key a b); split; congruence.
Qed.

Lemma has_ticker_true (t : string) (r : Row) :
  has_ticker t r = true <-> row_ticker r = t.
Proof. unfold has_ticker. apply String.eqb_eq. Qed.

Lemma has_ticker_false (t : string) (r : Row) :
  has_ticker t r = false <-> row_ticker r <> t.
Proof. unfold has_ticker. apply String.eqb_neq. Qed.

Lemma in_select_ticker (t : string) (table : list Row) (r : Row) :
  In r (select_ticker t table) <-> In r table /\ row_ticker r = t.
Proof.
  unfold select_ticker. now rewrite filter_In, has_ticker_true.
Qed.

Lemma in_delete_ticker (t : string) (table : list Row) (r : Row) :
  In r (delete_ticker t table) <-> In r table /\ row_ticker r <> t.
Proof.
  unfold delete_ticker.
  now rewrite filter_In, negb_true_iff, has_ticker_false.
Qed.

Lemma keys_unique_filter (f : Row -> bool) (table : list Row) :
  keys_unique table -> keys_unique (filter f table).
Proof.
  unfold keys_unique. induction table as [| x table IH]; [trivial |].
  cbn [map filter]. intros H. inversion H as [| ? ? Hx Hrest]; subst.
  destruct (f x); [| now apply IH].
  cbn [map]. constructor; [| now apply IH].
  intros Hin. apply Hx. apply in_map_iff in Hin.
  destruct Hin as (y & Hy & Hin). apply filter_In in Hin.
  apply in_map_iff. exists y. now split.
Qed.

Lemma in_insert_or_replace (table : list Row) (x r : Row) :
  In r (insert_or_replace table x)
  <-> r = x \/ (In r table /\ key r <> key x).
Proof.
  unfold insert_or_replace.
  rewrite in_app_iff, filter_In, negb_true_iff, same_key_false.
  cbn [In]. intuition congruence.
Qed.

Lemma insert_or_replace_unique (table : list Row) (x : Row) :
  keys_unique table -> keys_unique (insert_or_replace table x).
Proof.
  intros H. unfold insert_or_replace, keys_unique. rewrite map_app.
  apply NoDup_app.
  - now apply keys_unique_filter.
  - cbn [map]. constructor; [intros [] | constructor].
  - intros k Hk [Hx | []]. apply in_map_iff in Hk.
    destruct Hk as (y & Hy & Hin). apply filter_In in Hin.
    destruct Hin as [_ Hin]. apply negb_true_iff, same_key_false in Hin.
    congruence.
Qed.

Lemma fold_insert_or_replace_unique (rows : list Row) :
  forall table : list Row,
    keys_unique table ->
    keys_unique (fold_left insert_or_replace rows table).
Proof.
  induction rows as [| x rows IH]; intros table H; cbn [fold_left];
    [exact H |].
  now apply IH, insert_or_replace_unique.
Qed.

Lemma in_fold_insert_or_replace (rows : list Row) :
  keys_unique rows ->
  forall (table : list Row) (r : Row),
    In r (fold_left insert_or_replace rows table)
    <-> In r rows \/ (In r table /\ ~ In (key r) (map key rows)).
Proof.
  unfold keys_unique.
  induction rows as [| x rows IH]; intros H table r; cbn [fold_left map].
  - cbn [In]. tauto.
  - inversion H as [| ? ? Hx Hrest]; subst.
    rewrite (IH Hrest), in_insert_or_replace. cbn [In].
    split.
    + intros [Hin | [[-> | [Hin Hk]] Hnot]].
      * left. now right.
      * left. now left.
      * right. split; [exact Hin |]. intros [E | Hin']; congruence.
    + intros [[-> | Hin] | [Hin Hnot]].
      * right. split; [now left | exact Hx].
      * now left.
      * right. split; [right; split; [exact Hin |] |].
        -- intros E. apply Hnot. now left.
        -- intros Hin'. apply Hnot. now right.
Qed.

Lemma selected_keys (t : string) (table : list Row) (r : Row) :
  In (key r) (map key (select_ticker t table))
  <-> row_ticker r = t /\ In (key r) (map key table).
Proof.
  rewrite !in_map_iff. split.
  - intros (y & Hy & Hin). apply in_select_ticker in Hin.
    destruct Hin as [Hin Ht]. split.
    + unfold key in Hy. inversion Hy. congruence.
    + now exists y.
  - intros (Ht & y & Hy & Hin). exists y. split; [exact Hy |].
    apply in_select_ticker. split; [exact Hin |].
    unfold key in Hy. inversion Hy. congruence.
Qed.

(** What the backup step does to the rows of the two tables. *)
Lemma backup_and_delete_rows (t : string) (db : Database) :
  keys_unique (performance db) ->
  let db' := backup_and_delete_historical_values t db in
  (forall r : Row,
      In r (performance db')
      <-> In r (performance db) /\ row_ticker r <> t)
  /\ (forall r : Row,
         In r (backup_performance db')
         <-> (In r (performance db) /\ row_ticker r = t)
             \/ (In r (backup_performance db)
                 /\ ~ (row_ticker r = t
                       /\ In (key r) (map key (performance db)))))
  /\ keys_unique (performance db')
  /\ (keys_unique (backup_performance db) ->
      keys_unique (backup_performance db')).
Proof.
  intros Hperf db'. subst db'.
  unfold backup_and_delete_historical_values.
  cbn [performance backup_performance].
  split; [intros r; apply in_delete_ticker |].
  split; [| split].
  - intros r.
    rewrite in_fold_insert_or_replace
      by (now apply keys_unique_filter).
    now rewrite in_select_ticker, selected_keys.
  - now apply keys_unique_filter.
  - apply fold_insert_or_replace_unique.
Qed.

(** X22.  [backup_and_delete_historical_values] loses no row: with keys
    unique in both tables before the call, the performance table keeps
    exactly its rows of the other tickers, and the backup table holds
    afterwards every performance row of the ticker, together with those
    of its earlier rows whose key no such row has taken over.  Keys stay
    unique in both tables. *)
Theorem backup_and_delete_keeps_every_row (t : string) (db : Database) :
  keys_unique (performance db) ->
  keys_unique (backup_performance db) ->
  let db' := backup_and_delete_historical_values t db in
  (forall r : Row,
      In r (performance db')
      <-> In r (performance db) /\ row_ticker r <> t)
  /\ (forall r : Row,
         In r (backup_performance db')
         <-> (In r (performance db) /\ row_ticker r = t)
             \/ (In r (backup_performance db)
                 /\ ~ (row_ticker r = t
                       /\ In (key r) (map key (performance db)))))
  /\ (forall r : Row,
         In r (performance db) ->
         In r (performance db') \/ In r (backup_performance db'))
  /\ keys_unique (performance db')
  /\ keys_unique (backup_performance db').
Proof.
  intros Hperf Hback db'.
  destruct (backup_and_delete_rows t db Hperf) as (Hp & Hb & Hup & Hub).
  fold db' in Hp, Hb, Hup, Hub.
  split; [exact Hp |]. split; [exact Hb |].
  split; [| split; [exact Hup | exact (Hub Hback)]].
  intros r Hin.
  destruct (string_dec (row_ticker r) t) as [E | N].
  - right. apply Hb. left. now split.
  - left. apply Hp. now split.
Qed.

Lemma backup_and_delete_keeps_every_row_witness :
  let old := mkRow "AAPL" 1 (Fin 1) NaN in
  let new := mkRow "AAPL" 1 (Fin 2) NaN in
  let other := mkRow "MSFT" 1 (Fin 3) NaN in
  let db := {| performance := [new; other];
               backup_performance := [old] |} in
  let db' := backup_and_delete_historical_values "AAPL" db in
  keys_unique (performance db)
  /\ keys_unique (backup_performance db)
  /\ (In new (performance db') \/ In new (backup_performance db'))
  /\ keys_unique (backup_performance db').
Proof.
  intros old new other db db'.
  assert (Hperf : keys_unique (performance db)).
  { unfold keys_unique. cbn.
    repeat constructor; cbn; intuition discriminate. }
  assert (Hback : keys_unique (backup_performance db)).
  { unfold keys_unique. cbn. repeat constructor. intros []. }
  destruct (backup_and_delete_keeps_every_row "AAPL" db Hperf Hback)
    as (_ & _ & Hkept & _ & Hunique).
  exact (conj Hperf (conj Hback
           (conj (Hkept new (or_introl eq_refl)) Hunique))).
Defined.


(** ** Results store: saving a run *)

Lemma insert_row_result (table table' : list Row) (r : Row) :
  insert_row table r = Ok table' ->
  table' = (table ++ [r])%list /\ ~ In (key r) (map key table).
Proof.
  unfold insert_row.
  destruct (existsb (same_key r) table) eqn:E; [discriminate |].
  intros H. inversion H. split; [reflexivity |].
  intros Hin. apply in_map_iff in Hin. destruct Hin as (y & Hy & Hin).
  assert (existsb (same_key r) table = true); [| congruence].
  apply existsb_exists. exists y. split; [exact Hin |].
  now apply same_key_true.
Qed.

Lemma insert_rows_result (rows : list Row) :
  forall table table' : list Row,
    insert_rows rows table = Ok table' ->
    table' = (table ++ rows)%list
    /\ (keys_unique table -> keys_unique table').
Proof.
  induction rows as [| r rows IH]; intros table table'; cbn [insert_rows].
  - intros H. inversion H. now rewrite app_nil_r.
  - destruct (insert_row table r) as [table1 | e] eqn:E; [| discriminate].
    apply insert_row_result in E. destruct E as [-> Hnew].
    intros H. apply IH in H. destruct H as [-> Hu].
    split; [now rewrite <- app_assoc |].
    intros Hk. apply Hu. unfold keys_unique. rewrite map_app.
    apply NoDup_app; [exact Hk | |].
    + cbn [map]. constructor; [intros [] | constructor].
    + intros k Hin [<- | []]. now apply Hnew.
Qed.

Lemma insert_rows_ok (rows : list Row) :
  forall table : list Row,
    keys_unique rows ->
    (forall r : Row, In r rows -> ~ In (key r) (map key table)) ->
    insert_rows rows table = Ok (table ++ rows)%list.
Proof.
  unfold keys_unique.
  induction rows as [| r rows IH]; intros table Hu Hnew; cbn [insert_rows].
  - now rewrite app_nil_r.
  - inversion Hu as [| ? ? Hr Hrest]; subst.
    unfold insert_row.
    destruct (existsb (same_key r) table) eqn:E.
    + apply existsb_exists in E. destruct E as (y & Hin & Hy).
      apply same_key_true in Hy. exfalso. apply (Hnew r); [now left |].
      rewrite Hy. now apply in_map.
    + rewrite IH; [now rewrite <- app_assoc | exact Hrest |].
      intros x Hx. rewrite map_app, in_app_iff. cbn [map In].
      intros [Hin | [E' | []]].
      * apply (Hnew x); [now right | exact Hin].
      * apply Hr. rewrite E'. now apply in_map.
Qed.

Lemma frame_dates (dates : list Z) (values : list R) (returns : list xreal) :
  List.length values = List.length dates ->
  List.length returns = List.length dates ->
  map (fun r => fst (fst r)) (combine (combine dates values) returns)
  = dates.
Proof.
  revert values returns.
  induction dates as [| d dates IH]; intros [| v values] [| x returns];
    cbn [List.length combine map fst]; try discriminate; [reflexivity |].
  intros Hv Hr. f_equal. apply IH; congruence.
Qed.

Lemma pct_change_from_length (s : list R) (prev : R) :
  List.length (pct_change_from prev s) = List.length s.
Proof.
  revert prev. induction s as [| v s IH]; intros prev;
    cbn [pct_change_from List.length]; [reflexivity |].
  now rewrite IH.
Qed.

Lemma pct_change_length (s : list R) :
  List.length (pct_change s) = List.length s.
Proof.
  destruct s as [| v s]; cbn [pct_change List.length]; [reflexivity |].
  now rewrite pct_change_from_length.
Qed.

Lemma row_of_key (t : string) (r : Z * R * xreal) :
  key (row_of t r) = (t, fst (fst r)).
Proof. now destruct r as [[d v] x]. Qed.

Lemma increasing_NoDup (l : list Z) : StronglySorted Z.lt l -> NoDup l.
Proof.
  induction 1 as [| x l Hl IH Hx]; constructor; [| exact IH].
  intros Hin. rewrite Forall_forall in Hx. specialize (Hx x Hin). lia.
Qed.

Lemma frame_rows_unique (t : string) (df : list (Z * R * xreal)) :
  NoDup (map (fun r => fst (fst r)) df) ->
  keys_unique (map (row_of t) df).
Proof.
  unfold keys_unique. rewrite map_map.
  induction df as [| r df IH]; cbn [map]; intros H; [constructor |].
  inversion H as [| ? ? Hr Hrest]; subst.
  constructor; [| now apply IH].
  rewrite row_of_key. intros Hin. apply Hr.
  apply in_map_iff in Hin. destruct Hin as (y & Hy & Hin).
  rewrite row_of_key in Hy. inversion Hy as [Hd].
  apply in_map_iff. now exists y.
Qed.

Lemma to_sql_after_delete (t : string) (df : list (Z * R * xreal))
  (table : list Row) :
  NoDup (map (fun r => fst (fst r)) df) ->
  to_sql t df (delete_ticker t table)
  = Ok (delete_ticker t table ++ map (row_of t) df)%list.
Proof.
  intros Hdates. unfold to_sql. apply insert_rows_ok.
  - now apply frame_rows_unique.
  - intros r Hr Hin. apply in_map_iff in Hr. destruct Hr as (x & <- & _).
    apply in_map_iff in Hin. destruct Hin as (y & Hy & Hin).
    apply in_delete_ticker in Hin. destruct Hin as [_ Hn].
    rewrite row_of_key in Hy. unfold key in Hy. inversion Hy. congruence.
Qed.

Section SavingProperties.

Variable json_loads : pyval -> result pyval.
Variable yf_download : string -> Z -> Z -> result (list Bar).
Variable agent : string -> Z -> Z -> Portfolio -> result pyval.
Variables s e : Z.
Variable capital : Q.

Local Abbreviation run_of t :=
  (run_backtest json_loads yf_download agent (new_backtester t s e capital)).
Local Abbreviation one :=
  (backtest_ticker json_loads yf_download agent s e capital).
Local Abbreviation all :=
  (backtest_tickers json_loads yf_download agent s e capital).

(** The frame of a completed run has one row per business day. *)
Lemma completed_run_frame (t : string) (sim' : Sim) :
  date_range s e <> [] ->
  run_of t = (Ok tt, sim') ->
  exists perf : Performance,
    analyze_performance (bt sim') = Ok perf
    /\ map (fun r => fst (fst r)) (performance_df perf) = date_range s e.
Proof.
  intros Hdays Hrun.
  destruct (completed_run_analysis json_loads yf_download agent t s e
              capital sim' Hdays Hrun)
    as (d & v & final & rest & _ & _ & Hlast & Han).
  destruct (for_each_records json_loads yf_download agent
              (date_range s e)
              {| bt := new_backtester t s e capital; calls := [] |})
    as (new & left & Hv & Hd & Hok & _).
  unfold run_backtest in Hrun.
  cbn [start_date end_date new_backtester] in Hrun.
  rewrite Hrun in Hv, Hok.
  cbn [fst snd bt portfolio_values new_backtester app] in Hv, Hok.
  assert (left = []) as -> by now apply Hok.
  rewrite app_nil_r in Hd.
  rewrite Han. unfold analyze_sequence. rewrite Hlast.
  eexists. split; [reflexivity |].
  cbn [performance_df]. rewrite Hv, Hd. apply frame_dates.
  - unfold value_column. now rewrite !length_map.
  - rewrite pct_change_length. unfold value_column. now rewrite !length_map.
Qed.

(** A range without a business day: the run records nothing and the
    analyzer has no column to index by. *)
Lemma empty_run_analysis (t : string) :
  date_range s e = [] ->
  run_of t = (Ok tt, {| bt := new_backtester t s e capital; calls := [] |})
  /\ analyze_performance (new_backtester t s e capital) = Raise KeyError.
Proof.
  intros Hdays. unfold run_backtest.
  cbn [start_date end_date new_backtester]. rewrite Hdays. now split.
Qed.

(** The three ways the body of the ticker loop can end. *)
Lemma backtest_ticker_cases (t : string) (db : Database) :
  let db1 := backup_and_delete_historical_values t db in
  (exists err : exn, fst (run_of t) = Raise err /\ one t db = (Raise err, db1))
  \/ (fst (run_of t) = Ok tt /\ date_range s e = []
      /\ one t db = (Raise KeyError, db1))
  \/ (exists perf : Performance,
         fst (run_of t) = Ok tt
         /\ analyze_performance (bt (snd (run_of t))) = Ok perf
         /\ map (fun r => fst (fst r)) (performance_df perf)
            = date_range s e
         /\ one t db
            = (Ok tt,
               {| performance :=
                    (performance db1
                     ++ map (row_of t) (performance_df perf))%list;
                  backup_performance := backup_performance db1 |})).
Proof.
  intros db1. unfold backtest_ticker. fold db1.
  destruct (run_of t) as [[[] | err] sim'] eqn:Hrun; cbn [fst snd].
  - destruct (date_range s e) as [| d0 dates] eqn:Hdays.
    + right. left.
      destruct (empty_run_analysis t Hdays) as [Hrun' Han].
      rewrite Hrun in Hrun'. inversion Hrun'; subst. cbn [bt].
      now rewrite Han.
    + right. right.
      destruct (completed_run_frame t sim') as (perf & Han & Hd);
        [rewrite Hdays; discriminate | exact Hrun |].
      exists perf. rewrite Han. rewrite Hdays in Hd.
      split; [reflexivity |]. split; [reflexivity |].
      split; [exact Hd |].
      subst db1. unfold backup_and_delete_historical_values at 1.
      cbn [performance]. rewrite to_sql_after_delete; [reflexivity |].
      rewrite Hd, <- Hdays. apply increasing_NoDup, date_range_increasing.
  - left. now exists err.
Qed.

Lemma select_delete_other (t u : string) (table : list Row) :
  u <> t -> select_ticker u (delete_ticker t table) = select_ticker u table.
Proof.
  intros Hne. unfold select_ticker, delete_ticker.
  induction table as [| r table IH]; cbn [filter]; [reflexivity |].
  destruct (has_ticker t r) eqn:Ht; cbn [negb filter].
  - apply has_ticker_true in Ht.
    assert (has_ticker u r = false) as ->
      by (apply has_ticker_false; congruence).
    exact IH.
  - destruct (has_ticker u r); [now rewrite IH | exact IH].
Qed.

Lemma select_insert_other (u : string) (table : list Row) (x : Row) :
  row_ticker x <> u ->
  select_ticker u (insert_or_replace table x) = select_ticker u table.
Proof.
  intros Hne. unfold select_ticker, insert_or_replace.
  rewrite filter_app. cbn [filter].
  assert (has_ticker u x = false) as -> by now apply has_ticker_false.
  rewrite app_nil_r.
  induction table as [| r table IH]; cbn [filter]; [reflexivity |].
  destruct (same_key r x) eqn:Hk; cbn [negb filter].
  - apply same_key_true in Hk. unfold key in Hk. inversion Hk as [[Ht Hd]].
    assert (has_ticker u r = false) as ->
      by (apply has_ticker_false; congruence).
    exact IH.
  - destruct (has_ticker u r); [now rewrite IH | exact IH].
Qed.

Lemma select_fold_other (u : string) (rows : list Row) :
  Forall (fun x => row_ticker x <> u) rows ->
  forall table : list Row,
    select_ticker u (fold_left insert_or_replace rows table)
    = select_ticker u table.
Proof.
  induction 1 as [| x rows Hx Hrows IH]; intros table; cbn [fold_left];
    [reflexivity |].
  now rewrite IH, select_insert_other.
Qed.

Lemma select_frame_other (t u : string) (df : list (Z * R * xreal)) :
  u <> t -> select_ticker u (map (row_of t) df) = [].
Proof.
  intros Hne. unfold select_ticker.
  induction df as [| [[d v] x] df IH]; cbn [map filter]; [reflexivity |].
  assert (has_ticker u (row_of t (d, v, x)) = false) as ->
    by (apply has_ticker_false; cbn; congruence).
  exact IH.
Qed.

Lemma backup_and_delete_other (t u : string) (db : Database) :
  u <> t ->
  let db1 := backup_and_delete_historical_values t db in
  select_ticker u (performance db1) = select_ticker u (performance db)
  /\ select_ticker u (backup_performance db1)
     = select_ticker u (backup_performance db).
Proof.
  intros Hne db1. subst db1. unfold backup_and_delete_historical_values.
  cbn [performance backup_performance].
  split; [now apply select_delete_other |].
  apply select_fold_other, Forall_forall. intros x Hx.
  apply in_select_ticker in Hx. destruct Hx as [_ Hx]. congruence.
Qed.

(** One ticker: the rows of the other tickers stay, and keys stay
    unique. *)
Lemma backtest_ticker_keeps (t : string) (db : Database) :
  (forall u : string,
      u <> t ->
      select_ticker u (performance (snd (one t db)))
      = select_ticker u (performance db)
      /\ select_ticker u (backup_performance (snd (one t db)))
         = select_ticker u (backup_performance db))
  /\ (keys_unique (performance db) ->
      keys_unique (backup_performance db) ->
      keys_unique (performance (snd (one t db)))
      /\ keys_unique (backup_performance (snd (one t db)))).
Proof.
  pose proof (backup_and_delete_rows t db) as Hrows. cbv zeta in Hrows.
  destruct (backtest_ticker_cases t db)
    as [(err & _ & Hone) | [(_ & _ & Hone) | (perf & _ & _ & Hd & Hone)]];
    rewrite Hone; cbn [snd performance backup_performance]; split.
  - intros u Hne. now apply backup_and_delete_other.
  - intros Hp Hb. destruct (Hrows Hp) as (_ & _ & Hup & Hub). auto.
  - intros u Hne. now apply backup_and_delete_other.
  - intros Hp Hb. destruct (Hrows Hp) as (_ & _ & Hup & Hub). auto.
  - intros u Hne.
    destruct (backup_and_delete_other t u db Hne) as [Hp Hb].
    split; [| exact Hb].
    unfold select_ticker in *. rewrite filter_app.
    fold (select_ticker u (map (row_of t) (performance_df perf))).
    now rewrite select_frame_other, app_nil_r.
  - intros Hp Hb. destruct (Hrows Hp) as (_ & _ & Hup & Hub).
    split; [| auto].
    pose proof (to_sql_after_delete t (performance_df perf)
                  (performance db)) as Hsql.
    unfold to_sql in Hsql.
    apply (insert_rows_result (map (row_of t) (performance_df perf))
             (delete_ticker t (performance db))).
    + apply Hsql. rewrite Hd.
      apply increasing_NoDup, date_range_increasing.
    + exact Hup.
Qed.

End SavingProperties.


(** ** Results store: the ticker loop *)

Lemma select_delete_same (t : string) (table : list Row) :
  select_ticker t (delete_ticker t table) = [].
Proof.
  unfold select_ticker, delete_ticker.
  induction table as [| r table IH]; cbn [filter]; [reflexivity |].
  destruct (has_ticker t r) eqn:Ht; cbn [negb filter]; [exact IH |].
  now rewrite Ht.
Qed.

Lemma select_frame_same (t : string) (df : list (Z * R * xreal)) :
  select_ticker t (map (row_of t) df) = map (row_of t) df.
Proof.
  unfold select_ticker.
  induction df as [| [[d v] x] df IH]; cbn [map filter]; [reflexivity |].
  assert (has_ticker t (row_of t (d, v, x)) = true) as ->
    by now apply has_ticker_true.
  now rewrite IH.
Qed.

Lemma saved_rows_unique (t : string) (df : list (Z * R * xreal))
  (table : list Row) :
  NoDup (map (fun r => fst (fst r)) df) ->
  keys_unique table ->
  keys_unique (delete_ticker t table ++ map (row_of t) df).
Proof.
  intros Hd Hk.
  apply (insert_rows_result (map (row_of t) df) (delete_ticker t table)).
  - now apply to_sql_after_delete.
  - now apply keys_unique_filter.
Qed.

Section LoopProperties.

Variable json_loads : pyval -> result pyval.
Variable yf_download : string -> Z -> Z -> result (list Bar).
Variable agent : string -> Z -> Z -> Portfolio -> result pyval.
Variables s e : Z.
Variable capital : Q.

Local Abbreviation run_of t :=
  (run_backtest json_loads yf_download agent (new_backtester t s e capital)).
Local Abbreviation one :=
  (backtest_ticker json_loads yf_download agent s e capital).
Local Abbreviation all :=
  (backtest_tickers json_loads yf_download agent s e capital).

Lemma backtest_tickers_keeps (tickers : list string) :
  forall db : Database,
    (forall u : string,
        ~ In u tickers ->
        select_ticker u (performance (snd (all tickers db)))
        = select_ticker u (performance db)
        /\ select_ticker u (backup_performance (snd (all tickers db)))
           = select_ticker u (backup_performance db))
    /\ (keys_unique (performance db) ->
        keys_unique (backup_performance db) ->
        keys_unique (performance (snd (all tickers db)))
        /\ keys_unique (backup_performance (snd (all tickers db)))).
Proof.
  induction tickers as [| t tickers IH]; intros db; cbn [backtest_tickers].
  - cbn [snd]. now repeat split.
  - destruct (backtest_ticker_keeps json_loads yf_download agent s e
                capital t db) as [Hother Hkeys].
    destruct (one t db) as [[[] | err] db1]; cbn [snd] in *.
    + destruct (IH db1) as [Hother' Hkeys']. split.
      * intros u Hu.
        destruct (Hother u) as [Hp Hb]; [intros ->; apply Hu; now left |].
        destruct (Hother' u) as [Hp' Hb']; [intros Hin; apply Hu; now right |].
        split; congruence.
      * intros Hp Hb. destruct (Hkeys Hp Hb). now apply Hkeys'.
    + split; [| exact Hkeys].
      intros u Hu. apply Hother. intros ->. apply Hu. now left.
Qed.

Lemma backtest_tickers_stop (tickers : list string) :
  forall (db : Database) (err : exn),
    fst (all tickers db) = Raise err ->
    exists (done : list string) (t : string) (rest : list string)
           (mid : Database),
      tickers = (done ++ t :: rest)%list
      /\ all done db = (Ok tt, mid)
      /\ one t mid = (Raise err, snd (all tickers db)).
Proof.
  induction tickers as [| t tickers IH]; intros db err;
    cbn [backtest_tickers]; [discriminate |].
  destruct (one t db) as [[[] | err'] db1] eqn:Hone; cbn [fst snd].
  - intros H. destruct (IH db1 err H) as (done & t' & rest & mid & -> & Hd & Ht).
    exists (t :: done), t', rest, mid.
    split; [reflexivity |]. split; [| exact Ht].
    cbn [backtest_tickers]. now rewrite Hone.
  - intros H. inversion H; subst.
    exists [], t, tickers, db. now repeat split.
Qed.

Lemma backtest_ticker_saved (t : string) (db db1 : Database) :
  one t db = (Ok tt, db1) ->
  exists (sim' : Sim) (perf : Performance),
    run_of t = (Ok tt, sim')
    /\ analyze_performance (bt sim') = Ok perf
    /\ map (fun r => fst (fst r)) (performance_df perf) = date_range s e
    /\ date_range s e <> []
    /\ select_ticker t (performance db1)
       = map (row_of t) (performance_df perf).
Proof.
  intros Hone.
  destruct (backtest_ticker_cases json_loads yf_download agent s e
              capital t db)
    as [(err & _ & H) | [(_ & _ & H) | (perf & Hrun & Han & Hd & H)]];
    rewrite H in Hone; try discriminate.
  inversion Hone; subst db1. clear Hone H.
  exists (snd (run_of t)), perf.
  split; [destruct (run_of t) as [r sim']; cbn [fst snd] in *; now subst |].
  split; [exact Han |]. split; [exact Hd |]. split.
  - intros Hnil.
    destruct (empty_run_analysis json_loads yf_download agent s e capital
                t Hnil) as [Hrun' Han'].
    rewrite Hrun' in Han. cbn [snd bt] in Han. congruence.
  - cbn [performance backup_and_delete_historical_values].
    unfold select_ticker. rewrite filter_app.
    fold (select_ticker t (delete_ticker t (performance db))).
    fold (select_ticker t (map (row_of t) (performance_df perf))).
    now rewrite select_delete_same, select_frame_same.
Qed.

Lemma backtest_tickers_saved (tickers : list string) :
  forall db db' : Database,
    all tickers db = (Ok tt, db') ->
    forall t : string,
      In t tickers ->
      exists (sim' : Sim) (perf : Performance),
        run_of t = (Ok tt, sim')
        /\ analyze_performance (bt sim') = Ok perf
        /\ map (fun r => fst (fst r)) (performance_df perf)
           = date_range s e
        /\ date_range s e <> []
        /\ select_ticker t (performance db')
           = map (row_of t) (performance_df perf).
Proof.
  induction tickers as [| t0 tickers IH]; intros db db' Hall t Hin;
    [destruct Hin |].
  cbn [backtest_tickers] in Hall.
  destruct (one t0 db) as [[[] | err] db1] eqn:Hone; [| discriminate].
  destruct (in_dec string_dec t tickers) as [Hlater | Hnot].
  - exact (IH db1 db' Hall t Hlater).
  - destruct Hin as [-> | Hin]; [| contradiction].
    destruct (backtest_ticker_saved t db db1 Hone)
      as (sim' & perf & Hrun & Han & Hd & Hne & Hsel).
    exists sim', perf. repeat (split; [assumption |]).
    destruct (backtest_tickers_keeps tickers db1) as [Hother _].
    destruct (Hother t Hnot) as [Hp _].
    rewrite Hall in Hp. cbn [snd] in Hp. congruence.
Qed.

End LoopProperties.

(** X23.  When the run of a ticker completes over at least one business
    day, the body of the ticker loop ends without an exception: the
    insert into the performance table cannot fail on the primary key,
    because the rows of the ticker were deleted before and the frame has
    one row per business day.  The table then holds its former rows of
    the other tickers followed by the rows of the frame, and keys that
    were unique stay unique. *)
Theorem backtest_ticker_saves_completed_run
  (json_loads : pyval -> result pyval)
  (yf_download : string -> Z -> Z -> result (list Bar))
  (agent : string -> Z -> Z -> Portfolio -> result pyval)
  (s e : Z) (capital : Q) (t : string) (db : Database) (sim' : Sim) :
  date_range s e <> [] ->
  run_backtest json_loads yf_download agent (new_backtester t s e capital)
  = (Ok tt, sim') ->
  exists perf : Performance,
    analyze_performance (bt sim') = Ok perf
    /\ map (fun r => fst (fst r)) (performance_df perf) = date_range s e
    /\ backtest_ticker json_loads yf_download agent s e capital t db
       = (Ok tt,
          {| performance :=
               (delete_ticker t (performance db)
                ++ map (row_of t) (performance_df perf))%list;
             backup_performance :=
               backup_performance
                 (backup_and_delete_historical_values t db) |})
    /\ (keys_unique (performance db) ->
        keys_unique (delete_ticker t (performance db)
                     ++ map (row_of t) (performance_df perf))).
Proof.
  intros Hdays Hrun.
  destruct (backtest_ticker_cases json_loads yf_download agent s e
              capital t db)
    as [(err & Hr & _) | [(_ & Hnil & _) | (perf & _ & Han & Hd & Hone)]].
  - rewrite Hrun in Hr. discriminate.
  - contradiction.
  - rewrite Hrun in Han. cbn [snd] in Han.
    exists perf. split; [exact Han |]. split; [exact Hd |].
    split; [exact Hone |].
    apply saved_rows_unique. rewrite Hd.
    apply increasing_NoDup, date_range_increasing.
Qed.

Lemma backtest_ticker_saves_completed_run_witness :
  let db := {| performance := [mkRow "AAPL" 1 (Fin 1) NaN;
                               mkRow "MSFT" 1 (Fin 3) NaN];
               backup_performance := [] |} in
  exists (sim' : Sim) (perf : Performance),
    date_range 1 5 <> []
    /\ run_backtest json_decode rising_bars buy_5_agent
         (new_backtester "AAPL" 1 5 1000) = (Ok tt, sim')
    /\ map (fun r => fst (fst r)) (performance_df perf) = date_range 1 5
    /\ fst (backtest_ticker json_decode rising_bars buy_5_agent 1 5 1000
              "AAPL" db) = Ok tt.
Proof.
  intros db.
  exists (snd (run_backtest json_decode rising_bars buy_5_agent
                 (new_backtester "AAPL" 1 5 1000))).
  assert (Hd : date_range 1 5 <> []) by discriminate.
  assert (Hr : run_backtest json_decode rising_bars buy_5_agent
                 (new_backtester "AAPL" 1 5 1000)
               = (Ok tt,
                  snd (run_backtest json_decode rising_bars buy_5_agent
                         (new_backtester "AAPL" 1 5 1000))))
    by (vm_compute; reflexivity).
  destruct (backtest_ticker_saves_completed_run json_decode rising_bars
              buy_5_agent 1 5 1000 "AAPL" db _ Hd Hr)
    as (perf & _ & Hdates & Hone & _).
  exists perf.
  exact (conj Hd (conj Hr (conj Hdates (f_equal fst Hone)))).
Defined.

(** X24.  The body of the ticker loop raises only when the run raises,
    or when the date range holds no business day and the analyzer raises
    KeyError; saving a frame never raises.  The store is then left as
    the backup step committed it: the performance table has no row of
    the ticker, and each row it had is in the backup table. *)
Theorem failed_ticker_is_left_in_backup
  (json_loads : pyval -> result pyval)
  (yf_download : string -> Z -> Z -> result (list Bar))
  (agent : string -> Z -> Z -> Portfolio -> result pyval)
  (s e : Z) (capital : Q) (t : string) (db db' : Database) (err : exn) :
  keys_unique (performance db) ->
  backtest_ticker json_loads yf_download agent s e capital t db
  = (Raise err, db') ->
  let run :=
    run_backtest json_loads yf_download agent
                 (new_backtester t s e capital) in
  (fst run = Raise err
   \/ (fst run = Ok tt /\ date_range s e = [] /\ err = KeyError))
  /\ db' = backup_and_delete_historical_values t db
  /\ (forall r : Row, In r (performance db') -> row_ticker r <> t)
  /\ (forall r : Row,
         In r (performance db) -> row_ticker r = t ->
         In r (backup_performance db')).
Proof.
  intros Hk Hone run. subst run.
  destruct (backup_and_delete_rows t db Hk) as (Hp & Hb & _).
  assert (Hstore : db' = backup_and_delete_historical_values t db
                   /\ (fst (run_backtest json_loads yf_download agent
                              (new_backtester t s e capital)) = Raise err
                       \/ (fst (run_backtest json_loads yf_download agent
                                  (new_backtester t s e capital)) = Ok tt
                           /\ date_range s e = [] /\ err = KeyError))).
  { destruct (backtest_ticker_cases json_loads yf_download agent s e
                capital t db)
      as [(err' & Hr & H) | [(Hr & Hnil & H) | (perf & _ & _ & _ & H)]];
      rewrite H in Hone; inversion Hone; subst; split; auto. }
  destruct Hstore as [-> Hwhy].
  split; [exact Hwhy |]. split; [reflexivity |]. split.
  - intros r Hin. now apply Hp in Hin.
  - intros r Hin Ht. apply Hb. left. now split.
Qed.

Lemma failed_ticker_is_left_in_backup_witness :
  let row := mkRow "AAPL" 1 (Fin 1) NaN in
  let db := {| performance := [row]; backup_performance := [] |} in
  let db' := backup_and_delete_historical_values "AAPL" db in
  keys_unique (performance db)
  /\ backtest_ticker json_decode no_bars hold_agent 1 5 1000 "AAPL" db
     = (Raise ValueError, db')
  /\ In row (backup_performance db').
Proof.
  intros row db db'.
  assert (Hk : keys_unique (performance db)).
  { unfold keys_unique. cbn. repeat constructor. intros []. }
  assert (Hone : backtest_ticker json_decode no_bars hold_agent 1 5 1000
                   "AAPL" db = (Raise ValueError, db'))
    by (vm_compute; reflexivity).
  destruct (failed_ticker_is_left_in_backup json_decode no_bars hold_agent
              1 5 1000 "AAPL" db db' ValueError Hk Hone)
    as (_ & _ & _ & Hkept).
  exact (conj Hk (conj Hone (Hkept row (or_introl eq_refl) eq_refl))).
Defined.

(** X25.  The ticker loop leaves the rows of every ticker that is not
    in its list as they were, in both tables, and keeps keys unique in
    both, however it ends.  When it ends in an exception, the store is
    the one the failing ticker left: the tickers before it were all
    saved, and those after it are not processed. *)
Theorem backtest_tickers_scope
  (json_loads : pyval -> result pyval)
  (yf_download : string -> Z -> Z -> result (list Bar))
  (agent : string -> Z -> Z -> Portfolio -> result pyval)
  (s e : Z) (capital : Q) (tickers : list string) (db : Database) :
  let all := backtest_tickers json_loads yf_download agent s e capital in
  let one := backtest_ticker json_loads yf_download agent s e capital in
  let out := all tickers db in
  (forall u : string,
      ~ In u tickers ->
      select_ticker u (performance (snd out))
      = select_ticker u (performance db)
      /\ select_ticker u (backup_performance (snd out))
         = select_ticker u (backup_performance db))
  /\ (keys_unique (performance db) ->
      keys_unique (backup_performance db) ->
      keys_unique (performance (snd out))
      /\ keys_unique (backup_performance (snd out)))
  /\ (forall err : exn,
         fst out = Raise err ->
         exists (done : list string) (t : string) (rest : list string)
                (mid : Database),
           tickers = (done ++ t :: rest)%list
           /\ all done db = (Ok tt, mid)
           /\ one t mid = (Raise err, snd out)).
Proof.
  intros all one out. subst all one out.
  destruct (backtest_tickers_keeps json_loads yf_download agent s e capital
              tickers db) as [Hother Hkeys].
  split; [exact Hother |]. split; [exact Hkeys |].
  intros err. apply backtest_tickers_stop.
Qed.

(** X26.  After a ticker loop that ends without an exception, the
    performance table holds for each ticker of the list exactly the rows
    of that ticker's run: one row per business day of the date range,
    which is then not empty. *)
Theorem completed_batch_rows
  (json_loads : pyval -> result pyval)
  (yf_download : string -> Z -> Z -> result (list Bar))
  (agent : string -> Z -> Z -> Portfolio -> result pyval)
  (s e : Z) (capital : Q) (tickers : list string) (db db' : Database)
  (t : string) :
  backtest_tickers json_loads yf_download agent s e capital tickers db
  = (Ok tt, db') ->
  In t tickers ->
  exists (sim' : Sim) (perf : Performance),
    run_backtest json_loads yf_download agent
                 (new_backtester t s e capital) = (Ok tt, sim')
    /\ analyze_performance (bt sim') = Ok perf
    /\ select_ticker t (performance db')
       = map (row_of t) (performance_df perf)
    /\ map row_date (select_ticker t (performance db')) = date_range s e
    /\ date_range s e <> [].
Proof.
  intros Hall Hin.
  destruct (backtest_tickers_saved json_loads yf_download agent s e capital
              tickers db db' Hall t Hin)
    as (sim' & perf & Hrun & Han & Hd & Hne & Hsel).
  exists sim', perf.
  split; [exact Hrun |]. split; [exact Han |]. split; [exact Hsel |].
  split; [| exact Hne].
  rewrite Hsel, map_map, <- Hd. apply map_ext.
  now intros [[d v] x].
Qed.

Lemma completed_batch_rows_witness :
  let db := {| performance := [mkRow "MSFT" 1 (Fin 3) NaN];
               backup_performance := [] |} in
  let out := backtest_tickers json_decode rising_bars buy_5_agent 1 5 1000
               ["AAPL"%string; "MSFT"%string] db in
  out = (Ok tt, snd out)
  /\ In "MSFT"%string ["AAPL"%string; "MSFT"%string]
  /\ map row_date (select_ticker "MSFT" (performance (snd out)))
     = date_range 1 5.
Proof.
  intros db out.
  assert (Hall : out = (Ok tt, snd out)) by (vm_compute; reflexivity).
  assert (Hin : In "MSFT"%string ["AAPL"%string; "MSFT"%string]) by (right; left; reflexivity).
  destruct (completed_batch_rows json_decode rising_bars buy_5_agent
              1 5 1000 ["AAPL"%string; "MSFT"%string] db (snd out) "MSFT" Hall Hin)
    as (_ & _ & _ & _ & _ & Hdates & _).
  exact (conj Hall (conj Hin Hdates)).
Defined.
